(** * edc-umm: collections with OPeNDAP related URLs and their service associations

    A shallow embedding of the three scripts of the repository

    - [get_collections_with_opendap.py]: paginated retrieval of the cloud-hosted
      collections from CMR graph, the OPeNDAP related-URL predicate and filter,
      and the two JSON snapshots;
    - [manage_associations.py]: the provider filter over the filtered snapshot;
    - [mirror_associations.py]: reading, creating and removing the associations
      of a service record.

    How the Python is modelled:

    - values that come out of [json.load] / [response.json()] are terms of the
      inductive type [json]; a dict is an association list read with [assoc];
      strings are ASCII text and numbers are integers;
    - an exception is an [outcome] of the form [Raise e]; the operators the
      scripts use on values ([get], subscripts, [in], [<], iteration) raise
      what Python raises on a value of the wrong type;
    - everything done to the outside (printing, HTTP requests, files) goes
      through one state-and-error monad [M] over the record [sys]; the network
      is a function [send] from the state of the world and a request to an
      answer; of a response the scripts only read [ok], [status_code],
      [content] and [json()];
    - the [while] loop of the pagination takes fuel and gives [None] when the
      fuel runs out;
    - [json.dump] and [json.load] are parameters of the scripts that use them;
      [JsonText] is an instance that writes and reads the text Python writes
      with [indent=2]. *)

From Stdlib Require Import ZArith List String Ascii Lia Bool.
From Stdlib Require Import DecimalString DecimalN.
From stdpp Require Import gmap strings.
Import ListNotations.
Open Scope string_scope.
Open Scope list_scope.
Open Scope Z_scope.

(** ** Values and exceptions *)

#[warnings="-register-all"]
Inductive json : Type :=
| JNull
| JBool (b : bool)
| JNum (n : Z)
| JStr (s : string)
| JArr (items : list json)
| JObj (fields : list (string * json)).

Inductive exn : Type :=
| AttributeError
| KeyError
| TypeError
| IndexError
| ValueError
| HTTPError
| ConnectionError
| FileNotFoundError
| JSONDecodeError
| StopIteration
| Exception_ (msg : string).

Inductive outcome (A : Type) : Type :=
| Return (a : A)
| Raise (e : exn).

Arguments Return {A} a.
Arguments Raise {A} e.

Definition exn_is_AttributeError (e : exn) : bool :=
  match e with AttributeError => true | _ => false end.

Definition exn_is_IndexError (e : exn) : bool :=
  match e with IndexError => true | _ => false end.

(** ** Strings: the [str] methods the scripts call *)

Definition ascii_lower (c : ascii) : ascii :=
  let n := nat_of_ascii c in
  if (Nat.leb 65 n && Nat.leb n 90)%bool then ascii_of_nat (n + 32) else c.

(** [s.lower()] *)
Fixpoint lower (s : string) : string :=
  match s with
  | EmptyString => EmptyString
  | String c s' => String (ascii_lower c) (lower s')
  end.

(** [s.startswith(p)] *)
Fixpoint startswith (s p : string) {struct p} : bool :=
  match p with
  | EmptyString => true
  | String a p' =>
      match s with
      | EmptyString => false
      | String b s' => Ascii.eqb a b && startswith s' p'
      end
  end.

(** [needle in hay] for two strings *)
Fixpoint str_contains (needle hay : string) : bool :=
  startswith hay needle
  || match hay with
     | EmptyString => false
     | String _ hay' => str_contains needle hay'
     end.

Fixpoint str_drop (n : nat) (s : string) : string :=
  match n, s with
  | O, _ => s
  | S _, EmptyString => EmptyString
  | S n', String _ s' => str_drop n' s'
  end.

(** [s.endswith(suffix)] *)
Definition endswith (s suffix : string) : bool :=
  Nat.leb (String.length suffix) (String.length s)
  && String.eqb (str_drop (String.length s - String.length suffix) s) suffix.

(** ** Dictionaries, lists and the operators used on them *)

Fixpoint assoc (key : string) (fields : list (string * json)) : option json :=
  match fields with
  | [] => None
  | (k, v) :: rest => if String.eqb k key then Some v else assoc key rest
  end.

(** [d[key] = v] on a dict: an existing key keeps its position. *)
Fixpoint assoc_set (key : string) (v : json) (fields : list (string * json))
  : list (string * json) :=
  match fields with
  | [] => [(key, v)]
  | (k, w) :: rest =>
      if String.eqb k key then (k, v) :: rest else (k, w) :: assoc_set key v rest
  end.

Definition is_None (v : json) : bool :=
  match v with JNull => true | _ => false end.

(** [v == []] *)
Definition eq_empty_list (v : json) : bool :=
  match v with JArr [] => true | _ => false end.

(** [v == 'literal'] *)
Definition eq_str (v : json) (literal : string) : bool :=
  match v with JStr s => String.eqb s literal | _ => false end.

(** [d.get(key, default)]; only a dict has the attribute [get]. *)
Definition dict_get (d : json) (key : string) (default : json) : outcome json :=
  match d with
  | JObj fields =>
      Return (match assoc key fields with Some v => v | None => default end)
  | _ => Raise AttributeError
  end.

(** [d[key]] with a string key. *)
Definition getitem (d : json) (key : string) : outcome json :=
  match d with
  | JObj fields =>
      match assoc key fields with Some v => Return v | None => Raise KeyError end
  | _ => Raise TypeError
  end.

(** [v[0]] *)
Definition getitem0 (v : json) : outcome json :=
  match v with
  | JArr (x :: _) => Return x
  | JArr [] => Raise IndexError
  | JStr (String c _) => Return (JStr (String c EmptyString))
  | JStr EmptyString => Raise IndexError
  | JObj _ => Raise KeyError
  | _ => Raise TypeError
  end.

Fixpoint chars (s : string) : list json :=
  match s with
  | EmptyString => []
  | String c s' => JStr (String c EmptyString) :: chars s'
  end.

(** The elements a [for] loop (or [list.extend]) sees: the items of a list,
    the characters of a string, the keys of a dict. *)
Definition iterate (v : json) : outcome (list json) :=
  match v with
  | JArr l => Return l
  | JStr s => Return (chars s)
  | JObj fields => Return (map (fun kv => JStr (fst kv)) fields)
  | _ => Raise TypeError
  end.

(** [needle in hay] where [needle] is a string. *)
Definition str_in (needle : string) (hay : json) : outcome bool :=
  match hay with
  | JStr s => Return (str_contains needle s)
  | JArr l => Return (existsb (fun x => eq_str x needle) l)
  | JObj fields => Return (existsb (fun kv => String.eqb (fst kv) needle) fields)
  | _ => Raise TypeError
  end.

(** [n < v] for an integer [n]; [True] and [False] count as 1 and 0. *)
Definition int_lt (n : Z) (v : json) : outcome bool :=
  match v with
  | JNum m => Return (n <? m)
  | JBool b => Return (n <? (if b then 1 else 0))
  | _ => Raise TypeError
  end.

(** ** The outside world *)

Inductive http_method : Type := GET | POST | DELETE.

Record request : Type := mkRequest {
  req_method : http_method;
  req_url : string;
  req_params : list (string * string);
  req_json : option json;
  req_headers : list (string * string)
}.

(** What the scripts read off a [requests.Response]: [ok] and
    [raise_for_status()] come from the same flag, [json()] may raise. *)
Record response : Type := mkResponse {
  ok : bool;
  status_code : Z;
  content : string;
  json_body : outcome json
}.

(** A pending f-string: literal text and the values formatted into it. *)
Inductive fragment : Type :=
| Lit (text : string)
| Fmt (value : json)
| FmtBytes (bytes : string).

Definition line : Type := list fragment.

Record sys (W : Type) : Type := mkSys {
  stdout : list line;
  net : W;
  wire : list (request * outcome response);
  files : gmap string string
}.

Arguments mkSys {W} _ _ _ _.
Arguments stdout {W} _.
Arguments net {W} _.
Arguments wire {W} _.
Arguments files {W} _.

(** ** The monad of the scripts: state passing with exceptions *)

Definition M (W A : Type) : Type := sys W -> outcome A * sys W.

Definition ret {W A} (a : A) : M W A := fun s => (Return a, s).

Definition raise {W A} (e : exn) : M W A := fun s => (Raise e, s).

Definition bind {W A B} (m : M W A) (k : A -> M W B) : M W B :=
  fun s =>
    match m s with
    | (Return a, s') => k a s'
    | (Raise e, s') => (Raise e, s')
    end.

Definition lift {W A} (o : outcome A) : M W A := fun s => (o, s).

(** [try: m except <catches>: handler] *)
Definition try_except {W A} (m : M W A) (catches : exn -> bool)
  (handler : exn -> M W A) : M W A :=
  fun s =>
    match m s with
    | (Raise e, s') => if catches e then handler e s' else (Raise e, s')
    | r => r
    end.

Definition print {W} (l : line) : M W unit :=
  fun s => (Return tt, mkSys (stdout s ++ [l]) (net s) (wire s) (files s)).

Notation "'let*' x ':=' m 'in' k" := (bind m (fun x => k))
  (at level 10, x name, m at level 100, k at level 200).
Notation "m ';;' k" := (bind m (fun _ => k))
  (at level 100, k at level 200, right associativity).

(** [any(p(x) for x in xs)] stops at the first [True] and at the first raise. *)
Fixpoint any {W} (p : json -> M W bool) (xs : list json) : M W bool :=
  match xs with
  | [] => ret false
  | x :: rest =>
      let* b := p x in
      if b then ret true else any p rest
  end.

(** [[x for x in xs if p(x)]] *)
Fixpoint comprehension_if {W} (p : json -> M W bool) (xs : list json)
  : M W (list json) :=
  match xs with
  | [] => ret []
  | x :: rest =>
      let* b := p x in
      let* tail := comprehension_if p rest in
      ret (if b then x :: tail else tail)
  end.

(** [[f(x) for x in xs]] *)
Fixpoint comprehension {W} (f : json -> M W json) (xs : list json)
  : M W (list json) :=
  match xs with
  | [] => ret []
  | x :: rest =>
      let* y := f x in
      let* tail := comprehension f rest in
      ret (y :: tail)
  end.

(** ** get_collections_with_opendap.py *)

Record env_params : Type := mkEnvParams {
  edl_root : string;
  graphql : string;
  hyrax_substring : string
}.

Definition environment_parameters : list (string * env_params) :=
  [ ("prod", mkEnvParams "https://urs.earthdata.nasa.gov"
               "https://graphql.earthdata.nasa.gov/api"
               "opendap.earthdata.nasa.gov");
    ("uat", mkEnvParams "https://uat.urs.earthdata.nasa.gov"
              "https://graphql.uat.earthdata.nasa.gov/api"
              "opendap.uat.earthdata.nasa.gov");
    ("sit", mkEnvParams "https://sit.urs.earthdata.nasa.gov"
              "https://graphql.sit.earthdata.nasa.gov/api"
              "opendap.sit.earthdata.nasa.gov") ].

Fixpoint table_get {A} (key : string) (table : list (string * A)) : option A :=
  match table with
  | [] => None
  | (k, v) :: rest => if String.eqb k key then Some v else table_get key rest
  end.

(** [environment_parameters.get(environment).get(field)]: an unknown
    environment gives [None], which has no [get]. *)
Definition environment_parameter {A} (field : env_params -> A)
  (environment : string) : outcome A :=
  match table_get environment environment_parameters with
  | Some params => Return (field params)
  | None => Raise AttributeError
  end.

Section Scripts.

Context {W : Type}.

(** The [try] block of [get_collection_related_urls]. *)
Definition inspect_granules (collection : json) : M W json :=
  let* granules := lift (dict_get collection "granules" (JObj [])) in
  let granules := if is_None granules then JObj [] else granules in
  lift (dict_get granules "items" JNull).

Definition get_collection_related_urls (collection : json) : M W json :=
  let* granules :=
    try_except (inspect_granules collection) exn_is_AttributeError
      (fun e =>
         let* short_name := lift (getitem collection "shortName") in
         print [Lit "Failed: "; Fmt short_name];;
         raise e) in
  let granules :=
    if eq_empty_list granules || is_None granules then JArr [JObj []]
    else granules in
  let* first := lift (getitem0 granules) in
  lift (dict_get first "relatedUrls" (JArr [])).

(** The condition of the generator in [collection_has_opendap_url]. *)
Definition is_opendap_url (hyrax : string) (related_url : json) : M W bool :=
  let* type := lift (dict_get related_url "type" JNull) in
  if eq_str type "USE SERVICE API" then
    let* subtype := lift (dict_get related_url "subtype" JNull) in
    if eq_str subtype "OPENDAP DATA" then
      let* url := lift (dict_get related_url "url" (JStr "")) in
      lift (str_in hyrax url)
    else ret false
  else ret false.

Definition collection_has_opendap_url (collection : json) (environment : string)
  : M W bool :=
  let* hyrax := lift (environment_parameter hyrax_substring environment) in
  let* related_urls := get_collection_related_urls collection in
  let* related_urls := lift (iterate related_urls) in
  any (is_opendap_url hyrax) related_urls.

Definition filter_for_opendap_granules (collections : list json)
  (environment : string) : M W (list json) :=
  comprehension_if (fun collection =>
                      collection_has_opendap_url collection environment)
                   collections.

Definition get_formatted_collection (collection : json) : M W json :=
  let* short_name := lift (getitem collection "shortName") in
  let* version := lift (getitem collection "version") in
  let* concept_id := lift (getitem collection "conceptId") in
  ret (JObj [("short_name", short_name); ("version", version);
             ("concept_id", concept_id)]).

End Scripts.

(** ** HTTP *)

Section Network.

Context {W : Type}.

(** The network: how the outside answers a request in a given state of the
    world; an answer is a response or a transport exception. *)
Variable send : W -> request -> outcome response * W.

(** One HTTP exchange, recorded on the wire. *)
Definition http (r : request) : M W response :=
  fun s =>
    let '(answer, w) := send (net s) r in
    (answer, mkSys (stdout s) w (wire s ++ [(r, answer)]) (files s)).

(** [response.raise_for_status()] *)
Definition raise_for_status (r : response) : M W unit :=
  if ok r then ret tt else raise HTTPError.

(** *** query_cmr_graph_for_collections *)

Definition query_string : string :=
"
    query Collections($collectionParams: CollectionsInput, $granulesParams: GranulesInput) {
      collections(params: $collectionParams) {
        count
        cursor
        items {
          shortName
          version
          conceptId
          granules(params: $granulesParams) {
            items {
              relatedUrls
            }
          }
        }
      }
    }
    ".

Definition query_parameters : json :=
  JObj [("collectionParams", JObj [("cloudHosted", JBool true);
                                   ("limit", JNum 100)]);
        ("granulesParams", JObj [("limit", JNum 1)])].

Definition initial_request_json : json :=
  JObj [("operationName", JStr "Collections");
        ("query", JStr query_string);
        ("variables", query_parameters)].

(** [d[key] = v] *)
Definition setitem (d : json) (key : string) (v : json) : outcome json :=
  match d with
  | JObj fields => Return (JObj (assoc_set key v fields))
  | _ => Raise TypeError
  end.

(** [request_json['variables']['collectionParams']['cursor'] = cursor] *)
Definition set_cursor (request_json cursor : json) : M W json :=
  let* variables := lift (getitem request_json "variables") in
  let* collection_params := lift (getitem variables "collectionParams") in
  let* collection_params := lift (setitem collection_params "cursor" cursor) in
  let* variables :=
    lift (setitem variables "collectionParams" collection_params) in
  lift (setitem request_json "variables" variables).

(** The local variables of the pagination loop. *)
Record fetch_state : Type := mkFetch {
  request_json : json;
  collection_count : json;
  all_collections : list json;
  error_count : Z
}.

Definition max_errors : Z := 3.

(** [error_count < max_errors and len(all_collections) < collection_count] *)
Definition loop_condition (st : fetch_state) : M W bool :=
  if error_count st <? max_errors then
    lift (int_lt (Z.of_nat (length (all_collections st))) (collection_count st))
  else ret false.

(** [json_data['data']['collections'][field]] *)
Definition collections_field (json_data : json) (field : string) : outcome json :=
  match getitem json_data "data" with
  | Return data =>
      match getitem data "collections" with
      | Return collections => getitem collections field
      | Raise e => Raise e
      end
  | Raise e => Raise e
  end.

Definition graph_request (url token : string) (body : json) : request :=
  mkRequest POST url [] (Some body) [("Authorization", "Bearer " +:+ token)].

Definition loop_body (graphql_rooturl edl_bearer_token : string)
  (st : fetch_state) : M W fetch_state :=
  let* cmr_graph_response :=
    http (graph_request graphql_rooturl edl_bearer_token (request_json st)) in
  if ok cmr_graph_response then
    let* json_data := lift (json_body cmr_graph_response) in
    let* count := lift (collections_field json_data "count") in
    let* items := lift (collections_field json_data "items") in
    let* items := lift (iterate items) in
    let all := all_collections st ++ items in
    let* cursor := lift (collections_field json_data "cursor") in
    let* request_json := set_cursor (request_json st) cursor in
    print [Lit "Retrieved "; Fmt (JNum (Z.of_nat (length all))); Lit "/";
           Fmt count; Lit " collections"];;
    ret (mkFetch request_json count all (error_count st))
  else
    print [Lit "response status code: f";
           Fmt (JNum (status_code cmr_graph_response))];;
    print [Lit "response : "; FmtBytes (content cmr_graph_response)];;
    ret (mkFetch (request_json st) (collection_count st) (all_collections st)
                 (error_count st + 1)).

(** The [while] loop; [None] when [fuel] iterations were not enough. *)
Fixpoint paginate (fuel : nat) (graphql_rooturl edl_bearer_token : string)
  (st : fetch_state) (s : sys W) : option (outcome fetch_state * sys W) :=
  match fuel with
  | O => None
  | S fuel' =>
      match loop_condition st s with
      | (Return true, s1) =>
          match loop_body graphql_rooturl edl_bearer_token st s1 with
          | (Return st', s2) =>
              paginate fuel' graphql_rooturl edl_bearer_token st' s2
          | (Raise e, s2) => Some (Raise e, s2)
          end
      | (Return false, s1) => Some (Return st, s1)
      | (Raise e, s1) => Some (Raise e, s1)
      end
  end.

Definition initial_fetch_state : fetch_state :=
  mkFetch initial_request_json (JNum 1) [] 0.

Definition query_cmr_graph_for_collections (fuel : nat)
  (environment edl_bearer_token : string) (s : sys W)
  : option (outcome (list json) * sys W) :=
  match environment_parameter graphql environment with
  | Raise e => Some (Raise e, s)
  | Return graphql_rooturl =>
      match paginate fuel graphql_rooturl edl_bearer_token
                     initial_fetch_state s with
      | Some (Return st, s') => Some (Return (all_collections st), s')
      | Some (Raise e, s') => Some (Raise e, s')
      | None => None
      end
  end.

End Network.

(** ** manage_associations.py and mirror_associations.py *)

(** [v.lower()]; only a string has the attribute [lower]. *)
Definition str_lower (v : json) : outcome string :=
  match v with
  | JStr s => Return (lower s)
  | _ => Raise AttributeError
  end.

Definition CMR_URLS : list (string * string) :=
  [("uat", "https://cmr.uat.earthdata.nasa.gov");
   ("prod", "https://cmr.earthdata.nasa.gov")].

Definition OPENDAP_CONCEPT_IDS : list (string * string) :=
  [("uat", "S1262134530-EEDTEST");
   ("prod", "S2874702816-XYZ_PROV")].

(** A [requests.Session] is the headers it adds to every request. *)
Definition session : Type := list (string * string).

Definition get_authenticated_session (launchpad_token : string) : session :=
  [("Authorization", launchpad_token)].

Definition associations_url (base_cmr_url umm_s_concept_id : string) : string :=
  base_cmr_url +:+ "/search/services/" +:+ umm_s_concept_id +:+ "/associations".

(** [[{'concept_id': id} for id in collection_concept_ids]] *)
Definition json_payload (collection_concept_ids : list json) : json :=
  JArr (map (fun collection_concept_id =>
               JObj [("concept_id", collection_concept_id)])
            collection_concept_ids).

Section Associations.

Context {W : Type}.
Variable send : W -> request -> outcome response * W.

(** [json.load]: the text of a file to a value, or an exception. *)
Variable loads : string -> outcome json.

(** [json.dump(_, _, indent=2)]: a value to the text of a file. *)
Variable dumps : json -> string.

(** [with open(path, 'r') as f: json.load(f)] *)
Definition load_file (path : string) : M W json :=
  fun s =>
    match files s !! path with
    | Some text => (loads text, s)
    | None => (Raise FileNotFoundError, s)
    end.

(** [with open(path, 'w') as f: json.dump(value, f, indent=2)] *)
Definition dump_file (path : string) (value : json) : M W unit :=
  fun s =>
    (Return tt,
     mkSys (stdout s) (net s) (wire s) (<[path := dumps value]> (files s))).

Definition save_opendap_collections (opendap_collections : list json)
  (environment : string) : M W unit :=
  let output_filename := "opendap_collections_" +:+ environment +:+ ".json" in
  let* formatted_output :=
    comprehension get_formatted_collection opendap_collections in
  dump_file output_filename (JArr formatted_output).

Definition save_all_collections (all_cloud_collections : list json)
  (environment : string) : M W unit :=
  let file_path := "all_collections_" +:+ environment +:+ ".json" in
  dump_file file_path (JArr all_cloud_collections);;
  print [Lit "Saved to "; Fmt (JStr file_path)].

Definition get_all_collections_from_file (file_path : string) : M W json :=
  load_file file_path.

Definition read_all_collections (environment : string) : M W json :=
  let json_file_name := "opendap_collections_" +:+ environment +:+ ".json" in
  load_file json_file_name.

(** The condition and the element of the comprehension in
    [get_provider_collections]. *)
Definition in_provider (collection_provider_lower : string) (collection : json)
  : M W bool :=
  let* concept_id := lift (dict_get collection "concept_id" (JStr "")) in
  let* concept_id_lower := lift (str_lower concept_id) in
  ret (endswith concept_id_lower collection_provider_lower).

Fixpoint provider_comprehension (collection_provider_lower : string)
  (collections : list json) : M W (list json) :=
  match collections with
  | [] => ret []
  | collection :: rest =>
      let* keep := in_provider collection_provider_lower collection in
      if keep then
        let* concept_id := lift (getitem collection "concept_id") in
        let* tail := provider_comprehension collection_provider_lower rest in
        ret (concept_id :: tail)
      else provider_comprehension collection_provider_lower rest
  end.

Definition get_provider_collections (collection_provider environment : string)
  : M W (list json) :=
  let collection_provider_lower := lower collection_provider in
  let* all_collections := read_all_collections environment in
  let* all_collections := lift (iterate all_collections) in
  provider_comprehension collection_provider_lower all_collections.

(** The condition of the comprehension in [get_associated_collections]. *)
Definition associated_in_provider (collection_provider_lower : string)
  (collection : json) : M W bool :=
  let* collection_lower := lift (str_lower collection) in
  ret (endswith collection_lower collection_provider_lower).

Definition get_associated_collections (authenticated_session : session)
  (base_cmr_url umm_s_concept_id collection_provider : string)
  : M W (list json) :=
  let collection_provider_lower := lower collection_provider in
  let* search_response :=
    http send (mkRequest GET (base_cmr_url +:+ "/search/services.umm_json")
                 [("concept_id", umm_s_concept_id)] None
                 authenticated_session) in
  raise_for_status search_response;;
  let* service_json :=
    try_except
      (let* body := lift (json_body search_response) in
       let* items := lift (dict_get body "items" JNull) in
       lift (getitem0 items))
      exn_is_IndexError
      (* raising a [str] is itself a [TypeError] *)
      (fun _ => raise TypeError) in
  let* meta := lift (dict_get service_json "meta" JNull) in
  let* associations := lift (dict_get meta "associations" (JObj [])) in
  let* collections := lift (dict_get associations "collections" (JArr [])) in
  let* collections := lift (iterate collections) in
  comprehension_if (associated_in_provider collection_provider_lower)
                   collections.

Definition create_associations (authenticated_session : session)
  (base_cmr_url umm_s_concept_id : string) (collection_concept_ids : list json)
  : M W unit :=
  let* create_response :=
    http send (mkRequest POST (associations_url base_cmr_url umm_s_concept_id)
                 [] (Some (json_payload collection_concept_ids))
                 authenticated_session) in
  raise_for_status create_response.

Definition remove_associations (authenticated_session : session)
  (base_cmr_url umm_s_concept_id : string) (collection_concept_ids : list json)
  : M W unit :=
  let* delete_response :=
    http send (mkRequest DELETE (associations_url base_cmr_url umm_s_concept_id)
                 [] (Some (json_payload collection_concept_ids))
                 authenticated_session) in
  raise_for_status delete_response.

Definition invalid_environment (environment : string) : exn :=
  Exception_ ("Invalid environment: " +:+ environment).

Definition make_opendap_associations (launchpad_token : string)
  (collection_provider environment : string) : M W unit :=
  let authenticated_session := get_authenticated_session launchpad_token in
  match table_get environment CMR_URLS,
        table_get environment OPENDAP_CONCEPT_IDS with
  | Some base_cmr_url, Some opendap_concept_id =>
      let* provider_collections :=
        get_provider_collections collection_provider environment in
      print [Lit "Found ";
             Fmt (JNum (Z.of_nat (length provider_collections)));
             Lit " for "; Fmt (JStr collection_provider)];;
      create_associations authenticated_session base_cmr_url
        opendap_concept_id provider_collections;;
      print [Lit "Made associations"]
  | _, _ => raise (invalid_environment environment)
  end.

Definition mirror_service_associations (launchpad_token : string)
  (service_with_associations collection_provider environment : string)
  (remove_old_associations : bool) : M W unit :=
  let authenticated_session := get_authenticated_session launchpad_token in
  match table_get environment CMR_URLS,
        table_get environment OPENDAP_CONCEPT_IDS with
  | Some base_cmr_url, Some opendap_concept_id =>
      let* associated_collections :=
        get_associated_collections authenticated_session base_cmr_url
          service_with_associations collection_provider in
      create_associations authenticated_session base_cmr_url
        opendap_concept_id associated_collections;;
      if remove_old_associations then
        remove_associations authenticated_session base_cmr_url
          service_with_associations associated_collections
      else ret tt
  | _, _ => raise (invalid_environment environment)
  end.

End Associations.

(** ** The rest of get_collections_with_opendap.py *)

(** [len(v)] *)
Definition py_len (v : json) : outcome Z :=
  match v with
  | JArr items => Return (Z.of_nat (length items))
  | JObj fields => Return (Z.of_nat (length fields))
  | JStr s => Return (Z.of_nat (String.length s))
  | _ => Raise TypeError
  end.

(** [v.endswith(suffix)]; only a string has the attribute [endswith]. *)
Definition str_endswith (v : json) (suffix : string) : outcome bool :=
  match v with
  | JStr s => Return (endswith s suffix)
  | _ => Raise AttributeError
  end.

(** [c.isspace()] on ASCII: tab to carriage return, the four separators and
    the space. *)
Definition isspace (c : ascii) : bool :=
  let n := nat_of_ascii c in
  ((9 <=? n)%nat && (n <=? 13)%nat) || ((28 <=? n)%nat && (n <=? 32)%nat).

(** [s.lstrip()] *)
Fixpoint lstrip (s : string) : string :=
  match s with
  | String c s' => if isspace c then lstrip s' else s
  | EmptyString => EmptyString
  end.

(** [s.rstrip()] *)
Fixpoint rstrip (s : string) : string :=
  match s with
  | EmptyString => EmptyString
  | String c s' =>
      match rstrip s' with
      | EmptyString => if isspace c then EmptyString else String c EmptyString
      | kept => String c kept
      end
  end.

(** [s.strip()] *)
Definition strip (s : string) : string := rstrip (lstrip s).

Definition is_newline (c : ascii) : bool := (nat_of_ascii c =? 10)%nat.

Definition is_return (c : ascii) : bool := (nat_of_ascii c =? 13)%nat.

(** Reading in text mode: a carriage return, with or without a line feed
    after it, comes out as one line feed. *)
Fixpoint universal_newlines (s : string) : string :=
  match s with
  | EmptyString => EmptyString
  | String c s' =>
      if is_return c then
        match s' with
        | String d s'' =>
            if is_newline d then String d (universal_newlines s'')
            else String (ascii_of_nat 10) (universal_newlines s')
        | EmptyString => String (ascii_of_nat 10) EmptyString
        end
      else String c (universal_newlines s')
  end.

(** [for line in file]: the lines of a text, each with its line feed. *)
Fixpoint split_lines (s : string) : list string :=
  match s with
  | EmptyString => []
  | String c s' =>
      if is_newline c then String c EmptyString :: split_lines s'
      else
        match split_lines s' with
        | [] => [String c EmptyString]
        | first :: others => String c first :: others
        end
  end.

(** [file.write(element + "\n")] for each element, onto [written]; what has
    been written stays in the file when an element is not a string. *)
Fixpoint write_elements (written : string) (names : list json)
  : string * outcome unit :=
  match names with
  | [] => (written, Return tt)
  | JStr element :: rest =>
      write_elements (written +:+ element +:+ String (ascii_of_nat 10) "") rest
  | _ :: _ => (written, Raise TypeError)
  end.

(** Whether a value can be an element of a [set]. *)
Definition hashable (v : json) : bool :=
  match v with
  | JArr _ | JObj _ => false
  | _ => true
  end.

(** [a == b] for two hashable values; [True] and [False] equal 1 and 0. *)
Definition hashable_eq (a b : json) : bool :=
  match a, b with
  | JNull, JNull => true
  | JStr s, JStr t => String.eqb s t
  | JNum n, JNum m => n =? m
  | JBool x, JBool y => Bool.eqb x y
  | JBool x, JNum m | JNum m, JBool x => m =? (if x then 1 else 0)
  | _, _ => false
  end.

(** [set(elements)]: the elements, when all of them are hashable. *)
Definition make_set (elements : list json) : outcome (list json) :=
  if forallb hashable elements then Return elements else Raise TypeError.

(** [element not in unique_elements] *)
Definition not_in_set (unique_elements : list json) (element : json)
  : outcome bool :=
  if hashable element
  then Return (negb (existsb (hashable_eq element) unique_elements))
  else Raise TypeError.

(** A computation that may also run out of fuel. *)
Definition MF (W A : Type) : Type := sys W -> option (outcome A * sys W).

Definition total {W A} (m : M W A) : MF W A := fun s => Some (m s).

Definition bindF {W A B} (m : MF W A) (k : A -> MF W B) : MF W B :=
  fun s =>
    match m s with
    | Some (Return a, s') => k a s'
    | Some (Raise e, s') => Some (Raise e, s')
    | None => None
    end.

Section MoreScripts.

Context {W : Type}.
Variable send : W -> request -> outcome response * W.
Variable loads : string -> outcome json.
Variable dumps : json -> string.

(** [str(v)], as an f-string formats a value into a header. *)
Variable py_str : json -> string.

Definition token_headers : list (string * string) :=
  [("Content-type", "application/json")].

Definition get_edl_token (environment : string) : M W json :=
  let* edl_root := lift (environment_parameter edl_root environment) in
  let* existing_tokens_response :=
    http send (mkRequest GET (edl_root +:+ "/api/users/tokens") [] None
                 token_headers) in
  raise_for_status existing_tokens_response;;
  let* existing_tokens_json := lift (json_body existing_tokens_response) in
  let* count := lift (py_len existing_tokens_json) in
  if count =? 0 then
    let* new_token_response :=
      http send (mkRequest POST (edl_root +:+ "/api/users/token") [] None
                   token_headers) in
    raise_for_status new_token_response;;
    let* new_token_json := lift (json_body new_token_response) in
    lift (getitem new_token_json "access_token")
  else
    let* first := lift (getitem0 existing_tokens_json) in
    lift (getitem first "access_token").

(** The part of [get_collections_with_opendap_urls] after the collections
    are at hand. *)
Definition filter_and_save (all_cloud_collections : json)
  (environment : string) : M W unit :=
  let* count := lift (py_len all_cloud_collections) in
  print [Lit "Retrieved "; Fmt (JNum count);
         Lit " cloud-hosted collections."];;
  let* collections := lift (iterate all_cloud_collections) in
  let* opendap_collections :=
    filter_for_opendap_granules collections environment in
  print [Fmt (JNum (Z.of_nat (length opendap_collections)));
         Lit " cloud-hosted collections have OPeNDAP RelatedUrl"];;
  save_opendap_collections dumps opendap_collections environment.

Definition get_collections_with_opendap_urls (fuel : nat)
  (environment : string) (file_path : option string) : MF W unit :=
  let environment := lower environment in
  if existsb (String.eqb environment) ["sit"; "uat"; "prod"] then
    bindF (total (let* edl_bearer_token := get_edl_token environment in
                  print [Lit "Retrieved EDL bearer token"];;
                  ret edl_bearer_token))
      (fun edl_bearer_token =>
         bindF
           (match file_path with
            | None =>
                bindF (query_cmr_graph_for_collections send fuel environment
                         (py_str edl_bearer_token))
                  (fun all_cloud_collections =>
                     total (save_all_collections dumps all_cloud_collections
                              environment;;
                            ret (JArr all_cloud_collections)))
            | Some path => total (get_all_collections_from_file loads path)
            end)
           (fun all_cloud_collections =>
              total (filter_and_save all_cloud_collections environment)))
  else total (raise ValueError).

(** The loop of [get_short_names_for_pocloud]. *)
Fixpoint get_short_names_for_pocloud (data : list json) : M W (list json) :=
  match data with
  | [] => ret []
  | item :: rest =>
      let* concept_id := lift (getitem item "concept_id") in
      let* keep := lift (str_endswith concept_id "POCLOUD") in
      if keep then
        let* short_name := lift (getitem item "short_name") in
        let* tail := get_short_names_for_pocloud rest in
        ret (short_name :: tail)
      else get_short_names_for_pocloud rest
  end.

Definition file_not_found (filename : string) : line :=
  [Lit "Error: File "; Fmt (JStr filename); Lit " not found."].

(** Reading the local [data] that no assignment has bound raises
    [UnboundLocalError], which has no constructor of its own in [exn]. *)
Definition unbound_local (name : string) : exn :=
  Exception_ ("UnboundLocalError: " +:+ name).

Definition read_json_list (filename : string) : M W json :=
  fun s =>
    match files s !! filename with
    | Some text => (loads text, s)
    | None =>
        (print (file_not_found filename);; raise (unbound_local "data")) s
    end.

Definition read_text_file_to_list (filename : string) : M W (list string) :=
  fun s =>
    match files s !! filename with
    | Some text => (Return (map strip (split_lines (universal_newlines text))), s)
    | None => (print (file_not_found filename);; ret []) s
    end.

Definition write_list (filename : string) (names : list json) : M W unit :=
  fun s =>
    let '(written, result) := write_elements EmptyString names in
    (result,
     mkSys (stdout s) (net s) (wire s) (<[filename := written]> (files s))).

(** [print(element)] for each element. *)
Fixpoint print_each (elements : list json) : M W unit :=
  match elements with
  | [] => ret tt
  | element :: rest => print [Fmt element];; print_each rest
  end.

(** [[element for element in list2 if element not in unique_elements]] *)
Fixpoint elements_not_in (unique_elements list2 : list json)
  : M W (list json) :=
  match list2 with
  | [] => ret []
  | element :: rest =>
      let* keep := lift (not_in_set unique_elements element) in
      let* tail := elements_not_in unique_elements rest in
      ret (if keep then element :: tail else tail)
  end.

Definition find_elements_in_second_list (list1 list2 : list json) : M W unit :=
  let* unique_elements := lift (make_set list1) in
  let* elements_not_in_first := elements_not_in unique_elements list2 in
  match elements_not_in_first with
  | _ :: _ =>
      print [Lit "Elements in the second list not present in the first:"];;
      print_each elements_not_in_first
  | [] =>
      print [Lit "All elements in the second list are present in the first list."]
  end.

End MoreScripts.

(** ** JSON text

    What [json.dump(_, _, indent=2)] writes for a value and a parser for it,
    the instance of [dumps] and [loads] under which the snapshots are
    evaluated. *)

Module JsonText.

Definition quote : ascii := ascii_of_nat 34.
Definition backslash : ascii := ascii_of_nat 92.
Definition newline : ascii := ascii_of_nat 10.

Definition hex_digit (n : nat) : ascii :=
  nth n ["0"; "1"; "2"; "3"; "4"; "5"; "6"; "7"; "8"; "9";
         "a"; "b"; "c"; "d"; "e"; "f"]%char "0"%char.

Definition hex_value (c : ascii) : option nat :=
  let n := nat_of_ascii c in
  if (48 <=? n)%nat && (n <=? 57)%nat then Some (n - 48)%nat
  else if (97 <=? n)%nat && (n <=? 102)%nat then Some (n - 87)%nat
  else if (65 <=? n)%nat && (n <=? 70)%nat then Some (n - 55)%nat
  else None.

(** What [json.dumps] writes for one character of a string. *)
Definition escape_char (c : ascii) : string :=
  let n := nat_of_ascii c in
  if (n =? 34)%nat then String backslash (String quote "")
  else if (n =? 92)%nat then String backslash (String backslash "")
  else if (n =? 10)%nat then String backslash "n"
  else if (n =? 13)%nat then String backslash "r"
  else if (n =? 9)%nat then String backslash "t"
  else if (n =? 8)%nat then String backslash "b"
  else if (n =? 12)%nat then String backslash "f"
  else if (32 <=? n)%nat && (n <=? 126)%nat then String c ""
  else String backslash
         (String "u" (String "0" (String "0"
            (String (hex_digit (n / 16)) (String (hex_digit (n mod 16)) ""))))).

Fixpoint escape (s : string) : string :=
  match s with
  | EmptyString => EmptyString
  | String c s' => escape_char c +:+ escape s'
  end.

Definition print_string (s : string) : string :=
  String quote (escape s +:+ String quote "").

Definition print_nat (n : N) : string := NilEmpty.string_of_uint (N.to_uint n).

Definition print_int (z : Z) : string :=
  if z <? 0 then String "-" (print_nat (Z.abs_N z)) else print_nat (Z.to_N z).

Fixpoint spaces (n : nat) : string :=
  match n with
  | O => EmptyString
  | S n' => String " " (spaces n')
  end.

(** A line break and the indentation of nesting level [level]. *)
Definition break (level : nat) : string := String newline (spaces (2 * level)).

(** The items of a list after the first one, then the closing bracket. *)
Definition print_more_items (print_item : json -> string) (level : nat)
  : list json -> string :=
  fix more (ys : list json) : string :=
    match ys with
    | [] => break level +:+ "]"
    | y :: ys' => "," +:+ break (S level) +:+ print_item y +:+ more ys'
    end.

Definition print_more_members (print_item : json -> string) (level : nat)
  : list (string * json) -> string :=
  fix more (ys : list (string * json)) : string :=
    match ys with
    | [] => break level +:+ "}"
    | kv :: ys' =>
        "," +:+ break (S level)
        +:+ print_string (fst kv) +:+ ": " +:+ print_item (snd kv) +:+ more ys'
    end.

(** [json.dumps(value, indent=2)], at nesting level [level]. *)
Fixpoint print (level : nat) (v : json) : string :=
  match v with
  | JNull => "null"
  | JBool true => "true"
  | JBool false => "false"
  | JNum z => print_int z
  | JStr s => print_string s
  | JArr [] => "[]"
  | JArr (x :: xs) =>
      "[" +:+ break (S level) +:+ print (S level) x
      +:+ print_more_items (print (S level)) level xs
  | JObj [] => "{}"
  | JObj (kv :: xs) =>
      "{" +:+ break (S level)
      +:+ print_string (fst kv) +:+ ": " +:+ print (S level) (snd kv)
      +:+ print_more_members (print (S level)) level xs
  end.

Definition dumps (v : json) : string := print 0 v.

Definition is_space (c : ascii) : bool :=
  let n := nat_of_ascii c in
  (n =? 32)%nat || (n =? 10)%nat || (n =? 13)%nat || (n =? 9)%nat.

Fixpoint skip_ws (s : string) : string :=
  match s with
  | String c s' => if is_space c then skip_ws s' else s
  | EmptyString => EmptyString
  end.

Definition is_digit (c : ascii) : bool :=
  let n := nat_of_ascii c in (48 <=? n)%nat && (n <=? 57)%nat.

Fixpoint span_digits (s : string) : string * string :=
  match s with
  | String c s' =>
      if is_digit c then
        let '(digits, rest) := span_digits s' in (String c digits, rest)
      else (EmptyString, s)
  | EmptyString => (EmptyString, EmptyString)
  end.

Definition parse_nat (s : string) : option (N * string) :=
  match span_digits s with
  | (EmptyString, _) => None
  | (digits, rest) =>
      match NilEmpty.uint_of_string digits with
      | Some u => Some (N.of_uint u, rest)
      | None => None
      end
  end.

Definition parse_int (s : string) : option (Z * string) :=
  match s with
  | String "-" s' =>
      match parse_nat s' with
      | Some (n, rest) => Some (- Z.of_N n, rest)
      | None => None
      end
  | _ =>
      match parse_nat s with
      | Some (n, rest) => Some (Z.of_N n, rest)
      | None => None
      end
  end.

Definition unescaped (c : ascii) : option ascii :=
  let n := nat_of_ascii c in
  if (n =? 34)%nat then Some quote
  else if (n =? 92)%nat then Some backslash
  else if (n =? 47)%nat then Some "/"%char
  else if (n =? 110)%nat then Some newline
  else if (n =? 114)%nat then Some (ascii_of_nat 13)
  else if (n =? 116)%nat then Some (ascii_of_nat 9)
  else if (n =? 98)%nat then Some (ascii_of_nat 8)
  else if (n =? 102)%nat then Some (ascii_of_nat 12)
  else None.

Definition unicode (h1 h2 h3 h4 : ascii) : option ascii :=
  match hex_value h1, hex_value h2, hex_value h3, hex_value h4 with
  | Some 0%nat, Some 0%nat, Some a, Some b => Some (ascii_of_nat (16 * a + b))
  | _, _, _, _ => None
  end.

(** The characters of a string up to its closing quote. *)
Fixpoint parse_chars (s : string) : option (string * string) :=
  match s with
  | EmptyString => None
  | String c s' =>
      if (nat_of_ascii c =? 34)%nat then Some (EmptyString, s')
      else if (nat_of_ascii c =? 92)%nat then
        match s' with
        | String "u" (String h1 (String h2 (String h3 (String h4 s'')))) =>
            match unicode h1 h2 h3 h4, parse_chars s'' with
            | Some d, Some (text, rest) => Some (String d text, rest)
            | _, _ => None
            end
        | String e s'' =>
            match unescaped e, parse_chars s'' with
            | Some d, Some (text, rest) => Some (String d text, rest)
            | _, _ => None
            end
        | EmptyString => None
        end
      else
        match parse_chars s' with
        | Some (text, rest) => Some (String c text, rest)
        | None => None
        end
  end.

Definition expect (word : string) (v : json) (s : string)
  : option (json * string) :=
  if startswith s word
  then Some (v, str_drop (String.length word) s) else None.

(** The text after the character [c], when that is what comes next. *)
Definition closes (c : nat) (s : string) : option string :=
  match skip_ws s with
  | String d rest => if (nat_of_ascii d =? c)%nat then Some rest else None
  | EmptyString => None
  end.

Fixpoint parse_items (parse : string -> option (json * string)) (n : nat)
  (s : string) : option (list json * string) :=
  match n with
  | O => None
  | S n' =>
      match parse s with
      | Some (v, rest) =>
          match skip_ws rest with
          | String "," rest' =>
              match parse_items parse n' rest' with
              | Some (vs, rest'') => Some (v :: vs, rest'')
              | None => None
              end
          | String "]" rest' => Some ([v], rest')
          | _ => None
          end
      | None => None
      end
  end.

Fixpoint parse_members (parse : string -> option (json * string)) (n : nat)
  (s : string) : option (list (string * json) * string) :=
  match n with
  | O => None
  | S n' =>
      match skip_ws s with
      | String q after_quote =>
          if (nat_of_ascii q =? 34)%nat then
            match parse_chars after_quote with
            | Some (key, after_key) =>
                match skip_ws after_key with
                | String ":" after_colon =>
                    match parse after_colon with
                    | Some (v, rest) =>
                        match skip_ws rest with
                        | String "," rest' =>
                            match parse_members parse n' rest' with
                            | Some (kvs, rest'') => Some ((key, v) :: kvs, rest'')
                            | None => None
                            end
                        | String "}" rest' => Some ([(key, v)], rest')
                        | _ => None
                        end
                    | None => None
                    end
                | _ => None
                end
            | None => None
            end
          else None
      | EmptyString => None
      end
  end.

Fixpoint parse_value (fuel : nat) (s : string) : option (json * string) :=
  match fuel with
  | O => None
  | S fuel' =>
      match skip_ws s with
      | EmptyString => None
      | String c rest =>
          if (nat_of_ascii c =? 34)%nat then
            match parse_chars rest with
            | Some (text, rest') => Some (JStr text, rest')
            | None => None
            end
          else if (nat_of_ascii c =? 91)%nat then
            match closes 93 rest with
            | Some rest' => Some (JArr [], rest')
            | None =>
                match parse_items (parse_value fuel') fuel' rest with
                | Some (vs, rest') => Some (JArr vs, rest')
                | None => None
                end
            end
          else if (nat_of_ascii c =? 123)%nat then
            match closes 125 rest with
            | Some rest' => Some (JObj [], rest')
            | None =>
                match parse_members (parse_value fuel') fuel' rest with
                | Some (kvs, rest') => Some (JObj kvs, rest')
                | None => None
                end
            end
          else if (nat_of_ascii c =? 110)%nat then expect "ull" JNull rest
          else if (nat_of_ascii c =? 116)%nat then expect "rue" (JBool true) rest
          else if (nat_of_ascii c =? 102)%nat then expect "alse" (JBool false) rest
          else
            match parse_int (String c rest) with
            | Some (z, rest') => Some (JNum z, rest')
            | None => None
            end
      end
  end.

(** [json.loads(text)] *)
Definition loads (text : string) : outcome json :=
  match parse_value (S (String.length text)) text with
  | Some (v, rest) =>
      match skip_ws rest with
      | EmptyString => Return v
      | _ => Raise JSONDecodeError
      end
  | None => Raise JSONDecodeError
  end.

(** A text that does not go on with a digit. *)
Definition no_digit_head (s : string) : Prop :=
  match s with
  | String c _ => is_digit c = false
  | EmptyString => True
  end.

Fixpoint all_digits (s : string) : bool :=
  match s with
  | String c s' => is_digit c && all_digits s'
  | EmptyString => true
  end.

Definition number_head (c : ascii) : bool :=
  is_digit c || (nat_of_ascii c =? 45)%nat.

(** The first character of a printed value. *)
Definition value_head (c : ascii) : bool :=
  let n := nat_of_ascii c in
  number_head c || (n =? 34)%nat || (n =? 91)%nat || (n =? 123)%nat
  || (n =? 110)%nat || (n =? 116)%nat || (n =? 102)%nat.

(** Fuel that is enough to parse the text of a value. *)
Fixpoint json_size (v : json) : nat :=
  match v with
  | JArr items => S (list_sum (map (fun x => S (json_size x)) items))
  | JObj fields => S (list_sum (map (fun kv => S (json_size (snd kv))) fields))
  | _ => 1
  end.

(** [parse] reads back what [print_item] writes for [x]. *)
Definition parses (parse : string -> option (json * string))
  (print_item : json -> string) (x : json) : Prop :=
  forall rest,
    no_digit_head rest -> parse (print_item x +:+ rest) = Some (x, rest).

End JsonText.

(** * Vocabulary of the statements *)

(** ** Collections and related URLs *)

(** The environments [get_collections_with_opendap_urls] accepts. *)
Definition valid_environment (environment : string) : bool :=
  existsb (String.eqb environment) ["sit"; "uat"; "prod"].

(** The shapes of a collection that carry no related URL. *)
Inductive lacks_related_urls : json -> Prop :=
| no_granules_field fields :
    assoc "granules" fields = None ->
    lacks_related_urls (JObj fields)
| null_granules_field fields :
    assoc "granules" fields = Some JNull ->
    lacks_related_urls (JObj fields)
| no_granule_items fields granules :
    assoc "granules" fields = Some (JObj granules) ->
    assoc "items" granules = None \/ assoc "items" granules = Some JNull ->
    lacks_related_urls (JObj fields)
| empty_granule_items fields granules :
    assoc "granules" fields = Some (JObj granules) ->
    assoc "items" granules = Some (JArr []) ->
    lacks_related_urls (JObj fields)
| first_granule_lacks_related_urls fields granules first rest :
    assoc "granules" fields = Some (JObj granules) ->
    assoc "items" granules = Some (JArr (JObj first :: rest)) ->
    assoc "relatedUrls" first = None ->
    lacks_related_urls (JObj fields).

(** A collection whose first granule has a null [relatedUrls], which is how
    the answer to the query reports a granule without related URLs. *)
Definition null_related_urls (collection : json) : Prop :=
  exists fields granules first rest,
    collection = JObj fields
    /\ assoc "granules" fields = Some (JObj granules)
    /\ assoc "items" granules = Some (JArr (JObj first :: rest))
    /\ assoc "relatedUrls" first = Some JNull.

(** A collection whose first granule carries the list [urls] of related URLs. *)
Definition first_granule_related_urls (collection : json) (urls : list json)
  : Prop :=
  exists fields granules first rest,
    collection = JObj fields
    /\ assoc "granules" fields = Some (JObj granules)
    /\ assoc "items" granules = Some (JArr (JObj first :: rest))
    /\ assoc "relatedUrls" first = Some (JArr urls).

(** A related URL as the data model has it: a map whose [url], when present,
    is a string. *)
Definition related_url_record (related_url : json) : Prop :=
  exists fields,
    related_url = JObj fields
    /\ (assoc "url" fields = None
        \/ exists url, assoc "url" fields = Some (JStr url)).

(** The three conditions of the data model on one related URL. *)
Definition opendap_related_url (hyrax : string) (related_url : json) : Prop :=
  exists fields url,
    related_url = JObj fields
    /\ assoc "type" fields = Some (JStr "USE SERVICE API")
    /\ assoc "subtype" fields = Some (JStr "OPENDAP DATA")
    /\ assoc "url" fields = Some (JStr url)
    /\ exists before after, url = before +:+ hyrax +:+ after.

(** The collections of the data model: no related URLs at all, or a first
    granule with a list of related-URL records. *)
Definition collection_record (collection : json) : Prop :=
  lacks_related_urls collection
  \/ exists urls,
      first_granule_related_urls collection urls
      /\ Forall related_url_record urls.

(** A system in which nothing has happened yet, over a network without state. *)
Definition quiet : sys unit := mkSys [] tt [] ∅.

(** The system after one more line of output, and after a file is written. *)
Definition with_line {W} (s : sys W) (l : line) : sys W :=
  mkSys (stdout s ++ [l]) (net s) (wire s) (files s).

Definition with_file {W} (s : sys W) (path text : string) : sys W :=
  mkSys (stdout s) (net s) (wire s) (<[path := text]> (files s)).

Definition opendap_url_record (type subtype url : string) : json :=
  JObj [("type", JStr type); ("subtype", JStr subtype); ("url", JStr url)].

Definition collection_of (short_name concept_id : string) (urls : list json)
  : json :=
  JObj [("shortName", JStr short_name); ("version", JStr "1");
        ("conceptId", JStr concept_id);
        ("granules", JObj [("items", JArr [JObj [("relatedUrls", JArr urls)]])])].

(** ** Pages, failures and servers *)

(** The request body with the cursor the loop has put into it, if any. *)
Definition request_json_with (cursor : option json) : json :=
  JObj [("operationName", JStr "Collections");
        ("query", JStr query_string);
        ("variables",
         JObj [("collectionParams",
                JObj ([("cloudHosted", JBool true); ("limit", JNum 100)]
                      ++ match cursor with
                         | Some c => [("cursor", c)]
                         | None => []
                         end));
               ("granulesParams", JObj [("limit", JNum 1)])])].

(** The cursor a request carries in [variables.collectionParams]. *)
Definition request_cursor (r : request) : option json :=
  match req_json r with
  | Some body =>
      match getitem body "variables" with
      | Return variables =>
          match getitem variables "collectionParams" with
          | Return (JObj params) => assoc "cursor" params
          | _ => None
          end
      | _ => None
      end
  | None => None
  end.

(** A response body that reports [count], [cursor] and the page [items]. *)
Definition is_page (body count cursor : json) (items : list json) : Prop :=
  collections_field body "count" = Return count
  /\ (exists raw, collections_field body "items" = Return raw
                  /\ iterate raw = Return items)
  /\ collections_field body "cursor" = Return cursor.

Definition successful_page (r : response) (count cursor : json)
  (items : list json) : Prop :=
  ok r = true
  /\ exists body, json_body r = Return body /\ is_page body count cursor items.

(** The non-success responses among some exchanges. *)
Definition is_failure (x : request * outcome response) : bool :=
  match snd x with
  | Return r => negb (ok r)
  | Raise _ => false
  end.

Definition failures (exchanges : list (request * outcome response)) : Z :=
  Z.of_nat (length (List.filter is_failure exchanges)).

(** The items of the page a successful exchange delivered. *)
Definition received (x : request * outcome response) : list json :=
  match snd x with
  | Return r =>
      if ok r then
        match json_body r with
        | Return body =>
            match collections_field body "items" with
            | Return raw =>
                match iterate raw with Return items => items | Raise _ => [] end
            | Raise _ => []
            end
        | Raise _ => []
        end
      else []
  | Raise _ => []
  end.

(** A mock server: it plays a script of answers, whatever the request. *)
Definition mock_send (script : list (outcome response)) (_ : request)
  : outcome response * list (outcome response) :=
  match script with
  | [] => (Raise StopIteration, [])
  | answer :: rest => (answer, rest)
  end.

(** The state after a round that received a page. *)
Definition after_page (st : fetch_state) (count cursor : json)
  (items : list json) : fetch_state :=
  mkFetch (request_json_with (Some cursor)) count (all_collections st ++ items)
          (error_count st).

Definition page_line (st : fetch_state) (count : json) (items : list json)
  : line :=
  [Lit "Retrieved ";
   Fmt (JNum (Z.of_nat (length (all_collections st ++ items))));
   Lit "/"; Fmt count; Lit " collections"].

(** The state after a round that received a non-success response. *)
Definition after_failure (st : fetch_state) : fetch_state :=
  mkFetch (request_json st) (collection_count st) (all_collections st)
          (error_count st + 1).

Definition failure_lines (r : response) : list line :=
  [[Lit "response status code: f"; Fmt (JNum (status_code r))];
   [Lit "response : "; FmtBytes (content r)]].

(** A well-formed GraphQL answer and the response that carries it. *)
Definition graph_page (count : Z) (cursor : json) (items : list json) : json :=
  JObj [("data",
         JObj [("collections",
                JObj [("count", JNum count); ("cursor", cursor);
                      ("items", JArr items)])])].

Definition response_200 (body : json) : response :=
  mkResponse true 200 "" (Return body).

Definition response_500 : response :=
  mkResponse false 500 "Internal Server Error" (Raise JSONDecodeError).

(** A server that is down. *)
Definition failing_send (w : unit) (_ : request) : outcome response * unit :=
  (Return response_500, w).





(** The loop ends, in a state where the accumulator has as many items as the
    total last reported, or where the error budget is used up. *)
Definition fetch_converges {W} (send : W -> request -> outcome response * W)
  (environment token : string) (s : sys W) : Prop :=
  exists fuel url st' s',
    environment_parameter graphql environment = Return url
    /\ paginate send fuel url token initial_fetch_state s
       = Some (Return st', s')
    /\ (collection_count st' = JNum (Z.of_nat (length (all_collections st')))
        \/ error_count st' = 3).

(** A server that keeps answering 200 with a total of 5 and an empty page. *)
Definition stalling_send (w : unit) (_ : request) : outcome response * unit :=
  (Return (response_200 (graph_page 5 JNull [])), w).

(** A server whose only page holds more items than the total it reports. *)
Definition overshooting_send (w : unit) (_ : request)
  : outcome response * unit :=
  (Return (response_200 (graph_page 1 JNull [JObj []; JObj []])), w).

(** The states the loop passes through when it starts in [s0]. *)
Inductive fetch_reaches {W} (send : W -> request -> outcome response * W)
    (url token : string) (s0 : sys W) : fetch_state -> sys W -> Prop :=
| reaches_start :
    fetch_reaches send url token s0 initial_fetch_state s0
| reaches_round st s st' s' :
    fetch_reaches send url token s0 st s ->
    loop_condition st s = (Return true, s) ->
    loop_body send url token st s = (Return st', s') ->
    fetch_reaches send url token s0 st' s'.

(** Every request the loop comes to send is answered, with a non-success
    response or with a well-formed page; the page completes the total it
    reports or, staying below that total, lowers [remaining], a bound on the
    pages still to come. *)
Definition answers_settle {W} (send : W -> request -> outcome response * W)
  (url token : string) (s0 : sys W) (remaining : fetch_state -> W -> nat)
  : Prop :=
  forall st s,
    fetch_reaches send url token s0 st s ->
    loop_condition st s = (Return true, s) ->
    exists r w',
      send (net s) (graph_request url token (request_json st)) = (Return r, w')
      /\ (ok r = false
          \/ exists count cursor items,
              successful_page r (JNum count) cursor items
              /\ (Z.of_nat (length (all_collections st ++ items)) = count
                  \/ (Z.of_nat (length (all_collections st ++ items)) < count
                      /\ (remaining (after_page st (JNum count) cursor items) w'
                          < remaining st (net s))%nat))).

(** A server that answers 200 with a GraphQL error document. *)
Definition erroring_send (w : unit) (_ : request) : outcome response * unit :=
  (Return (response_200 (JObj [("errors", JArr [JStr "timeout"])])), w).

(** A script with a failure and an empty page among its pages: two items of
    three, a 500, an empty page, the third item; then the script is over. *)
Definition settling_script : list (outcome response) :=
  [Return (response_200 (graph_page 3 (JStr "c1") [JObj []; JObj []]));
   Return response_500;
   Return (response_200 (graph_page 3 (JStr "c2") []));
   Return (response_200 (graph_page 3 JNull [JObj []]))].

Definition uat_graphql : string := "https://graphql.uat.earthdata.nasa.gov/api".

(** The state after one more round of the loop against [mock_send]. *)
Definition next_round (x : fetch_state * sys (list (outcome response)))
  : fetch_state * sys (list (outcome response)) :=
  match loop_body mock_send uat_graphql "token" (fst x) (snd x) with
  | (Return st', s') => (st', s')
  | (Raise _, _) => x
  end.

Definition settling_start : fetch_state * sys (list (outcome response)) :=
  (initial_fetch_state, mkSys [] settling_script [] ∅).

(** A catalog without cloud-hosted collections. *)
Definition empty_catalog_send (w : unit) (_ : request)
  : outcome response * unit :=
  (Return (response_200 (graph_page 0 JNull [])), w).

(** ** Exchanges with the catalog *)

(** A computation that leaves the system as it found it. *)
Definition state_preserving {W A} (m : M W A) : Prop :=
  forall s, exists o, m s = (o, s).

(** The state of the system after one more exchange. *)
Definition after_exchange {W} (s : sys W) (w : W) (q : request)
  (answer : outcome response) : sys W :=
  mkSys (stdout s) w (wire s ++ [(q, answer)]) (files s).

Definition search_request (authenticated_session : session)
  (base_cmr_url umm_s_concept_id : string) : request :=
  mkRequest GET (base_cmr_url +:+ "/search/services.umm_json")
    [("concept_id", umm_s_concept_id)] None authenticated_session.

Definition create_request (authenticated_session : session)
  (base_cmr_url umm_s_concept_id : string) (ids : list json) : request :=
  mkRequest POST (associations_url base_cmr_url umm_s_concept_id) []
    (Some (json_payload ids)) authenticated_session.

Definition remove_request (authenticated_session : session)
  (base_cmr_url umm_s_concept_id : string) (ids : list json) : request :=
  mkRequest DELETE (associations_url base_cmr_url umm_s_concept_id) []
    (Some (json_payload ids)) authenticated_session.

(** An answer that lets [raise_for_status] pass. *)
Definition successful (answer : outcome response) : Prop :=
  exists r, answer = Return r /\ ok r = true.

(** A catalog that finds the service record and refuses to create
    associations. *)
Definition refusing_send (w : unit) (q : request) : outcome response * unit :=
  match req_method q with
  | GET =>
      (Return (response_200
                 (JObj [("items",
                         JArr [JObj [("meta",
                                      JObj [("associations",
                                             JObj [("collections",
                                                    JArr [JStr "C1-POCLOUD";
                                                          JStr "C2-OTHER"])])])]])])),
       w)
  | POST =>
      (Return (mkResponse false 403 "Forbidden" (Raise JSONDecodeError)), w)
  | DELETE => (Return (response_200 JNull), w)
  end.

(** ** Providers and snapshots *)

(** Two strings that differ at most in the case of their letters. *)
Definition same_ignoring_case (s t : string) : Prop := lower s = lower t.

(** [concept_id] ends with the provider, letter case apart. *)
Definition ends_with_provider (collection_provider concept_id : string) : Prop :=
  exists before suffix,
    concept_id = before +:+ suffix
    /\ same_ignoring_case suffix collection_provider.

(** A record of the filtered snapshot with the concept ID [concept_id]. *)
Definition has_concept_id (record : json) (concept_id : string) : Prop :=
  exists fields,
    record = JObj fields /\ assoc "concept_id" fields = Some (JStr concept_id).

(** The answer of the catalog to the search for a service record that is
    associated with the collections [ids]. *)
Definition service_record_with (body : json) (ids : list string) : Prop :=
  exists fields service others meta associations,
    body = JObj fields
    /\ assoc "items" fields = Some (JArr (JObj service :: others))
    /\ assoc "meta" service = Some (JObj meta)
    /\ assoc "associations" meta = Some (JObj associations)
    /\ assoc "collections" associations = Some (JArr (map JStr ids)).

(** [record] is the Formatted Collection Record of [collection]: its
    [shortName], [version] and [conceptId] under the names [short_name],
    [version] and [concept_id]. *)
Definition formatted_record_of (collection record : json) : Prop :=
  exists fields short_name version concept_id,
    collection = JObj fields
    /\ assoc "shortName" fields = Some short_name
    /\ assoc "version" fields = Some version
    /\ assoc "conceptId" fields = Some concept_id
    /\ record = JObj [("short_name", short_name); ("version", version);
                      ("concept_id", concept_id)].

(** A collection that contains [shortName], [version] and [conceptId]. *)
Definition identified (collection : json) : Prop :=
  exists record, formatted_record_of collection record.

(** The filtered snapshot of three collections, as [json.dump] writes it. *)
Definition snapshot_records : list json :=
  [JObj [("short_name", JStr "A"); ("version", JStr "1");
         ("concept_id", JStr "C1-POCLOUD")];
   JObj [("short_name", JStr "B"); ("version", JStr "2");
         ("concept_id", JStr "C2-OTHER")];
   JObj [("short_name", JStr "C"); ("version", JStr "3");
         ("concept_id", JStr "C3-POCLOUD")]].

Definition with_snapshot : sys unit :=
  mkSys [] tt []
    {[ "opendap_collections_prod.json"
       := JsonText.dumps (JArr snapshot_records) ]}.

(** ** Runs of the pagination loop *)

(** What the loop does between two exchanges that follow each other: after a
    non-success response the same request goes out again; after a successful
    one the next request carries the cursor the response returned. *)
Definition chained (x y : request * outcome response) : Prop :=
  match snd x with
  | Return r =>
      if ok r then
        forall body cursor,
          json_body r = Return body ->
          collections_field body "cursor" = Return cursor ->
          request_cursor (fst y) = Some cursor
      else fst y = fst x
  | Raise _ => True
  end.

(** ** What a computation leaves alone *)

(** A computation that writes no file. *)
Definition keeps_files {W A} (m : M W A) : Prop :=
  forall s o s', m s = (o, s') -> files s' = files s.

(** A computation that sends nothing. *)
Definition offline {W A} (m : M W A) : Prop :=
  forall s o s', m s = (o, s') -> net s' = net s /\ wire s' = wire s.

(** One of the two requests of [get_edl_token]. *)
Definition token_request (environment : string) (q : request) : Prop :=
  exists root,
    environment_parameter edl_root environment = Return root
    /\ req_headers q = [("Content-type", "application/json")]
    /\ ((req_method q = GET /\ req_url q = root +:+ "/api/users/tokens")
        \/ (req_method q = POST /\ req_url q = root +:+ "/api/users/token")).

(** ** Snapshot files *)

Definition raw_snapshot (environment : string) : string :=
  "all_collections_" +:+ environment +:+ ".json".

Definition filtered_snapshot (environment : string) : string :=
  "opendap_collections_" +:+ environment +:+ ".json".

(** ** A whole run *)

(** [str(v)] on the strings; other values are not formatted here. *)
Definition plain_str (v : json) : string :=
  match v with
  | JStr s => s
  | _ => EmptyString
  end.

Definition sample_collection : json :=
  collection_of "MUR" "C1-POCLOUD"
    [opendap_url_record "USE SERVICE API" "OPENDAP DATA"
       "https://opendap.uat.earthdata.nasa.gov/x"].

(** An identity provider with one token on record. *)
Definition one_token_send (w : unit) (_ : request) : outcome response * unit :=
  (Return (response_200 (JArr [JObj [("access_token", JStr "abc")]])), w).

(** An identity provider with a token on record and a catalog with two
    collections, one of them with an OPeNDAP related URL. *)
Definition earthdata_send (w : unit) (q : request) : outcome response * unit :=
  match req_method q with
  | POST =>
      (Return (response_200
                 (graph_page 2 JNull
                    [sample_collection; collection_of "B" "C2-OTHER" []])), w)
  | _ => (Return (response_200 (JArr [JObj [("access_token", JStr "abc")]])), w)
  end.

Definition with_raw_file : sys unit :=
  mkSys [] tt []
    {[ "saved.json"
       := JsonText.dumps
            (JArr [sample_collection; collection_of "B" "C2-OTHER" []]) ]}.

(** ** Records with or without a concept ID *)

(** The concept ID of a record of the snapshot, when it has one. *)
Definition record_concept_id (record : json) : option string :=
  match record with
  | JObj fields =>
      match assoc "concept_id" fields with
      | Some (JStr concept_id) => Some concept_id
      | _ => None
      end
  | _ => None
  end.

(** A map whose [concept_id], when present, is a string. *)
Definition loose_record (record : json) : Prop :=
  exists fields,
    record = JObj fields
    /\ (assoc "concept_id" fields = None
        \/ exists concept_id, assoc "concept_id" fields = Some (JStr concept_id)).

(** [s] ends with [suffix], letter for letter. *)
Definition has_suffix (suffix s : string) : Prop :=
  exists before, s = before +:+ suffix.

(** A record with the concept ID [fst p] and the short name [snd p]. *)
Definition named_record (record : json) (p : string * json) : Prop :=
  exists fields,
    record = JObj fields
    /\ assoc "concept_id" fields = Some (JStr (fst p))
    /\ assoc "short_name" fields = Some (snd p).

(** ** Text files of entries *)

(** The text [write_list] writes for a list of strings. *)
Fixpoint lines_text (entries : list string) : string :=
  match entries with
  | [] => EmptyString
  | entry :: rest =>
      entry +:+ String (ascii_of_nat 10) EmptyString +:+ lines_text rest
  end.

(** A string without a line feed or a carriage return. *)
Fixpoint one_line (s : string) : bool :=
  match s with
  | EmptyString => true
  | String c s' => negb (is_newline c) && negb (is_return c) && one_line s'
  end.

(** A string of ASCII characters only, the strings on which [isspace] is
    the white space of Python. *)
Fixpoint ascii_text (s : string) : bool :=
  match s with
  | EmptyString => true
  | String c s' => (nat_of_ascii c <? 128)%nat && ascii_text s'
  end.

(** An entry that reading a text file gives back as it is: ASCII text on
    one line, with no white space at either end. *)
Definition clean_entry (entry : string) : Prop :=
  ascii_text entry = true /\ one_line entry = true /\ strip entry = entry.

Definition is_string (v : json) : bool :=
  match v with JStr _ => true | _ => false end.

(** ** Lists compared and related URLs outside the data model *)

Definition all_present_line : line :=
  [Lit "All elements in the second list are present in the first list."].

Definition missing_header : line :=
  [Lit "Elements in the second list not present in the first:"].

(** A value in which [in] cannot look for anything. *)
Definition without_members (v : json) : bool :=
  match v with
  | JNull | JBool _ | JNum _ => true
  | _ => false
  end.

(** The related URLs on which the generator of [collection_has_opendap_url]
    raises, with what it raises: a value that is not a map, and a map of the
    right type and subtype whose [url] is no string, list or map. *)
Inductive unreadable_related_url : json -> exn -> Prop :=
| related_url_not_a_map v :
    (forall fields, v <> JObj fields) ->
    unreadable_related_url v AttributeError
| related_url_without_text fields url :
    assoc "type" fields = Some (JStr "USE SERVICE API") ->
    assoc "subtype" fields = Some (JStr "OPENDAP DATA") ->
    assoc "url" fields = Some url ->
    without_members url = true ->
    unreadable_related_url (JObj fields) TypeError.

(** ** Catalogs and snapshots of the examples *)

(** A catalog that finds the service record and accepts every change. *)
Definition accepting_send (w : unit) (q : request) : outcome response * unit :=
  match req_method q with
  | GET => refusing_send w q
  | _ => (Return (response_200 JNull), w)
  end.

(** A catalog that knows no such service record. *)
Definition empty_send (w : unit) (_ : request) : outcome response * unit :=
  (Return (response_200 (JObj [("hits", JNum 0); ("items", JArr [])])), w).

(** A snapshot with a record that has lost its concept ID. *)
Definition with_loose_snapshot : sys unit :=
  mkSys [] tt []
    {[ "opendap_collections_prod.json"
       := JsonText.dumps
            (JArr [JObj [("short_name", JStr "A")];
                   JObj [("short_name", JStr "B");
                         ("concept_id", JStr "C2-POCLOUD")]]) ]}.

(** * Properties *)

(** ** Strings *)

Lemma app_nil_l (s : string) : "" +:+ s = s.
Proof. reflexivity. Qed.

Lemma app_cons (c : ascii) (s t : string) :
  String c s +:+ t = String c (s +:+ t).
Proof. reflexivity. Qed.

Lemma startswith_spec (s p : string) :
  startswith s p = true <-> exists rest, s = p +:+ rest.
Proof.
  revert s. induction p as [|c p IH]; intros s; simpl.
  - split; [intros _; exists s; reflexivity | reflexivity].
  - destruct s as [|d s].
    + split; [discriminate | intros [rest H]; discriminate].
    + rewrite andb_true_iff, Ascii.eqb_eq, IH. split.
      * intros [-> [rest ->]]. exists rest. reflexivity.
      * intros [rest H]. rewrite app_cons in H. injection H as -> ->. eauto.
Qed.

Lemma str_contains_spec (needle hay : string) :
  str_contains needle hay = true <->
  exists before after, hay = before +:+ needle +:+ after.
Proof.
  induction hay as [|c hay IH]; simpl.
  - rewrite orb_false_r, startswith_spec. split.
    + intros [rest H]. exists "", rest. exact H.
    + intros [before [after H]].
      destruct before; [exists after; exact H|discriminate].
  - rewrite orb_true_iff, startswith_spec, IH. split.
    + intros [[rest H]|[before [after H]]].
      * exists "", rest. exact H.
      * exists (String c before), after. rewrite app_cons. now rewrite H.
    + intros [before [after H]]. destruct before as [|d before].
      * left. exists after. exact H.
      * right. exists before, after. rewrite app_cons in H. now injection H.
Qed.

Lemma str_drop_app (p s : string) : str_drop (String.length p) (p +:+ s) = s.
Proof. induction p; [reflexivity|]. rewrite app_cons. simpl. assumption. Qed.

Lemma str_length_app (p s : string) :
  String.length (p +:+ s) = (String.length p + String.length s)%nat.
Proof. induction p; [reflexivity|]. rewrite app_cons. simpl. now f_equal. Qed.

Lemma str_take_drop (n : nat) (s : string) :
  exists p, s = p +:+ str_drop n s.
Proof.
  revert s. induction n as [|n IH]; intros s; simpl.
  - exists "". reflexivity.
  - destruct s as [|c s]; [exists ""; reflexivity|].
    destruct (IH s) as [p Hp]. exists (String c p). rewrite app_cons.
    now rewrite <- Hp.
Qed.

Lemma endswith_spec (s suffix : string) :
  endswith s suffix = true <-> exists before, s = before +:+ suffix.
Proof.
  unfold endswith. rewrite andb_true_iff, Nat.leb_le, String.eqb_eq. split.
  - intros [_ H].
    destruct (str_take_drop (String.length s - String.length suffix) s)
      as [p Hp].
    exists p. now rewrite H in Hp.
  - intros [before ->]. rewrite str_length_app. split; [lia|].
    replace (String.length before + String.length suffix - String.length suffix)%nat
      with (String.length before) by lia.
    apply str_drop_app.
Qed.

(** ** Running the monad *)

Ltac run :=
  repeat (unfold bind, lift, ret, raise, try_except, print in *; simpl in * ).

Lemma eq_str_true (v : json) (s : string) : eq_str v s = true <-> v = JStr s.
Proof.
  destruct v; simpl; try (split; [discriminate | intros H; discriminate H]).
  rewrite String.eqb_eq. split; [now intros -> | now intros [= ->]].
Qed.

(** ** The OPeNDAP predicate *)

Lemma valid_environment_cases (environment : string) :
  valid_environment environment = true ->
  environment = "sit" \/ environment = "uat" \/ environment = "prod".
Proof.
  unfold valid_environment. simpl. rewrite !orb_true_iff, !String.eqb_eq.
  intuition discriminate.
Qed.

Lemma valid_environment_hyrax (environment : string) :
  valid_environment environment = true ->
  exists hyrax,
    environment_parameter hyrax_substring environment = Return hyrax
    /\ hyrax <> "".
Proof.
  intros H. destruct (valid_environment_cases _ H) as [-> | [-> | ->]];
    eexists; (split; [reflexivity | discriminate]).
Qed.

Section OpendapPredicate.

Context {W : Type}.
Implicit Types (s : sys W) (collection related_url : json).

Lemma dict_get_eq_str fields key default literal :
  default <> JStr literal ->
  eq_str (match assoc key fields with Some v => v | None => default end) literal
  = true <-> assoc key fields = Some (JStr literal).
Proof.
  intros Hd. rewrite eq_str_true. destruct (assoc key fields); split; congruence.
Qed.

Lemma dict_get_eq_str_intro fields key default literal :
  assoc key fields = Some (JStr literal) ->
  eq_str (match assoc key fields with Some v => v | None => default end) literal
  = true.
Proof. intros ->. simpl. apply String.eqb_refl. Qed.

Lemma is_opendap_url_record hyrax related_url s :
  hyrax <> "" ->
  related_url_record related_url ->
  exists b,
    is_opendap_url hyrax related_url s = (Return b, s)
    /\ (b = true <-> opendap_related_url hyrax related_url).
Proof.
  intros Hne [fields [-> Hurl]]. unfold is_opendap_url. run.
  destruct (eq_str _ "USE SERVICE API") eqn:Htype.
  2:{ exists false. split; [reflexivity|]. split; [discriminate|].
      intros [f [u [[= <-] [Ht _]]]].
      rewrite (dict_get_eq_str_intro _ _ _ _ Ht) in Htype. discriminate. }
  apply dict_get_eq_str in Htype; [|discriminate].
  destruct (eq_str _ "OPENDAP DATA") eqn:Hsub.
  2:{ exists false. split; [reflexivity|]. split; [discriminate|].
      intros [f [u [[= <-] [_ [Hs _]]]]].
      rewrite (dict_get_eq_str_intro _ _ _ _ Hs) in Hsub. discriminate. }
  apply dict_get_eq_str in Hsub; [|discriminate].
  destruct Hurl as [Hnone | [url Hsome]].
  - rewrite Hnone. simpl. exists (str_contains hyrax ""). split; [reflexivity|].
    assert (str_contains hyrax "" = false) as ->
        by (destruct hyrax; [congruence | reflexivity]).
    split; [discriminate|]. intros [f [u [[= <-] [_ [_ [Hu _]]]]]]. congruence.
  - rewrite Hsome. simpl. exists (str_contains hyrax url).
    split; [reflexivity|]. rewrite str_contains_spec. split.
    + intros Hc. exists fields, url. auto.
    + intros [f [u [[= <-] [_ [_ [Hu Hc]]]]]].
      rewrite Hsome in Hu. injection Hu as <-. exact Hc.
Qed.

Lemma any_is_opendap_url hyrax urls s :
  hyrax <> "" ->
  Forall related_url_record urls ->
  exists b,
    any (is_opendap_url hyrax) urls s = (Return b, s)
    /\ (b = true <-> Exists (opendap_related_url hyrax) urls).
Proof.
  intros Hne. induction 1 as [|u urls Hu _ IH]; simpl.
  - exists false. split; [reflexivity|]. split; [discriminate|].
    intros H. inversion H.
  - destruct (is_opendap_url_record hyrax u s Hne Hu) as [b [Hrun Hb]].
    unfold bind at 1. rewrite Hrun. destruct b.
    + exists true. split; [reflexivity|]. split; [|reflexivity].
      intros _. left. now apply Hb.
    + destruct IH as [b' [Hrun' Hb']]. exists b'. split; [exact Hrun'|].
      rewrite Hb'. split; [now right|].
      intros H. inversion H as [? ? H1|? ? H1]; subst; [|assumption].
      apply Hb in H1. discriminate.
Qed.

Lemma related_urls_of_first_granule collection urls s :
  first_granule_related_urls collection urls ->
  get_collection_related_urls collection s = (Return (JArr urls), s).
Proof.
  intros [fields [granules [first [rest [-> [Hg [Hi Hr]]]]]]].
  unfold get_collection_related_urls, inspect_granules. run.
  rewrite Hg. simpl. rewrite Hi. simpl. rewrite Hr. auto.
Qed.

Lemma lacks_related_urls_run collection s :
  lacks_related_urls collection ->
  (exists granules, inspect_granules collection s = (Return granules, s))
  /\ get_collection_related_urls collection s = (Return (JArr []), s).
Proof.
  intros H. unfold get_collection_related_urls, inspect_granules.
  destruct H as [fields Hg | fields Hg | fields granules Hg [Hi|Hi]
                | fields granules Hg Hi | fields granules first rest Hg Hi Hr];
    run; rewrite Hg; simpl; rewrite ?Hi; simpl; rewrite ?Hr; eauto.
Qed.

Lemma collection_has_opendap_url_run collection urls environment hyrax s :
  environment_parameter hyrax_substring environment = Return hyrax ->
  get_collection_related_urls collection s = (Return (JArr urls), s) ->
  collection_has_opendap_url collection environment s
  = any (is_opendap_url hyrax) urls s.
Proof.
  intros He Hu. unfold collection_has_opendap_url.
  unfold bind at 1. unfold lift at 1. rewrite He.
  unfold bind at 1. rewrite Hu. reflexivity.
Qed.

Lemma collection_has_opendap_url_total collection environment s :
  valid_environment environment = true ->
  collection_record collection ->
  exists b, collection_has_opendap_url collection environment s = (Return b, s).
Proof.
  intros He Hc. destruct (valid_environment_hyrax _ He) as [hyrax [Hh Hne]].
  destruct Hc as [Hc | [urls [Hc Hurls]]].
  - exists false. apply (lacks_related_urls_run _ s) in Hc as [_ Hc].
    now rewrite (collection_has_opendap_url_run _ _ _ _ _ Hh Hc).
  - apply (related_urls_of_first_granule _ _ s) in Hc.
    rewrite (collection_has_opendap_url_run _ _ _ _ _ Hh Hc).
    destruct (any_is_opendap_url hyrax urls s Hne Hurls) as [b [Hb _]]. eauto.
Qed.

Lemma comprehension_if_sublist (p : json -> M W bool) xs s ys s' :
  comprehension_if p xs s = (Return ys, s') -> ys `sublist_of` xs.
Proof.
  revert s ys s'. induction xs as [|x xs IH]; intros s ys s'; simpl.
  - intros [= <- _]. constructor.
  - unfold bind at 1. destruct (p x s) as [[b|e] s1]; [|discriminate].
    unfold bind at 1.
    destruct (comprehension_if p xs s1) as [[tail|e] s2] eqn:Htail;
      [|discriminate].
    intros [= <- _]. apply IH in Htail.
    destruct b; [now apply sublist_skip | now apply sublist_cons].
Qed.

Lemma comprehension_if_total (p : json -> M W bool) xs s :
  Forall (fun x => exists b, p x s = (Return b, s)) xs ->
  exists ys, comprehension_if p xs s = (Return ys, s).
Proof.
  induction 1 as [|x xs [b Hb] _ [tail IH]]; simpl.
  - eexists. reflexivity.
  - unfold bind at 1. rewrite Hb. unfold bind at 1. rewrite IH.
    eexists. reflexivity.
Qed.

End OpendapPredicate.

(** C2: for a collection whose first granule carries a list of related-URL
    records and a valid environment, [collection_has_opendap_url] returns a
    boolean, which is [true] exactly when some related URL has type
    "USE SERVICE API", subtype "OPENDAP DATA" and a url that contains the
    environment's host substring; with a single related URL, all three
    conditions give [true] and breaking any one of them gives [false]. *)
Theorem collection_has_opendap_url_iff
    {W} (collection : json) (urls : list json) (environment : string)
    (s : sys W) :
  valid_environment environment = true ->
  first_granule_related_urls collection urls ->
  Forall related_url_record urls ->
  exists hyrax b,
    environment_parameter hyrax_substring environment = Return hyrax
    /\ collection_has_opendap_url collection environment s = (Return b, s)
    /\ (b = true <-> Exists (opendap_related_url hyrax) urls)
    /\ forall fields,
        urls = [JObj fields] ->
        (assoc "type" fields = Some (JStr "USE SERVICE API") ->
         assoc "subtype" fields = Some (JStr "OPENDAP DATA") ->
         (exists before after,
             assoc "url" fields = Some (JStr (before +:+ hyrax +:+ after))) ->
         b = true)
        /\ (assoc "type" fields <> Some (JStr "USE SERVICE API") -> b = false)
        /\ (assoc "subtype" fields <> Some (JStr "OPENDAP DATA") -> b = false)
        /\ ((forall before after,
                assoc "url" fields <> Some (JStr (before +:+ hyrax +:+ after))) ->
            b = false).
Proof.
  intros He Hc Hurls.
  destruct (valid_environment_hyrax _ He) as [hyrax [Hh Hne]].
  apply (related_urls_of_first_granule _ _ s) in Hc.
  destruct (any_is_opendap_url hyrax urls s Hne Hurls) as [b [Hrun Hb]].
  exists hyrax, b. split; [exact Hh|]. split.
  { now rewrite (collection_has_opendap_url_run _ _ _ _ _ Hh Hc). }
  split; [exact Hb|]. intros fields ->.
  assert (Hone : b = true <-> opendap_related_url hyrax (JObj fields)).
  { rewrite Hb. split.
    - intros H. inversion H as [? ? H1|? ? H1]; subst; [exact H1|inversion H1].
    - intros H. now left. }
  assert (Hfalse : ~ opendap_related_url hyrax (JObj fields) -> b = false).
  { intros Hn. destruct b; [|reflexivity]. exfalso. apply Hn. now apply Hone. }
  repeat split.
  - intros Ht Hs [before [after Hu]]. apply Hone.
    exists fields, (before +:+ hyrax +:+ after). eauto 10.
  - intros Hn. apply Hfalse. intros [f [u [[= <-] [Ht _]]]]. contradiction.
  - intros Hn. apply Hfalse. intros [f [u [[= <-] [_ [Hsub _]]]]]. contradiction.
  - intros Hn. apply Hfalse.
    intros [f [u [[= <-] [_ [_ [Hu [before [after ->]]]]]]]].
    exact (Hn _ _ Hu).
Qed.

Lemma collection_has_opendap_url_iff_witness :
  collection_has_opendap_url
    (collection_of "MUR-JPL-L4-GLOB-v4.1" "C1996881146-POCLOUD"
       [opendap_url_record "USE SERVICE API" "OPENDAP DATA"
          "https://opendap.earthdata.nasa.gov/collections/C1996881146-POCLOUD"])
    "prod" quiet
  = (Return true, quiet).
Proof.
  destruct (collection_has_opendap_url_iff
              (collection_of "MUR-JPL-L4-GLOB-v4.1" "C1996881146-POCLOUD"
                 [opendap_url_record "USE SERVICE API" "OPENDAP DATA"
                    "https://opendap.earthdata.nasa.gov/collections/C1996881146-POCLOUD"])
              [opendap_url_record "USE SERVICE API" "OPENDAP DATA"
                 "https://opendap.earthdata.nasa.gov/collections/C1996881146-POCLOUD"]
              "prod" quiet)
    as [hyrax [b [Hh [Hrun [Hb _]]]]].
  - reflexivity.
  - unfold first_granule_related_urls, collection_of. repeat eexists.
  - constructor; [|constructor]. eexists. split; [reflexivity|].
    right. eexists. reflexivity.
  - rewrite Hrun. injection Hh as <-. f_equal. f_equal. apply Hb. left.
    eexists _, _. repeat (split; [reflexivity|]).
    exists "https://", "/collections/C1996881146-POCLOUD". reflexivity.
Defined.

(** X21: a collection with no [granules] field, a null [granules] field, no
    or an empty granule [items] list, or a first granule that has no
    [relatedUrls] key goes through the [try] block without an exception, has
    the empty list of related URLs, and is not an OPeNDAP collection; nothing
    is raised and nothing is printed. *)
Theorem lacks_related_urls_false
    {W} (collection : json) (environment : string) (s : sys W) :
  lacks_related_urls collection ->
  valid_environment environment = true ->
  (exists granules, inspect_granules collection s = (Return granules, s))
  /\ get_collection_related_urls collection s = (Return (JArr []), s)
  /\ collection_has_opendap_url collection environment s = (Return false, s).
Proof.
  intros Hc He. destruct (lacks_related_urls_run collection s Hc) as [Hi Hu].
  repeat split; [exact Hi | exact Hu |].
  destruct (valid_environment_hyrax _ He) as [hyrax [Hh _]].
  now rewrite (collection_has_opendap_url_run _ _ _ _ _ Hh Hu).
Qed.

Lemma lacks_related_urls_false_witness :
  collection_has_opendap_url
    (JObj [("shortName", JStr "AIRS"); ("granules", JObj [("items", JArr [])])])
    "uat" quiet
  = (Return false, quiet).
Proof.
  apply (lacks_related_urls_false
           (JObj [("shortName", JStr "AIRS");
                  ("granules", JObj [("items", JArr [])])])
           "uat" quiet).
  - eapply empty_granule_items; reflexivity.
  - reflexivity.
Defined.

(** C4 does not hold of the code: a first granule whose [relatedUrls] is
    null lacks related URLs as much as one without the key, and the docstring
    of [get_collection_related_urls] promises the empty list for it; but only
    [granules] and its [items] are tested for [None].  For such a collection
    [get_collection_related_urls] returns [None] itself, and
    [collection_has_opendap_url], iterating over it, raises [TypeError]. *)
Theorem null_related_urls_raises
    {W} (collection : json) (environment : string) (s : sys W) :
  null_related_urls collection ->
  valid_environment environment = true ->
  get_collection_related_urls collection s = (Return JNull, s)
  /\ collection_has_opendap_url collection environment s
     = (Raise TypeError, s).
Proof.
  intros (fields & granules & first & rest & -> & Hg & Hi & Hr) He.
  assert (Hu : get_collection_related_urls (JObj fields) s = (Return JNull, s)).
  { unfold get_collection_related_urls, inspect_granules. run.
    rewrite Hg. simpl. rewrite Hi. simpl. now rewrite Hr. }
  split; [exact Hu|].
  destruct (valid_environment_hyrax _ He) as [hyrax [Hh _]].
  unfold collection_has_opendap_url.
  unfold bind at 1. unfold lift at 1. rewrite Hh.
  unfold bind at 1. now rewrite Hu.
Qed.

Lemma null_related_urls_raises_witness :
  collection_has_opendap_url
    (JObj [("shortName", JStr "AIRS");
           ("granules",
            JObj [("items", JArr [JObj [("relatedUrls", JNull)]])])])
    "prod" quiet
  = (Raise TypeError, quiet).
Proof.
  apply (null_related_urls_raises
           (JObj [("shortName", JStr "AIRS");
                  ("granules",
                   JObj [("items", JArr [JObj [("relatedUrls", JNull)]])])])
           "prod" quiet).
  - do 4 eexists. repeat split.
  - reflexivity.
Defined.

(** C5: whatever [filter_for_opendap_granules] returns is a sublist of its
    input (same elements, same order, none added): it is no longer than the
    input and each of its elements is an element of the input; and on
    collections of the data model, in a valid environment, it does return,
    leaving the system as it found it.  The source only reads [collections]
    (a comprehension, [get] and subscripts, no assignment), which is why the
    embedding takes the list by value: the caller's list after the call is
    the [collections] of the statement. *)
Theorem filter_for_opendap_granules_subset
    {W} (collections : list json) (environment : string) (s : sys W) :
  (forall filtered s',
      filter_for_opendap_granules collections environment s
      = (Return filtered, s') ->
      filtered `sublist_of` collections
      /\ (length filtered <= length collections)%nat
      /\ forall collection, In collection filtered -> In collection collections)
  /\ (valid_environment environment = true ->
      Forall collection_record collections ->
      exists filtered,
        filter_for_opendap_granules collections environment s
        = (Return filtered, s)).
Proof.
  split.
  - intros filtered s' H. apply comprehension_if_sublist in H.
    split; [exact H|]. split; [now apply sublist_length|].
    intros c Hc. apply list_elem_of_In. apply list_elem_of_In in Hc.
    eapply elem_of_sublist; eauto.
  - intros He Hcs. apply comprehension_if_total.
    eapply Forall_impl; [exact Hcs|]. simpl.
    intros c Hc. now apply collection_has_opendap_url_total.
Qed.

Lemma filter_for_opendap_granules_subset_witness :
  filter_for_opendap_granules
    [collection_of "A" "C1-POCLOUD"
       [opendap_url_record "USE SERVICE API" "OPENDAP DATA"
          "https://opendap.earthdata.nasa.gov/a"];
     collection_of "B" "C2-POCLOUD"
       [opendap_url_record "GET DATA" "OPENDAP DATA"
          "https://opendap.earthdata.nasa.gov/b"]]
    "prod" quiet
  = (Return [collection_of "A" "C1-POCLOUD"
               [opendap_url_record "USE SERVICE API" "OPENDAP DATA"
                  "https://opendap.earthdata.nasa.gov/a"]], quiet)
  /\ ([collection_of "A" "C1-POCLOUD"
         [opendap_url_record "USE SERVICE API" "OPENDAP DATA"
            "https://opendap.earthdata.nasa.gov/a"]]
      `sublist_of`
      [collection_of "A" "C1-POCLOUD"
         [opendap_url_record "USE SERVICE API" "OPENDAP DATA"
            "https://opendap.earthdata.nasa.gov/a"];
       collection_of "B" "C2-POCLOUD"
         [opendap_url_record "GET DATA" "OPENDAP DATA"
            "https://opendap.earthdata.nasa.gov/b"]]).
Proof.
  split; [reflexivity|].
  eapply (proj1 (filter_for_opendap_granules_subset _ "prod" quiet)).
  reflexivity.
Defined.





(** ** Pagination *)

Lemma request_cursor_with url token cursor :
  request_cursor (graph_request url token (request_json_with cursor)) = cursor.
Proof. destruct cursor; reflexivity. Qed.

Lemma failures_app xs ys : failures (xs ++ ys) = failures xs + failures ys.
Proof.
  unfold failures. rewrite List.filter_app, length_app. lia.
Qed.

Section Pagination.

Context {W : Type} (send : W -> request -> outcome response * W).
Context (url token : string).
Implicit Types (st : fetch_state) (s : sys W).

Lemma set_cursor_with cursor c s :
  set_cursor (request_json_with cursor) c s
  = (Return (request_json_with (Some c)), s).
Proof. destruct cursor; reflexivity. Qed.

(** One more round never changes a result already reached. *)
Lemma paginate_more fuel st s result :
  paginate send fuel url token st s = Some result ->
  forall fuel', (fuel <= fuel')%nat ->
  paginate send fuel' url token st s = Some result.
Proof.
  revert st s. induction fuel as [|fuel IH]; intros st s; [discriminate|].
  intros H [|fuel'] Hle; [lia|]. simpl in *.
  destruct (loop_condition st s) as [[[]|] s1]; try exact H.
  destruct (loop_body send url token st s1) as [[st'|] s2]; try exact H.
  apply IH; [exact H | lia].
Qed.

Lemma paginate_stop fuel st s :
  loop_condition st s = (Return false, s) ->
  paginate send (S fuel) url token st s = Some (Return st, s).
Proof. intros H. simpl. now rewrite H. Qed.

Lemma loop_body_page st s r w' prior count cursor items :
  request_json st = request_json_with prior ->
  send (net s) (graph_request url token (request_json st)) = (Return r, w') ->
  successful_page r count cursor items ->
  loop_body send url token st s
  = (Return (after_page st count cursor items),
     mkSys (stdout s ++ [page_line st count items]) w'
           (wire s ++ [(graph_request url token (request_json st), Return r)])
           (files s)).
Proof.
  intros Hreq Hsend [Hok [body [Hbody [Hcount [[raw [Hraw Hitems]] Hcursor]]]]].
  unfold loop_body. unfold bind at 1. unfold http. rewrite Hsend, Hok.
  unfold bind at 1, lift at 1. rewrite Hbody.
  unfold bind at 1, lift at 1. rewrite Hcount.
  unfold bind at 1, lift at 1. rewrite Hraw.
  unfold bind at 1, lift at 1. rewrite Hitems.
  unfold bind at 1, lift at 1. rewrite Hcursor.
  unfold bind at 1. rewrite Hreq, set_cursor_with. reflexivity.
Qed.

Lemma loop_body_failure st s r w' :
  send (net s) (graph_request url token (request_json st)) = (Return r, w') ->
  ok r = false ->
  loop_body send url token st s
  = (Return (after_failure st),
     mkSys (stdout s ++ failure_lines r) w'
           (wire s ++ [(graph_request url token (request_json st), Return r)])
           (files s)).
Proof.
  intros Hsend Hok. unfold loop_body. unfold bind at 1. unfold http.
  rewrite Hsend, Hok. run. now rewrite <- app_assoc.
Qed.

Lemma loop_condition_pure st s :
  exists o, loop_condition st s = (o, s).
Proof.
  unfold loop_condition. destruct (error_count st <? max_errors); eexists;
    reflexivity.
Qed.

Lemma loop_condition_true st s :
  loop_condition st s = (Return true, s) ->
  error_count st < 3
  /\ int_lt (Z.of_nat (length (all_collections st))) (collection_count st)
     = Return true.
Proof.
  unfold loop_condition, max_errors.
  destruct (Z.ltb_spec (error_count st) 3); [|discriminate].
  unfold lift. intros [= H1]. auto.
Qed.

Lemma loop_condition_budget st s :
  3 <= error_count st -> loop_condition st s = (Return false, s).
Proof.
  intros H. unfold loop_condition, max_errors.
  destruct (Z.ltb_spec (error_count st) 3); [lia|reflexivity].
Qed.

Lemma loop_condition_count st s n :
  error_count st < 3 ->
  collection_count st = JNum n ->
  loop_condition st s
  = (Return (Z.of_nat (length (all_collections st)) <? n), s).
Proof.
  intros He Hc. unfold loop_condition, max_errors.
  destruct (Z.ltb_spec (error_count st) 3); [|lia]. now rewrite Hc.
Qed.

Lemma paginate_page fuel st s r w' prior count cursor items :
  loop_condition st s = (Return true, s) ->
  request_json st = request_json_with prior ->
  send (net s) (graph_request url token (request_json st)) = (Return r, w') ->
  successful_page r count cursor items ->
  paginate send (S fuel) url token st s
  = paginate send fuel url token (after_page st count cursor items)
      (mkSys (stdout s ++ [page_line st count items]) w'
         (wire s ++ [(graph_request url token (request_json st), Return r)])
         (files s)).
Proof.
  intros Hc Hreq Hsend Hpage. simpl. rewrite Hc.
  now rewrite (loop_body_page _ _ _ _ _ _ _ _ Hreq Hsend Hpage).
Qed.

Lemma paginate_failure fuel st s r w' :
  loop_condition st s = (Return true, s) ->
  send (net s) (graph_request url token (request_json st)) = (Return r, w') ->
  ok r = false ->
  paginate send (S fuel) url token st s
  = paginate send fuel url token (after_failure st)
      (mkSys (stdout s ++ failure_lines r) w'
         (wire s ++ [(graph_request url token (request_json st), Return r)])
         (files s)).
Proof.
  intros Hc Hsend Hok. simpl. rewrite Hc.
  now rewrite (loop_body_failure _ _ _ _ Hsend Hok).
Qed.

End Pagination.

Lemma valid_environment_graphql (environment : string) :
  valid_environment environment = true ->
  exists url, environment_parameter graphql environment = Return url.
Proof.
  intros H. destruct (valid_environment_cases _ H) as [-> | [-> | ->]];
    eexists; reflexivity.
Qed.

(** C1: against a server that answers the first three requests with
    successful pages of 100, 100 and 50 items, each reporting [count] 250,
    [query_cmr_graph_for_collections] returns the 250 items of the three
    pages in order and sends exactly three requests (the rest of the script
    is left untouched): the first carries no cursor, the second the cursor of
    the first response, the third the cursor of the second response. *)
Theorem query_cmr_graph_three_pages
    (environment token : string) (r1 r2 r3 : response) (c1 c2 c3 : json)
    (p1 p2 p3 : list json) (rest : list (outcome response))
    (s : sys (list (outcome response))) (fuel : nat) :
  valid_environment environment = true ->
  net s = Return r1 :: Return r2 :: Return r3 :: rest ->
  successful_page r1 (JNum 250) c1 p1 ->
  successful_page r2 (JNum 250) c2 p2 ->
  successful_page r3 (JNum 250) c3 p3 ->
  length p1 = 100%nat -> length p2 = 100%nat -> length p3 = 50%nat ->
  (4 <= fuel)%nat ->
  exists s' q1 q2 q3,
    query_cmr_graph_for_collections mock_send fuel environment token s
    = Some (Return (p1 ++ p2 ++ p3), s')
    /\ length (p1 ++ p2 ++ p3) = 250%nat
    /\ wire s' = wire s ++ [(q1, Return r1); (q2, Return r2); (q3, Return r3)]
    /\ net s' = rest
    /\ request_cursor q1 = None
    /\ request_cursor q2 = Some c1
    /\ request_cursor q3 = Some c2.
Proof.
  intros He Hnet H1 H2 H3 L1 L2 L3 Hfuel.
  destruct (valid_environment_graphql _ He) as [url Hurl].
  unfold query_cmr_graph_for_collections. rewrite Hurl.
  set (st0 := initial_fetch_state).
  set (st1 := after_page st0 (JNum 250) c1 p1).
  set (st2 := after_page st1 (JNum 250) c2 p2).
  set (st3 := after_page st2 (JNum 250) c3 p3).
  assert (Hrun : exists s',
             paginate mock_send 4 url token st0 s = Some (Return st3, s')
             /\ wire s'
                = wire s ++ [(graph_request url token (request_json_with None),
                              Return r1);
                             (graph_request url token (request_json_with (Some c1)),
                              Return r2);
                             (graph_request url token (request_json_with (Some c2)),
                              Return r3)]
             /\ net s' = rest).
  { erewrite (paginate_page mock_send url token 3 st0 s r1 _ None);
      [| reflexivity | reflexivity | rewrite Hnet; reflexivity | exact H1].
    erewrite (paginate_page mock_send url token 2 st1 _ r2 _ (Some c1));
      [| | reflexivity | reflexivity | exact H2].
    2:{ rewrite (loop_condition_count st1 _ 250); [|reflexivity|reflexivity].
        simpl. rewrite L1. reflexivity. }
    erewrite (paginate_page mock_send url token 1 st2 _ r3 _ (Some c2));
      [| | reflexivity | reflexivity | exact H3].
    2:{ rewrite (loop_condition_count st2 _ 250); [|reflexivity|reflexivity].
        simpl. rewrite length_app, L1, L2. reflexivity. }
    rewrite paginate_stop.
    2:{ rewrite (loop_condition_count st3 _ 250); [|reflexivity|reflexivity].
        simpl. rewrite !length_app, L1, L2, L3. reflexivity. }
    eexists. split; [reflexivity|]. simpl. rewrite <- !app_assoc. auto. }
  destruct Hrun as [s' [Hrun [Hwire Hrest]]].
  rewrite (paginate_more _ _ _ _ _ _ _ Hrun fuel Hfuel).
  exists s'. do 3 eexists. split.
  { simpl. now rewrite <- app_assoc. }
  split; [rewrite !length_app, L1, L2, L3; reflexivity|].
  split; [exact Hwire|]. split; [exact Hrest|].
  rewrite !request_cursor_with. auto.
Qed.

Lemma successful_graph_page count cursor items :
  successful_page (response_200 (graph_page count cursor items))
                  (JNum count) cursor items.
Proof.
  split; [reflexivity|]. eexists. split; [reflexivity|].
  repeat split. eexists. split; reflexivity.
Qed.

Lemma query_cmr_graph_three_pages_witness :
  exists s' q1 q2 q3,
    query_cmr_graph_for_collections mock_send 4 "prod" "token"
      (mkSys [] [Return (response_200 (graph_page 250 (JStr "c1")
                                         (repeat (JObj []) 100)));
                 Return (response_200 (graph_page 250 (JStr "c2")
                                         (repeat (JObj []) 100)));
                 Return (response_200 (graph_page 250 JNull
                                         (repeat (JObj []) 50)))] [] ∅)
    = Some (Return (repeat (JObj []) 100 ++ repeat (JObj []) 100
                    ++ repeat (JObj []) 50), s')
    /\ length (repeat (JObj []) 100 ++ repeat (JObj []) 100
               ++ repeat (JObj []) 50) = 250%nat
    /\ wire s'
       = [] ++ [(q1, Return (response_200 (graph_page 250 (JStr "c1")
                                             (repeat (JObj []) 100))));
                (q2, Return (response_200 (graph_page 250 (JStr "c2")
                                             (repeat (JObj []) 100))));
                (q3, Return (response_200 (graph_page 250 JNull
                                             (repeat (JObj []) 50))))]
    /\ net s' = []
    /\ request_cursor q1 = None
    /\ request_cursor q2 = Some (JStr "c1")
    /\ request_cursor q3 = Some (JStr "c2").
Proof.
  apply (query_cmr_graph_three_pages "prod" "token" _ _ _
           (JStr "c1") (JStr "c2") JNull
           (repeat (JObj []) 100) (repeat (JObj []) 100) (repeat (JObj []) 50)
           []).
  - reflexivity.
  - reflexivity.
  - apply successful_graph_page.
  - apply successful_graph_page.
  - apply successful_graph_page.
  - reflexivity.
  - reflexivity.
  - reflexivity.
  - lia.
Defined.

Section ErrorBudget.

Context {W : Type} (send : W -> request -> outcome response * W).
Context (url token : string).
Implicit Types (st : fetch_state) (s : sys W).

Lemma failures_one x : failures [x] = if is_failure x then 1 else 0.
Proof. unfold failures. simpl. now destruct (is_failure x). Qed.

(** What one round of the loop does to the wire, the error counter and the
    accumulator, whatever the answer. *)
Lemma loop_body_round st s o s2 :
  loop_body send url token st s = (o, s2) ->
  exists answer,
    wire s2 = wire s ++ [(graph_request url token (request_json st), answer)]
    /\ match o with
       | Return st' =>
           error_count st'
           = error_count st
             + failures [(graph_request url token (request_json st), answer)]
           /\ all_collections st'
              = all_collections st
                ++ received (graph_request url token (request_json st), answer)
       | Raise _ =>
           failures [(graph_request url token (request_json st), answer)] = 0
       end.
Proof.
  unfold loop_body. unfold bind at 1. unfold http.
  destruct (send (net s) _) as [[r|e] w'] eqn:Hsend.
  2:{ intros [= <- <-]. exists (Raise e). split; reflexivity. }
  intros H. exists (Return r). rewrite failures_one. unfold is_failure, received.
  simpl. destruct (ok r); simpl.
  - revert H. unfold bind at 1, lift at 1.
    destruct (json_body r) as [body|e]; [|intros [= <- <-]; auto].
    unfold bind at 1, lift at 1.
    destruct (collections_field body "count") as [count|e];
      [|intros [= <- <-]; auto].
    unfold bind at 1, lift at 1.
    destruct (collections_field body "items") as [raw|e];
      [|intros [= <- <-]; auto].
    unfold bind at 1, lift at 1.
    destruct (iterate raw) as [items|e]; [|intros [= <- <-]; auto].
    unfold bind at 1, lift at 1.
    destruct (collections_field body "cursor") as [cursor|e];
      [|intros [= <- <-]; auto].
    unfold bind at 1.
    destruct (set_cursor (request_json st) cursor _) as [[rj|e] s3] eqn:Hset.
    + assert (s3 = mkSys (stdout s) w'
                     (wire s ++ [(graph_request url token (request_json st),
                                  Return r)]) (files s)) as ->.
      { revert Hset. unfold set_cursor. run.
        repeat match goal with
               | |- context [match ?x with _ => _ end] => destruct x
               end; congruence. }
      run. intros [= <- <-]. simpl. split; [reflexivity|]. split; [lia|reflexivity].
    + assert (s3 = mkSys (stdout s) w'
                     (wire s ++ [(graph_request url token (request_json st),
                                  Return r)]) (files s)) as ->.
      { revert Hset. unfold set_cursor. run.
        repeat match goal with
               | |- context [match ?x with _ => _ end] => destruct x
               end; congruence. }
      intros [= <- <-]. auto.
  - revert H. run. intros [= <- <-]. simpl. split; [reflexivity|].
    split; [reflexivity | now rewrite app_nil_r].
Qed.

(** The error counter is the number of non-success responses, it never passes
    the budget, and a run that used the budget up ends on a non-success
    response and returns the accumulator. *)
Lemma paginate_budget fuel st s o s' :
  0 <= error_count st <= 3 ->
  paginate send fuel url token st s = Some (o, s') ->
  exists new,
    wire s' = wire s ++ new
    /\ error_count st + failures new <= 3
    /\ match o with
       | Return st' =>
           error_count st' = error_count st + failures new
           /\ all_collections st'
              = all_collections st ++ concat (map received new)
       | Raise _ => error_count st + failures new < 3
       end
    /\ (new <> [] -> error_count st + failures new = 3 ->
        exists earlier x, new = earlier ++ [x] /\ is_failure x = true).
Proof.
  revert st s. induction fuel as [|fuel IH]; intros st s Hec; [discriminate|].
  simpl. destruct (loop_condition_pure st s) as [c Hc]. rewrite Hc.
  destruct c as [[]|e].
  - apply loop_condition_true in Hc as [Hlt _].
    destruct (loop_body send url token st s) as [[st1|e] s2] eqn:Hbody.
    + apply loop_body_round in Hbody as [answer [Hwire [Hec1 Hall1]]].
      set (x := (graph_request url token (request_json st), answer)) in *.
      rewrite failures_one in Hec1.
      intros H. apply IH in H; [|destruct (is_failure x); lia].
      destruct H as [new [Hw [Hle [Ho Hlast]]]].
      exists (x :: new). rewrite Hw, Hwire, <- app_assoc. split; [reflexivity|].
      change (x :: new) with ([x] ++ new).
      rewrite failures_app, failures_one.
      split; [destruct (is_failure x); lia|]. split.
      * destruct o as [st'|e]; [|destruct (is_failure x); lia].
        destruct Ho as [Ho1 Ho2]. split; [destruct (is_failure x); lia|].
        rewrite Ho2, Hall1. simpl. now rewrite <- app_assoc.
      * intros _ Htot. destruct new as [|y new].
        -- exists [], x. split; [reflexivity|].
           unfold failures in Htot. simpl in Htot.
           destruct (is_failure x); [reflexivity|lia].
        -- destruct Hlast as [earlier [z [Heq Hz]]]; [discriminate| |].
           { destruct (is_failure x); lia. }
           exists (x :: earlier), z. rewrite Heq. auto.
    + apply loop_body_round in Hbody as [answer [Hwire Hf]].
      intros [= <- <-]. eexists [_]. split; [exact Hwire|]. rewrite Hf.
      split; [lia|]. split; [lia|]. intros _ Htot. lia.
  - intros [= <- <-]. exists []. rewrite app_nil_r. unfold failures. simpl.
    split; [reflexivity|]. split; [lia|].
    split; [split; [lia | now rewrite app_nil_r]|]. intros H. now destruct H.
  - intros [= <- <-]. exists []. rewrite app_nil_r. unfold failures. simpl.
    split; [reflexivity|]. split; [lia|]. split.
    + revert Hc. unfold loop_condition, max_errors.
      destruct (Z.ltb_spec (error_count st) 3); [lia | discriminate].
    + intros H. now destruct H.
Qed.


End ErrorBudget.




(** ** Termination of the pagination loop *)

Section Convergence.

Context {W : Type} (send : W -> request -> outcome response * W).
Context (url token : string).
Implicit Types (st : fetch_state) (s : sys W).

Lemma paginate_settles remaining s0 :
  answers_settle send url token s0 remaining ->
  forall (budget p : nat) st s,
    fetch_reaches send url token s0 st s ->
    error_count st <= 3 ->
    (exists prior, request_json st = request_json_with prior) ->
    (exists count,
        collection_count st = JNum count
        /\ Z.of_nat (length (all_collections st)) <= count) ->
    3 - error_count st <= Z.of_nat budget ->
    remaining st (net s) = p ->
    exists fuel st' s',
      paginate send fuel url token st s = Some (Return st', s')
      /\ (collection_count st' = JNum (Z.of_nat (length (all_collections st')))
          \/ error_count st' = 3).
Proof.
  intros Hsrv. induction budget as [|budget IHb].
  { intros p st s _ He _ _ Hb _. exists 1%nat, st, s.
    rewrite paginate_stop; [|apply loop_condition_budget; lia].
    split; [reflexivity|]. right. lia. }
  induction p as [p IHp] using lt_wf_ind.
  intros st s Hreach He [prior Hreq] (count & Hcount & Hle) Hb Hp.
  destruct (Z.eq_dec (error_count st) 3) as [H3|H3].
  { exists 1%nat, st, s.
    rewrite paginate_stop; [auto|apply loop_condition_budget; lia]. }
  pose proof (loop_condition_count st s count ltac:(lia) Hcount) as Hc.
  destruct (Z.ltb_spec (Z.of_nat (length (all_collections st))) count)
    as [Hlt|Hge].
  2:{ exists 1%nat, st, s. rewrite paginate_stop; [|exact Hc].
      split; [reflexivity|]. left. rewrite Hcount. f_equal. lia. }
  destruct (Hsrv st s Hreach Hc)
    as (r & w' & Hsend & [Hok | (n & cursor & items & Hpage & Hn)]).
  - pose proof (loop_body_failure send url token st s r w' Hsend Hok) as Hbody.
    destruct (IHb (remaining (after_failure st) w') (after_failure st) _
                (reaches_round _ _ _ _ _ _ _ _ Hreach Hc Hbody))
      as (fuel & st' & s' & Hrun & Hend); simpl; try lia; eauto.
    exists (S fuel), st', s'.
    rewrite (paginate_failure _ _ _ _ _ _ _ _ Hc Hsend Hok). auto.
  - pose proof (loop_body_page send url token st s r w' prior _ cursor items
                  Hreq Hsend Hpage) as Hbody.
    destruct Hn as [Hdone | [Hless Hrem]].
    + exists 2%nat. do 2 eexists.
      rewrite (paginate_page _ _ _ _ _ _ _ _ _ _ _ _ Hc Hreq Hsend Hpage).
      rewrite paginate_stop.
      * split; [reflexivity|]. left. simpl. now rewrite Hdone.
      * rewrite (loop_condition_count _ _ n); simpl; [|lia|reflexivity].
        now rewrite Hdone, Z.ltb_irrefl.
    + destruct (IHp (remaining (after_page st (JNum n) cursor items) w')
                  ltac:(lia) (after_page st (JNum n) cursor items) _
                  (reaches_round _ _ _ _ _ _ _ _ Hreach Hc Hbody))
        as (fuel & st' & s' & Hrun & Hend); simpl; try lia; eauto.
      { exists n. split; [reflexivity|lia]. }
      exists (S fuel), st', s'.
      rewrite (paginate_page _ _ _ _ _ _ _ _ _ _ _ _ Hc Hreq Hsend Hpage).
      auto.
Qed.

End Convergence.

(** C6, as the code has it: when every request the loop comes to send is
    answered with a non-success response or with a well-formed page that
    does not bring the accumulator past the total it reports, and the pages
    that leave it below that total cannot go on for ever (each lowers
    [remaining]), the loop ends, with as many items as the total last
    reported or with the error budget of 3 used up, and
    [query_cmr_graph_for_collections] returns the accumulator, for every
    fuel from some fuel on. *)
Theorem query_cmr_graph_converges
    {W} (send : W -> request -> outcome response * W)
    (remaining : fetch_state -> W -> nat)
    (environment url token : string) (s : sys W) :
  environment_parameter graphql environment = Return url ->
  answers_settle send url token s remaining ->
  fetch_converges send environment token s
  /\ exists fuel st' s',
      (collection_count st' = JNum (Z.of_nat (length (all_collections st')))
       \/ error_count st' = 3)
      /\ forall fuel', (fuel <= fuel')%nat ->
          paginate send fuel' url token initial_fetch_state s
          = Some (Return st', s')
          /\ query_cmr_graph_for_collections send fuel' environment token s
             = Some (Return (all_collections st'), s').
Proof.
  intros Hurl Hsrv.
  destruct (paginate_settles send url token remaining s Hsrv 3
              (remaining initial_fetch_state (net s)) initial_fetch_state s)
    as (fuel & st' & s' & Hrun & Hend); simpl; try lia; eauto.
  { constructor. }
  { exists None. reflexivity. }
  { exists 1. split; [reflexivity|lia]. }
  split.
  - exists fuel, url, st', s'. auto.
  - exists fuel, st', s'. split; [exact Hend|]. intros fuel' Hle.
    pose proof (paginate_more _ _ _ _ _ _ _ Hrun fuel' Hle) as Hrun'.
    split; [exact Hrun'|].
    unfold query_cmr_graph_for_collections. now rewrite Hurl, Hrun'.
Qed.

Lemma stalling_paginate (url token : string) (fuel : nat) st s :
  error_count st = 0 ->
  all_collections st = [] ->
  (exists n, 0 < n /\ collection_count st = JNum n) ->
  (exists cursor, request_json st = request_json_with cursor) ->
  paginate stalling_send fuel url token st s = None.
Proof.
  revert st s. induction fuel as [|fuel IH];
    intros st s Hec Hall [n [Hn Hcount]] [cursor Hreq]; [reflexivity|].
  erewrite (paginate_page stalling_send url token fuel st s _ _ cursor);
    [ | | exact Hreq | reflexivity | apply successful_graph_page ].
  - apply IH; simpl.
    + exact Hec.
    + now rewrite Hall.
    + exists 5. split; [lia | reflexivity].
    + eexists. reflexivity.
  - rewrite (loop_condition_count st s n); [|lia|exact Hcount].
    rewrite Hall. change (Z.of_nat (length [])) with 0.
    now rewrite (proj2 (Z.ltb_lt 0 n) Hn).
Qed.

(** C6, as stated, fails: against a server that keeps answering with an empty
    page the loop never ends, whatever the fuel; against a server that sends
    two items while reporting a total of one, it ends with two items, not
    one, and no error counted; against a server that answers 200 without
    [data], it ends with a [KeyError]. *)
Lemma query_cmr_graph_may_not_converge :
  (forall fuel,
      query_cmr_graph_for_collections stalling_send fuel "prod" "token" quiet
      = None)
  /\ ~ fetch_converges stalling_send "prod" "token" quiet
  /\ ~ fetch_converges overshooting_send "prod" "token" quiet
  /\ ~ fetch_converges erroring_send "prod" "token" quiet.
Proof.
  assert (Hstall : forall fuel url,
             paginate stalling_send fuel url "token" initial_fetch_state quiet
             = None).
  { intros fuel url. apply stalling_paginate; simpl.
    - reflexivity.
    - reflexivity.
    - exists 1. split; [lia | reflexivity].
    - exists None. reflexivity. }
  split; [|split; [|split]].
  - intros fuel. unfold query_cmr_graph_for_collections. simpl.
    now rewrite Hstall.
  - intros (fuel & url & st' & s' & _ & Hrun & _). now rewrite Hstall in Hrun.
  - intros (fuel & url & st' & s' & [= <-] & Hrun & Hend).
    destruct fuel as [|[|fuel]]; [discriminate Hrun | discriminate Hrun |].
    assert (H2 : exists result,
               paginate overshooting_send 2
                 "https://graphql.earthdata.nasa.gov/api" "token"
                 initial_fetch_state quiet = Some result
               /\ exists st2 s2, result = (Return st2, s2)
                                 /\ collection_count st2 = JNum 1
                                 /\ all_collections st2 = [JObj []; JObj []]
                                 /\ error_count st2 = 0).
    { eexists. split; [reflexivity|]. do 2 eexists.
      split; [reflexivity|]. repeat split. }
    destruct H2 as (result & H2 & st2 & s2 & -> & Hc & Ha & He).
    rewrite (paginate_more _ _ _ _ _ _ _ H2 (S (S fuel)) ltac:(lia)) in Hrun.
    injection Hrun as <- <-. rewrite Hc, Ha, He in Hend.
    destruct Hend as [H|H]; discriminate H.
  - intros (fuel & url & st' & s' & [= <-] & Hrun & _).
    destruct fuel as [|fuel]; [discriminate Hrun|].
    assert (H1 : exists s1,
               paginate erroring_send 1
                 "https://graphql.earthdata.nasa.gov/api" "token"
                 initial_fetch_state quiet = Some (Raise KeyError, s1)).
    { eexists. reflexivity. }
    destruct H1 as [s1 H1].
    rewrite (paginate_more _ _ _ _ _ _ _ H1 (S fuel) ltac:(lia)) in Hrun.
    discriminate Hrun.
Qed.

Lemma settling_script_states st s :
  fetch_reaches mock_send uat_graphql "token" (snd settling_start) st s ->
  exists n, (n <= 4)%nat /\ (st, s) = Nat.iter n next_round settling_start.
Proof.
  induction 1 as [|st s st' s' _ (n & Hn & E) Hc Hbody].
  - exists 0%nat. split; [lia | reflexivity].
  - assert (E1 : st = fst (Nat.iter n next_round settling_start))
      by now rewrite <- E.
    assert (E2 : s = snd (Nat.iter n next_round settling_start))
      by now rewrite <- E.
    subst st s.
    destruct (Nat.eq_dec n 4%nat) as [-> | Hne].
    { vm_compute in Hc. discriminate Hc. }
    exists (S n). split; [lia|].
    change (Nat.iter (S n) next_round settling_start)
      with (next_round (Nat.iter n next_round settling_start)).
    unfold next_round at 1. now rewrite Hbody.
Qed.

Lemma settling_script_settles :
  answers_settle mock_send uat_graphql "token" (snd settling_start)
    (fun _ script => length script).
Proof.
  intros st s Hreach Hc.
  destruct (settling_script_states st s Hreach) as (n & Hn & E).
  assert (E1 : st = fst (Nat.iter n next_round settling_start))
    by now rewrite <- E.
  assert (E2 : s = snd (Nat.iter n next_round settling_start))
    by now rewrite <- E.
  subst st s. clear E Hreach.
  destruct n as [|[|[|[|[|n]]]]]; [| | | | | lia].
  - exists (response_200 (graph_page 3 (JStr "c1") [JObj []; JObj []])).
    eexists. split; [reflexivity|]. right.
    exists 3, (JStr "c1"), [JObj []; JObj []].
    split; [apply successful_graph_page|]. right.
    split; [reflexivity | vm_compute; lia].
  - exists response_500. eexists. split; [reflexivity|]. now left.
  - exists (response_200 (graph_page 3 (JStr "c2") [])).
    eexists. split; [reflexivity|]. right. exists 3, (JStr "c2"), [].
    split; [apply successful_graph_page|]. right.
    split; [reflexivity | vm_compute; lia].
  - exists (response_200 (graph_page 3 JNull [JObj []])).
    eexists. split; [reflexivity|]. right. exists 3, JNull, [JObj []].
    split; [apply successful_graph_page|]. now left.
  - vm_compute in Hc. discriminate Hc.
Qed.

Lemma empty_catalog_settles :
  answers_settle empty_catalog_send uat_graphql "token" quiet (fun _ _ => 0%nat).
Proof.
  assert (Hstates : forall st s,
             fetch_reaches empty_catalog_send uat_graphql "token" quiet st s ->
             (st = initial_fetch_state /\ s = quiet)
             \/ loop_condition st s = (Return false, s)).
  { induction 1 as [|st s st' s' _ IH Hc Hbody]; [now left|].
    destruct IH as [[-> ->] | Hstop]; [|congruence].
    right. injection Hbody as <- <-. reflexivity. }
  intros st s Hreach Hc.
  destruct (Hstates st s Hreach) as [[-> ->] | Hstop]; [|congruence].
  exists (response_200 (graph_page 0 JNull [])), tt.
  split; [reflexivity|]. right. exists 0, JNull, [].
  split; [apply successful_graph_page | now left].
Qed.

Lemma query_cmr_graph_converges_witness :
  fetch_converges mock_send "uat" "token" (mkSys [] settling_script [] ∅)
  /\ fetch_converges empty_catalog_send "uat" "token" quiet.
Proof.
  split.
  - apply (query_cmr_graph_converges mock_send (fun _ script => length script)
             "uat" uat_graphql "token" (mkSys [] settling_script [] ∅) eq_refl).
    exact settling_script_settles.
  - apply (query_cmr_graph_converges empty_catalog_send (fun _ _ => 0%nat)
             "uat" uat_graphql "token" quiet eq_refl).
    exact empty_catalog_settles.
Defined.

(** ** Computations that leave the system alone *)

Lemma preserving_lift {W A} (o : outcome A) : state_preserving (W := W) (lift o).
Proof. intros s. now exists o. Qed.

Lemma preserving_ret {W A} (a : A) : state_preserving (W := W) (ret a).
Proof. intros s. now exists (Return a). Qed.

Lemma preserving_raise {W A} (e : exn) :
  state_preserving (W := W) (A := A) (raise e).
Proof. intros s. now exists (Raise e). Qed.

Lemma preserving_bind {W A B} (m : M W A) (k : A -> M W B) :
  state_preserving m -> (forall a, state_preserving (k a)) ->
  state_preserving (bind m k).
Proof.
  intros Hm Hk s. unfold bind. destruct (Hm s) as [[a|e] ->].
  - apply Hk.
  - now exists (Raise e).
Qed.

Lemma preserving_try_except {W A} (m : M W A) catches (handler : exn -> M W A) :
  state_preserving m -> (forall e, state_preserving (handler e)) ->
  state_preserving (try_except m catches handler).
Proof.
  intros Hm Hh s. unfold try_except. destruct (Hm s) as [[a|e] ->].
  - now exists (Return a).
  - destruct (catches e); [apply Hh | now exists (Raise e)].
Qed.

Lemma preserving_comprehension_if {W} (p : json -> M W bool) xs :
  (forall x, state_preserving (p x)) ->
  state_preserving (comprehension_if p xs).
Proof.
  intros Hp. induction xs as [|x xs IH]; simpl.
  - apply preserving_ret.
  - apply preserving_bind; [apply Hp|]. intros b.
    apply preserving_bind; [exact IH|]. intros tail. apply preserving_ret.
Qed.

Lemma preserving_comprehension {W} (f : json -> M W json) xs :
  (forall x, state_preserving (f x)) ->
  state_preserving (comprehension f xs).
Proof.
  intros Hf. induction xs as [|x xs IH]; simpl.
  - apply preserving_ret.
  - apply preserving_bind; [apply Hf|]. intros y.
    apply preserving_bind; [exact IH|]. intros tail. apply preserving_ret.
Qed.

Ltac preserving :=
  repeat first
    [ apply preserving_lift | apply preserving_ret | apply preserving_raise
    | apply preserving_comprehension_if; intros ?
    | apply preserving_comprehension; intros ?
    | apply preserving_try_except; [|intros ?]
    | apply preserving_bind; [|intros ?] ].

(** ** Mirroring associations *)

Section Mirror.

Context {W : Type} (send : W -> request -> outcome response * W).
Implicit Types (s : sys W).

Lemma http_run q s :
  http send q s
  = (fst (send (net s) q), after_exchange s (snd (send (net s) q)) q
                             (fst (send (net s) q))).
Proof. unfold http, after_exchange. now destruct (send (net s) q). Qed.

Lemma get_associated_collections_run sess base id provider s o s' :
  get_associated_collections send sess base id provider s = (o, s') ->
  s' = after_exchange s (snd (send (net s) (search_request sess base id)))
         (search_request sess base id)
         (fst (send (net s) (search_request sess base id))).
Proof.
  unfold get_associated_collections. unfold bind at 1.
  fold (search_request sess base id). rewrite http_run.
  destruct (fst (send (net s) (search_request sess base id))) as [r|e];
    [|now intros [= _ <-]].
  match goal with
  | |- ?m ?s0 = _ -> _ =>
      assert (Hp : state_preserving m); [|destruct (Hp s0) as [o' ->]]
  end.
  { unfold raise_for_status, associated_in_provider.
    destruct (ok r); preserving. }
  now intros [= _ <-].
Qed.

Lemma create_associations_run sess base id ids s o s' :
  create_associations send sess base id ids s = (o, s') ->
  s' = after_exchange s (snd (send (net s) (create_request sess base id ids)))
         (create_request sess base id ids)
         (fst (send (net s) (create_request sess base id ids)))
  /\ (o = Return tt <->
      successful (fst (send (net s) (create_request sess base id ids))))
  /\ (forall r, fst (send (net s) (create_request sess base id ids)) = Return r ->
                ok r = false -> o = Raise HTTPError).
Proof.
  unfold create_associations. unfold bind.
  fold (create_request sess base id ids). rewrite http_run.
  destruct (fst (send (net s) (create_request sess base id ids))) as [r|e].
  - unfold raise_for_status. destruct (ok r) eqn:Hok.
    + intros [= <- <-]. split; [reflexivity|]. split.
      * split; [intros _; now exists r | reflexivity].
      * intros r' [= <-]. congruence.
    + intros [= <- <-]. split; [reflexivity|]. split.
      * split; [discriminate | intros [r' [[= <-] H]]; congruence].
      * reflexivity.
  - intros [= <- <-]. split; [reflexivity|]. split.
    + split; [discriminate | intros [r' [H _]]; discriminate].
    + discriminate.
Qed.

Lemma remove_associations_run sess base id ids s o s' :
  remove_associations send sess base id ids s = (o, s') ->
  s' = after_exchange s (snd (send (net s) (remove_request sess base id ids)))
         (remove_request sess base id ids)
         (fst (send (net s) (remove_request sess base id ids))).
Proof.
  unfold remove_associations. unfold bind.
  fold (remove_request sess base id ids). rewrite http_run.
  destruct (fst (send (net s) (remove_request sess base id ids))) as [r|e].
  - unfold raise_for_status. destruct (ok r); now intros [= _ <-].
  - now intros [= _ <-].
Qed.

(** The exchanges of one run of [mirror_service_associations], in order. *)
Lemma mirror_service_associations_run token service provider environment
    remove_old s o s' :
  mirror_service_associations send token service provider environment
    remove_old s = (o, s') ->
  exists new,
    wire s' = wire s ++ new
    /\ (new = []
        \/ (exists g, new = [g] /\ req_method (fst g) = GET)
        \/ (exists g c,
               new = [g; c]
               /\ req_method (fst g) = GET /\ req_method (fst c) = POST
               /\ (successful (snd c) -> remove_old = false)
               /\ (forall r, snd c = Return r -> ok r = false ->
                             o = Raise HTTPError))
        \/ (exists g c d base target,
               new = [g; c; d]
               /\ remove_old = true
               /\ table_get environment CMR_URLS = Some base
               /\ table_get environment OPENDAP_CONCEPT_IDS = Some target
               /\ req_method (fst g) = GET
               /\ req_method (fst c) = POST
               /\ req_url (fst c) = associations_url base target
               /\ successful (snd c)
               /\ req_method (fst d) = DELETE
               /\ req_url (fst d) = associations_url base service)).
Proof.
  unfold mirror_service_associations.
  destruct (table_get environment CMR_URLS) as [base|];
    [|intros [= _ <-]; exists []; rewrite app_nil_r; auto].
  destruct (table_get environment OPENDAP_CONCEPT_IDS) as [target|];
    [|intros [= _ <-]; exists []; rewrite app_nil_r; auto].
  unfold bind at 1.
  destruct (get_associated_collections _ _ _ _ _ s) as [[ids|e] s1] eqn:Hget;
    apply get_associated_collections_run in Hget; subst s1.
  2:{ intros [= _ <-]. eexists [_]. split; [reflexivity|].
      right. left. eexists. split; reflexivity. }
  unfold bind at 1.
  match goal with
  | |- context [create_associations ?a ?b ?c ?d ?e ?s1] =>
      destruct (create_associations a b c d e s1) as [[[]|e'] s2] eqn:Hcreate;
      apply create_associations_run in Hcreate as (Hs2 & Hsucc & Hfail);
      subst s2
  end.
  2:{ intros [= <- <-]. eexists [_; _]. simpl.
      rewrite <- app_assoc. split; [reflexivity|].
      right. right. left. do 2 eexists. split; [reflexivity|].
      repeat split.
      - simpl. intros H. apply (proj2 Hsucc) in H. discriminate.
      - simpl. intros r Hr Hok. exact (Hfail r Hr Hok). }
  destruct remove_old.
  - match goal with
    | |- context [remove_associations ?a ?b ?c ?d ?e ?s2] =>
        destruct (remove_associations a b c d e s2) as [o3 s3] eqn:Hremove;
        apply remove_associations_run in Hremove; subst s3
    end.
    intros [= _ <-]. eexists [_; _; _]. simpl.
    rewrite <- !app_assoc. split; [reflexivity|].
    right. right. right. do 3 eexists. exists base, target.
    split; [reflexivity|]. repeat split. simpl. now apply (proj1 Hsucc).
  - intros [= <- <-]. eexists [_; _]. simpl.
    rewrite <- app_assoc. split; [reflexivity|].
    right. right. left. do 2 eexists. split; [reflexivity|].
    repeat split. simpl. intros r Hr Hok. exact (Hfail r Hr Hok).
Qed.

End Mirror.

(** C10: in any run of [mirror_service_associations], a DELETE request is only
    sent when [remove_old_associations] is true, it goes to the associations
    of the source service record, and the POST that created the associations
    on the target service record was sent before it and got a successful
    answer; if the POST gets a non-success response the run ends with
    [HTTPError] and no DELETE is sent; and no DELETE is sent at all when
    [remove_old_associations] is false. *)
Theorem mirror_removes_only_after_create
    {W} (send : W -> request -> outcome response * W)
    (token service provider environment : string) (remove_old : bool)
    (s : sys W) (o : outcome unit) (s' : sys W) :
  mirror_service_associations send token service provider environment
    remove_old s = (o, s') ->
  exists new,
    wire s' = wire s ++ new
    /\ (forall before x after,
           new = before ++ x :: after ->
           req_method (fst x) = DELETE ->
           remove_old = true
           /\ exists base target c,
               table_get environment CMR_URLS = Some base
               /\ table_get environment OPENDAP_CONCEPT_IDS = Some target
               /\ req_url (fst x) = associations_url base service
               /\ In c before
               /\ req_method (fst c) = POST
               /\ req_url (fst c) = associations_url base target
               /\ successful (snd c))
    /\ (forall c r,
           In c new -> req_method (fst c) = POST ->
           snd c = Return r -> ok r = false ->
           o = Raise HTTPError
           /\ forall x, In x new -> req_method (fst x) <> DELETE)
    /\ (remove_old = false ->
        forall x, In x new -> req_method (fst x) <> DELETE).
Proof.
  intros Hrun. apply mirror_service_associations_run in Hrun.
  destruct Hrun as [new [Hwire Hcases]]. exists new. split; [exact Hwire|].
  destruct Hcases
    as [-> | [(g & -> & Hg)
           | [(g & c & -> & Hg & Hc & Hsucc & Hfail)
             | (g & c & d & base & target & -> & Hold & Hbase & Htarget
                & Hg & Hc & Hcurl & Hcok & Hd & Hdurl)]]].
  - split; [|split].
    + intros [|? ?] x after H; discriminate H.
    + intros c r [].
    + intros _ x [].
  - split; [|split].
    + intros [|? [|? ?]] x after H Hx; try discriminate H.
      injection H as <- _. congruence.
    + intros c r [<- | []] Hc. congruence.
    + intros _ x [<- | []]. congruence.
  - split; [|split].
    + intros [|? [|? [|? ?]]] x after H Hx; try discriminate H.
      * injection H as <- _. congruence.
      * injection H as _ <- _. congruence.
    + intros c' r [<- | [<- | []]] Hc' Hr Hok; [congruence|].
      split; [exact (Hfail r Hr Hok)|].
      intros x [<- | [<- | []]]; congruence.
    + intros _ x [<- | [<- | []]]; congruence.
  - split; [|split].
    + intros [|? [|? [|? [|? ?]]]] x after H Hx; try discriminate H.
      * injection H as <- _. congruence.
      * injection H as _ <- _. congruence.
      * injection H as <- <- <- _. split; [exact Hold|].
        exists base, target, c. repeat split; auto. right. now left.
    + intros c' r [<- | [<- | [<- | []]]] Hc' Hr Hok; try congruence.
      destruct Hcok as [r' [Hr' Hok']]. congruence.
    + intros Hfalse. congruence.
Qed.

Lemma mirror_removes_only_after_create_witness :
  fst (mirror_service_associations refusing_send "token" "S2009180097-POCLOUD"
         "POCLOUD" "prod" true quiet) = Raise HTTPError
  /\ exists new,
      wire (snd (mirror_service_associations refusing_send "token"
                   "S2009180097-POCLOUD" "POCLOUD" "prod" true quiet))
      = wire quiet ++ new
      /\ forall x, In x new -> req_method (fst x) <> DELETE.
Proof.
  split; [reflexivity|].
  destruct (mirror_removes_only_after_create refusing_send "token"
              "S2009180097-POCLOUD" "POCLOUD" "prod" true quiet
              (fst (mirror_service_associations refusing_send "token"
                      "S2009180097-POCLOUD" "POCLOUD" "prod" true quiet))
              (snd (mirror_service_associations refusing_send "token"
                      "S2009180097-POCLOUD" "POCLOUD" "prod" true quiet))
              eq_refl)
    as [new [Hwire [_ [Hfail _]]]].
  exists new. split; [exact Hwire|].
  change (wire quiet ++ new) with new in Hwire. subst new.
  eapply (Hfail _ _ (or_intror (or_introl eq_refl)) eq_refl eq_refl eq_refl).
Defined.

(** ** The provider filter *)

Lemma lower_app (s t : string) : lower (s +:+ t) = lower s +:+ lower t.
Proof.
  induction s; [reflexivity|]. rewrite app_cons. simpl. rewrite app_cons.
  now f_equal.
Qed.

Lemma lower_length (s : string) : String.length (lower s) = String.length s.
Proof. induction s; simpl; auto. Qed.

Lemma lower_drop (n : nat) (s : string) :
  lower (str_drop n s) = str_drop n (lower s).
Proof.
  revert s. induction n as [|n IH]; intros [|c s]; simpl; auto.
Qed.

Lemma endswith_lower (collection_provider concept_id : string) :
  endswith (lower concept_id) (lower collection_provider) = true
  <-> ends_with_provider collection_provider concept_id.
Proof.
  split.
  - unfold endswith. rewrite andb_true_iff, String.eqb_eq, !lower_length.
    intros [_ H]. rewrite <- lower_drop in H.
    destruct (str_take_drop
                (String.length concept_id - String.length collection_provider)
                concept_id) as [before Hsplit].
    exists before, (str_drop (String.length concept_id
                              - String.length collection_provider) concept_id).
    split; [exact Hsplit | exact H].
  - intros (before & suffix & -> & Hsame). apply endswith_spec.
    exists (lower before). rewrite lower_app. now rewrite Hsame.
Qed.

#[export] Instance ends_with_provider_dec collection_provider concept_id :
  Decision (ends_with_provider collection_provider concept_id).
Proof.
  refine (cast_if (decide (endswith (lower concept_id)
                             (lower collection_provider) = true)));
    abstract (now rewrite <- endswith_lower).
Defined.

Lemma filter_ends_with_provider collection_provider (ids : list string) :
  filter (ends_with_provider collection_provider) ids
  = List.filter (fun concept_id =>
                   endswith (lower concept_id) (lower collection_provider)) ids.
Proof.
  induction ids as [|concept_id ids IH]; [reflexivity|].
  rewrite filter_cons. simpl.
  destruct (endswith (lower concept_id) (lower collection_provider)) eqn:H.
  - rewrite decide_True by now apply endswith_lower. now f_equal.
  - rewrite decide_False; [exact IH|].
    intros Hp. apply endswith_lower in Hp. congruence.
Qed.

Section ProviderFilter.

Context {W : Type} (send : W -> request -> outcome response * W).
Context (loads : string -> outcome json).
Implicit Types (s : sys W).

Lemma provider_comprehension_records collection_provider records ids s :
  Forall2 has_concept_id records ids ->
  provider_comprehension (lower collection_provider) records s
  = (Return (map JStr (filter (ends_with_provider collection_provider) ids)), s).
Proof.
  rewrite filter_ends_with_provider.
  induction 1 as [|record concept_id records ids (fields & -> & Hid) _ IH];
    [reflexivity|].
  simpl. unfold bind at 1. unfold in_provider. run. rewrite Hid. simpl.
  destruct (endswith (lower concept_id) (lower collection_provider)).
  - now rewrite IH.
  - exact IH.
Qed.

Lemma associated_comprehension collection_provider (ids : list string) s :
  comprehension_if (associated_in_provider (lower collection_provider))
    (map JStr ids) s
  = (Return (map JStr (filter (ends_with_provider collection_provider) ids)), s).
Proof.
  rewrite filter_ends_with_provider.
  induction ids as [|concept_id ids IH]; [reflexivity|].
  simpl. unfold bind at 1.
  change (associated_in_provider (lower collection_provider) (JStr concept_id) s)
    with (Return (endswith (lower concept_id) (lower collection_provider)), s).
  unfold bind at 1. rewrite IH.
  now destruct (endswith (lower concept_id) (lower collection_provider)).
Qed.

End ProviderFilter.

(** C9: both provider filters return, in the order of the input, exactly the
    concept IDs that end with the provider, letter case apart:
    [get_provider_collections] over the records of the filtered snapshot,
    [get_associated_collections] over the collections associated with the
    service record the catalog answers with.  For the concept IDs
    "C1-POCLOUD", "C2-OTHER", "C3-POCLOUD" and the provider "POCLOUD", in
    either case, these are "C1-POCLOUD" and "C3-POCLOUD". *)
Theorem provider_filter_exact
    {W} (send : W -> request -> outcome response * W)
    (loads : string -> outcome json) (collection_provider : string)
    (s : sys W) :
  (forall environment text records ids,
      files s !! ("opendap_collections_" +:+ environment +:+ ".json")
      = Some text ->
      loads text = Return (JArr records) ->
      Forall2 has_concept_id records ids ->
      get_provider_collections loads collection_provider environment s
      = (Return (map JStr (filter (ends_with_provider collection_provider) ids)),
         s))
  /\ (forall authenticated_session base_cmr_url umm_s_concept_id r w' body ids,
         send (net s)
           (search_request authenticated_session base_cmr_url umm_s_concept_id)
         = (Return r, w') ->
         ok r = true ->
         json_body r = Return body ->
         service_record_with body ids ->
         get_associated_collections send authenticated_session base_cmr_url
           umm_s_concept_id collection_provider s
         = (Return (map JStr (filter (ends_with_provider collection_provider)
                                ids)),
            after_exchange s w'
              (search_request authenticated_session base_cmr_url
                 umm_s_concept_id)
              (Return r)))
  /\ filter (ends_with_provider "POCLOUD")
       ["C1-POCLOUD"; "C2-OTHER"; "C3-POCLOUD"]
     = ["C1-POCLOUD"; "C3-POCLOUD"]
  /\ filter (ends_with_provider "pocloud")
       ["C1-POCLOUD"; "C2-OTHER"; "C3-POCLOUD"]
     = ["C1-POCLOUD"; "C3-POCLOUD"].
Proof.
  split; [|split; [|split]].
  - intros environment text records ids Hfile Hloads Hrecords.
    unfold get_provider_collections, read_all_collections.
    unfold bind at 1. unfold load_file. rewrite Hfile, Hloads.
    unfold bind at 1. simpl.
    now apply provider_comprehension_records.
  - intros sess base id r w' body ids Hsend Hok Hbody
      (fields & service & others & meta & associations
       & -> & Hitems & Hmeta & Hassoc & Hcolls).
    unfold get_associated_collections. unfold bind at 1.
    fold (search_request sess base id). rewrite http_run, Hsend. simpl.
    unfold bind at 1. unfold raise_for_status. rewrite Hok.
    unfold ret at 1.
    unfold bind at 1. unfold try_except. rewrite Hbody. run.
    rewrite Hitems. simpl. rewrite Hmeta. simpl. rewrite Hassoc. simpl.
    rewrite Hcolls. simpl.
    apply associated_comprehension.
  - rewrite filter_ends_with_provider. reflexivity.
  - rewrite filter_ends_with_provider. reflexivity.
Qed.

(** ** The filtered snapshot *)

Lemma get_formatted_collection_run {W} (collection record : json) (s : sys W) :
  formatted_record_of collection record ->
  get_formatted_collection collection s = (Return record, s).
Proof.
  intros (fields & sn & v & cid & -> & Hsn & Hv & Hcid & ->).
  unfold get_formatted_collection. run. now rewrite Hsn, Hv, Hcid.
Qed.

Lemma comprehension_formatted {W} (collections : list json) (s : sys W) :
  Forall identified collections ->
  exists records,
    Forall2 formatted_record_of collections records
    /\ comprehension get_formatted_collection collections s
       = (Return records, s).
Proof.
  induction 1 as [|collection collections [record Hrecord] _ IH].
  - exists []. split; [constructor | reflexivity].
  - destruct IH as [records [Hrecords Hrun]].
    exists (record :: records). split; [now constructor|].
    simpl. unfold bind at 1.
    rewrite (get_formatted_collection_run _ _ s Hrecord).
    unfold bind at 1. now rewrite Hrun.
Qed.

(** C8: with a [json.dump] / [json.load] pair that reads back what it wrote,
    saving collections that each contain [shortName], [version] and
    [conceptId] with [save_opendap_collections] and reading the snapshot of
    the same environment back with [read_all_collections] gives, in the same
    order, the Formatted Collection Record of each collection. *)
Theorem snapshot_round_trip
    {W} (loads : string -> outcome json) (dumps : json -> string)
    (collections : list json) (environment : string) (s : sys W) :
  (forall value, loads (dumps value) = Return value) ->
  Forall identified collections ->
  exists records s',
    Forall2 formatted_record_of collections records
    /\ save_opendap_collections dumps collections environment s
       = (Return tt, s')
    /\ files s'
       = <["opendap_collections_" +:+ environment +:+ ".json"
           := dumps (JArr records)]> (files s)
    /\ read_all_collections loads environment s' = (Return (JArr records), s').
Proof.
  intros Hcodec Hcollections.
  destruct (comprehension_formatted collections s Hcollections)
    as [records [Hrecords Hrun]].
  exists records. eexists. split; [exact Hrecords|].
  unfold save_opendap_collections. unfold bind. rewrite Hrun.
  unfold dump_file. split; [reflexivity|]. split; [reflexivity|].
  unfold read_all_collections, load_file. simpl.
  now rewrite lookup_insert_eq, Hcodec.
Qed.

(** ** JSON text: reading back what was written *)

Module JsonTextFacts.

Import JsonText.

Lemma str_app_nil_r (s : string) : s +:+ "" = s.
Proof. induction s; [reflexivity|]. rewrite app_cons. now f_equal. Qed.

Lemma str_app_assoc (s t u : string) : (s +:+ t) +:+ u = s +:+ t +:+ u.
Proof. induction s; [reflexivity|]. rewrite !app_cons. now f_equal. Qed.

(** *** Json structural induction *)

Section JsonInduction.

Variable P : json -> Prop.
Hypothesis Hnull : P JNull.
Hypothesis Hbool : forall b, P (JBool b).
Hypothesis Hnum : forall n, P (JNum n).
Hypothesis Hstr : forall s, P (JStr s).
Hypothesis Harr : forall items, Forall P items -> P (JArr items).
Hypothesis Hobj :
  forall fields, Forall (fun kv => P (snd kv)) fields -> P (JObj fields).

Fixpoint json_induction (v : json) : P v :=
  match v with
  | JNull => Hnull
  | JBool b => Hbool b
  | JNum n => Hnum n
  | JStr s => Hstr s
  | JArr items =>
      Harr items
        ((fix all (l : list json) : Forall P l :=
            match l with
            | [] => List.Forall_nil P
            | x :: l' => List.Forall_cons P x l' (json_induction x) (all l')
            end) items)
  | JObj fields =>
      Hobj fields
        ((fix all (l : list (string * json))
            : Forall (fun kv => P (snd kv)) l :=
            match l with
            | [] => List.Forall_nil _
            | kv :: l' =>
                List.Forall_cons _ kv l' (json_induction (snd kv)) (all l')
            end) fields)
  end.

End JsonInduction.

(** *** Strings *)

Lemma parse_chars_escape_char (c : ascii) (t : string) :
  parse_chars (escape_char c +:+ t)
  = match parse_chars t with
    | Some (text, rest) => Some (String c text, rest)
    | None => None
    end.
Proof.
  destruct c as [[] [] [] [] [] [] [] []]; reflexivity.
Qed.

Lemma parse_chars_escape (s rest : string) :
  parse_chars (escape s +:+ String quote rest) = Some (s, rest).
Proof.
  induction s as [|c s IH]; [reflexivity|].
  simpl. rewrite str_app_assoc, parse_chars_escape_char. now rewrite IH.
Qed.

Lemma parse_chars_print_string (s rest : string) :
  exists tail,
    print_string s +:+ rest = String quote tail
    /\ parse_chars tail = Some (s, rest).
Proof.
  exists (escape s +:+ String quote rest). split.
  - unfold print_string. rewrite app_cons, str_app_assoc. reflexivity.
  - apply parse_chars_escape.
Qed.

(** *** Numbers *)

Lemma string_of_uint_digits (u : Decimal.uint) :
  all_digits (NilEmpty.string_of_uint u) = true.
Proof. induction u; simpl; auto. Qed.

Lemma span_digits_app (digits rest : string) :
  all_digits digits = true -> no_digit_head rest ->
  span_digits (digits +:+ rest) = (digits, rest).
Proof.
  intros Hd Hr. induction digits as [|c digits IH].
  - rewrite app_nil_l. destruct rest as [|c rest]; [reflexivity|].
    simpl in *. now rewrite Hr.
  - simpl in Hd. apply andb_true_iff in Hd as [Hc Hd].
    rewrite app_cons. simpl. rewrite Hc, (IH Hd). reflexivity.
Qed.

Lemma print_nat_head (n : N) :
  exists c tail, print_nat n = String c tail /\ is_digit c = true.
Proof.
  unfold print_nat. pose proof (string_of_uint_digits (N.to_uint n)) as Hd.
  destruct (NilEmpty.string_of_uint (N.to_uint n)) as [|c tail] eqn:Hs.
  - exfalso. apply (f_equal NilEmpty.uint_of_string) in Hs.
    rewrite NilEmpty.usu in Hs. simpl in Hs. injection Hs as Hs.
    pose proof (f_equal N.of_uint Hs) as Hn. rewrite Unsigned.of_to in Hn.
    rewrite Hn in Hs. discriminate Hs.
  - simpl in Hd. apply andb_true_iff in Hd as [Hc _]. eauto.
Qed.

Lemma parse_nat_print (n : N) (rest : string) :
  no_digit_head rest -> parse_nat (print_nat n +:+ rest) = Some (n, rest).
Proof.
  intros Hr. unfold parse_nat.
  rewrite span_digits_app; [|apply string_of_uint_digits|exact Hr].
  destruct (print_nat_head n) as (c & tail & Hs & _). rewrite Hs, <- Hs.
  unfold print_nat. now rewrite NilEmpty.usu, Unsigned.of_to.
Qed.

Lemma parse_int_print (z : Z) (rest : string) :
  no_digit_head rest -> parse_int (print_int z +:+ rest) = Some (z, rest).
Proof.
  intros Hr. unfold print_int. destruct (Z.ltb_spec z 0) as [Hneg|Hpos].
  - rewrite app_cons. simpl. rewrite parse_nat_print by exact Hr.
    rewrite N2Z.inj_abs_N. do 2 f_equal. lia.
  - destruct (print_nat_head (Z.to_N z)) as (c & tail & Hs & Hc).
    pose proof (parse_nat_print (Z.to_N z) rest Hr) as Hparse.
    rewrite Hs in *. rewrite app_cons in *. unfold parse_int.
    destruct c as [[] [] [] [] [] [] [] []]; try discriminate Hc;
      rewrite Hparse, Z2N.id by exact Hpos; reflexivity.
Qed.

Lemma print_int_head (z : Z) :
  exists c tail, print_int z = String c tail /\ number_head c = true.
Proof.
  unfold print_int. destruct (z <? 0).
  - eexists _, _. split; reflexivity.
  - destruct (print_nat_head (Z.to_N z)) as (c & tail & Hs & Hc).
    exists c, tail. split; [exact Hs|]. unfold number_head. now rewrite Hc.
Qed.

(** *** White space *)

Lemma skip_ws_spaces (n : nat) (s : string) :
  skip_ws (spaces n +:+ s) = skip_ws s.
Proof.
  induction n; [reflexivity|].
  change (spaces (S n)) with (String " " (spaces n)). rewrite app_cons.
  exact IHn.
Qed.

Lemma skip_ws_break (level : nat) (s : string) :
  skip_ws (break level +:+ s) = skip_ws s.
Proof. unfold break. rewrite app_cons. simpl. apply skip_ws_spaces. Qed.

Lemma skip_ws_idempotent (s : string) : skip_ws (skip_ws s) = skip_ws s.
Proof.
  induction s as [|c s IH]; [reflexivity|]. simpl.
  destruct (is_space c) eqn:Hc; [exact IH|]. simpl. now rewrite Hc.
Qed.

Lemma parse_value_skip (fuel : nat) (s : string) :
  parse_value fuel (skip_ws s) = parse_value fuel s.
Proof. destruct fuel; [reflexivity|]. simpl. now rewrite skip_ws_idempotent. Qed.

Lemma print_head (level : nat) (v : json) :
  exists c tail, print level v = String c tail /\ value_head c = true.
Proof.
  destruct v as [|[]|z|s|[|x xs]|[|kv xs]];
    try (eexists _, _; split; reflexivity).
  destruct (print_int_head z) as (c & tail & Hs & Hc).
  exists c, tail. split; [exact Hs|]. unfold value_head. now rewrite Hc.
Qed.

Lemma value_head_no_space (c : ascii) :
  value_head c = true -> is_space c = false.
Proof.
  destruct c as [[] [] [] [] [] [] [] []]; try discriminate; reflexivity.
Qed.

(** *** Values *)

Ltac flatten :=
  repeat rewrite str_app_assoc; repeat rewrite app_cons;
  repeat rewrite app_nil_l.

Lemma parse_value_number (fuel : nat) (c : ascii) (s : string) :
  number_head c = true ->
  parse_value (S fuel) (String c s)
  = match parse_int (String c s) with
    | Some (z, rest) => Some (JNum z, rest)
    | None => None
    end.
Proof.
  destruct c as [[] [] [] [] [] [] [] []]; try discriminate; reflexivity.
Qed.

Lemma value_head_not_closing (c : ascii) :
  value_head c = true ->
  (nat_of_ascii c =? 93)%nat = false /\ (nat_of_ascii c =? 125)%nat = false.
Proof.
  destruct c as [[] [] [] [] [] [] [] []]; try discriminate; split; reflexivity.
Qed.

Lemma closes_print (level k : nat) (v : json) (rest : string) :
  closes 93 (break k +:+ print level v +:+ rest) = None
  /\ closes 125 (break k +:+ print level v +:+ rest) = None.
Proof.
  unfold closes. rewrite skip_ws_break.
  destruct (print_head level v) as (c & tail & Hs & Hc).
  rewrite Hs, app_cons. simpl. rewrite (value_head_no_space c Hc).
  destruct (value_head_not_closing c Hc) as [-> ->]. auto.
Qed.

Section Items.

Variable parse : string -> option (json * string).
Variable print_item : json -> string.
Hypothesis parse_skip : forall s, parse (skip_ws s) = parse s.

Lemma parse_break (k : nat) (s : string) : parse (break k +:+ s) = parse s.
Proof using parse_skip.
  now rewrite <- parse_skip, skip_ws_break, parse_skip.
Qed.

Lemma parse_items_break (n k : nat) (s : string) :
  parse_items parse n (break k +:+ s) = parse_items parse n s.
Proof using parse_skip.
  destruct n; [reflexivity|]. simpl. now rewrite parse_break.
Qed.

Lemma parse_more_items (level : nat) (xs : list json) :
  forall x n rest,
    (length xs < n)%nat ->
    parses parse print_item x -> Forall (parses parse print_item) xs ->
    parse_items parse n
      (print_item x +:+ print_more_items print_item level xs +:+ rest)
    = Some (x :: xs, rest).
Proof using parse_skip.
  induction xs as [|y ys IH]; intros x n rest Hn Hx Hxs;
    (destruct n as [|n]; [simpl in Hn; lia|]); simpl parse_items.
  - rewrite Hx.
    + simpl print_more_items. flatten. rewrite skip_ws_break. reflexivity.
    + simpl. flatten. reflexivity.
  - inversion Hxs as [|? ? Hy Hys]; subst. rewrite Hx.
    + simpl print_more_items. flatten. simpl skip_ws. cbv iota.
      rewrite parse_items_break, IH; [reflexivity | simpl in Hn; lia | | ];
        assumption.
    + simpl. flatten. reflexivity.
Qed.

Lemma parse_members_break (n k : nat) (s : string) :
  parse_members parse n (break k +:+ s) = parse_members parse n s.
Proof.
  destruct n; [reflexivity|]. cbn [parse_members]. now rewrite skip_ws_break.
Qed.

Lemma parse_member (kv : string * json) (n : nat) (tail : string) :
  parses parse print_item (snd kv) -> no_digit_head tail ->
  parse_members parse (S n)
    (print_string (fst kv) +:+ ": " +:+ print_item (snd kv) +:+ tail)
  = match skip_ws tail with
    | String "," rest' =>
        match parse_members parse n rest' with
        | Some (kvs, rest'') => Some (kv :: kvs, rest'')
        | None => None
        end
    | String "}" rest' => Some ([kv], rest')
    | _ => None
    end.
Proof using parse_skip.
  destruct kv as [k x]. simpl fst. simpl snd. intros Hx Htail.
  destruct (parse_chars_print_string k (": " +:+ print_item x +:+ tail))
    as (after_quote & Heq & Hparse).
  cbn [parse_members]. rewrite Heq. simpl skip_ws. cbv iota.
  simpl Nat.eqb. cbv iota. rewrite Hparse. flatten. simpl skip_ws. cbv iota.
  change (String " " (print_item x +:+ tail))
    with (spaces 1 +:+ print_item x +:+ tail).
  rewrite <- parse_skip, skip_ws_spaces, parse_skip, (Hx tail Htail).
  reflexivity.
Qed.

Lemma parse_more_members (level : nat) (xs : list (string * json)) :
  forall kv n rest,
    (length xs < n)%nat ->
    parses parse print_item (snd kv) ->
    Forall (fun kv => parses parse print_item (snd kv)) xs ->
    parse_members parse n
      (print_string (fst kv) +:+ ": " +:+ print_item (snd kv)
       +:+ print_more_members print_item level xs +:+ rest)
    = Some (kv :: xs, rest).
Proof using parse_skip.
  induction xs as [|y ys IH]; intros kv n rest Hn Hx Hxs;
    (destruct n as [|n]; [simpl in Hn; lia|]).
  - rewrite parse_member; [|exact Hx|simpl; flatten; reflexivity].
    simpl print_more_members. flatten. rewrite skip_ws_break. reflexivity.
  - inversion Hxs as [|? ? Hy Hys]; subst.
    rewrite parse_member; [|exact Hx|simpl; flatten; reflexivity].
    simpl print_more_members. flatten. simpl skip_ws. cbv iota.
    rewrite parse_members_break.
    specialize (IH y n rest ltac:(simpl in Hn; lia) Hy Hys).
    repeat rewrite str_app_assoc in IH. repeat rewrite app_cons in IH.
    repeat rewrite app_nil_l in IH.
    now rewrite IH.
Qed.

End Items.

Lemma list_sum_size_length {A} (f : A -> nat) (l : list A) :
  (length l <= list_sum (map (fun x => S (f x)) l))%nat.
Proof. induction l; simpl; lia. Qed.

Lemma list_sum_size_bound {A} (f : A -> nat) (l : list A) (x : A) :
  In x l -> (f x < list_sum (map (fun x => S (f x)) l))%nat.
Proof.
  induction l as [|y l IH]; simpl; [contradiction|].
  intros [-> | H]; [lia | specialize (IH H); lia].
Qed.

(** Parsing what was printed gives the value back, with fuel for every
    nesting level and every item. *)
Lemma parse_print (v : json) :
  forall level fuel rest,
    (json_size v <= fuel)%nat -> no_digit_head rest ->
    parse_value fuel (print level v +:+ rest) = Some (v, rest).
Proof.
  induction v as [|b|z|s|items IH|fields IH] using json_induction;
    intros level [|fuel] rest Hfuel Hrest; try (simpl in Hfuel; lia).
  - reflexivity.
  - destruct b; reflexivity.
  - destruct (print_int_head z) as (c & tail & Hs & Hc).
    pose proof (parse_int_print z rest Hrest) as Hparse.
    simpl print. rewrite Hs in *. rewrite app_cons in *.
    now rewrite (parse_value_number fuel c _ Hc), Hparse.
  - destruct (parse_chars_print_string s rest) as (tail & Heq & Hparse).
    simpl print. rewrite Heq. cbn [parse_value]. simpl skip_ws. cbv iota.
    simpl Nat.eqb. cbv iota. now rewrite Hparse.
  - destruct items as [|x xs]; [reflexivity|].
    simpl print. flatten. cbn [parse_value]. simpl skip_ws. cbv iota.
    simpl Nat.eqb. cbv iota.
    destruct (closes_print (S level) (S level) x
                (print_more_items (print (S level)) level xs +:+ rest))
      as [-> _].
    rewrite parse_items_break by apply parse_value_skip.
    simpl in Hfuel.
    rewrite (parse_more_items (parse_value fuel) (print (S level))
               (parse_value_skip fuel) level xs x fuel rest).
    + reflexivity.
    + pose proof (list_sum_size_length json_size xs). lia.
    + inversion IH as [|? ? Hx _]; subst. intros r Hr. apply Hx; [lia|exact Hr].
    + inversion IH as [|? ? _ Hxs]; subst.
      apply Forall_forall. intros y Hy r Hr.
      rewrite Forall_forall in Hxs. apply Hxs; [exact Hy| |exact Hr].
      apply list_elem_of_In in Hy.
      pose proof (list_sum_size_bound json_size xs y Hy). lia.
  - destruct fields as [|kv xs]; [reflexivity|].
    simpl print. flatten. cbn [parse_value]. simpl skip_ws. cbv iota.
    simpl Nat.eqb. cbv iota.
    assert (Hopen : closes 125
                      (break (S level)
                       +:+ print_string kv.1
                       +:+ String ":" (String " " (print (S level) kv.2
                       +:+ print_more_members (print (S level)) level xs
                       +:+ rest))) = None).
    { unfold closes. rewrite skip_ws_break. reflexivity. }
    rewrite Hopen. rewrite parse_members_break.
    simpl in Hfuel.
    pose proof (parse_more_members (parse_value fuel) (print (S level))
                  (parse_value_skip fuel) level xs kv fuel rest) as Hmembers.
    repeat rewrite str_app_assoc in Hmembers.
    repeat rewrite app_cons in Hmembers.
    repeat rewrite app_nil_l in Hmembers.
    rewrite Hmembers.
    + reflexivity.
    + pose proof (list_sum_size_length (fun kv => json_size (snd kv)) xs). lia.
    + inversion IH as [|? ? Hx _]; subst. intros r Hr. apply Hx; [lia|exact Hr].
    + inversion IH as [|? ? _ Hxs]; subst.
      apply Forall_forall. intros y Hy r Hr.
      rewrite Forall_forall in Hxs. apply Hxs; [exact Hy| |exact Hr].
      apply list_elem_of_In in Hy.
      pose proof (list_sum_size_bound (fun kv => json_size (snd kv)) xs y Hy). lia.
Qed.

Lemma more_items_length (level : nat) (xs : list json) :
  Forall (fun x => forall level,
              (json_size x <= String.length (print level x))%nat) xs ->
  (list_sum (map (fun x => S (json_size x)) xs)
   <= String.length (print_more_items (print (S level)) level xs))%nat.
Proof.
  induction 1 as [|y ys Hy _ IH]; simpl; [lia|].
  rewrite !str_length_app. simpl. specialize (Hy (S level)). lia.
Qed.

Lemma more_members_length (level : nat) (xs : list (string * json)) :
  Forall (fun kv => forall level,
              (json_size (snd kv) <= String.length (print level (snd kv)))%nat) xs ->
  (list_sum (map (fun kv => S (json_size (snd kv))) xs)
   <= String.length (print_more_members (print (S level)) level xs))%nat.
Proof.
  induction 1 as [|y ys Hy _ IH]; simpl; [lia|].
  rewrite !str_length_app. simpl. specialize (Hy (S level)). lia.
Qed.

Lemma size_le_length (v : json) :
  forall level, (json_size v <= String.length (print level v))%nat.
Proof.
  induction v as [|b|z|s|items IH|fields IH] using json_induction;
    intros level.
  - simpl. lia.
  - destruct b; simpl; lia.
  - destruct (print_int_head z) as (c & tail & Hs & _).
    simpl. rewrite Hs. simpl. lia.
  - simpl. lia.
  - destruct items as [|x xs]; [simpl; lia|].
    inversion IH as [|? ? Hx Hxs]; subst.
    pose proof (more_items_length level xs Hxs). specialize (Hx (S level)).
    simpl. rewrite !str_length_app. simpl. lia.
  - destruct fields as [|kv xs]; [simpl; lia|].
    inversion IH as [|? ? Hx Hxs]; subst.
    pose proof (more_members_length level xs Hxs). specialize (Hx (S level)).
    simpl. rewrite !str_length_app. simpl. lia.
Qed.

(** Reading back what [dumps] wrote. *)
Lemma loads_dumps (v : json) : loads (dumps v) = Return v.
Proof.
  unfold loads, dumps.
  pose proof (parse_print v 0 (S (String.length (print 0 v))) ""
                ltac:(pose proof (size_le_length v 0); lia) I) as H.
  rewrite str_app_nil_r in H. now rewrite H.
Qed.

End JsonTextFacts.

(** ** The snapshot on disk *)

Lemma snapshot_round_trip_witness :
  exists records s',
    Forall2 formatted_record_of
      [collection_of "A" "C1-POCLOUD" []; collection_of "B" "C2-OTHER" []]
      records
    /\ save_opendap_collections JsonText.dumps
         [collection_of "A" "C1-POCLOUD" []; collection_of "B" "C2-OTHER" []]
         "prod" quiet
       = (Return tt, s')
    /\ files s'
       = <["opendap_collections_" +:+ "prod" +:+ ".json"
           := JsonText.dumps (JArr records)]> (files quiet)
    /\ read_all_collections JsonText.loads "prod" s'
       = (Return (JArr records), s').
Proof.
  apply (snapshot_round_trip JsonText.loads JsonText.dumps
           [collection_of "A" "C1-POCLOUD" []; collection_of "B" "C2-OTHER" []]
           "prod" quiet JsonTextFacts.loads_dumps).
  repeat constructor; eexists; unfold formatted_record_of, collection_of;
    repeat eexists.
Defined.

Lemma provider_filter_exact_witness :
  get_provider_collections JsonText.loads "pocloud" "prod" with_snapshot
  = (Return [JStr "C1-POCLOUD"; JStr "C3-POCLOUD"], with_snapshot).
Proof.
  destruct (provider_filter_exact failing_send JsonText.loads "pocloud"
              with_snapshot) as [Hfile [_ [_ Hexample]]].
  rewrite (Hfile "prod" (JsonText.dumps (JArr snapshot_records))
             snapshot_records ["C1-POCLOUD"; "C2-OTHER"; "C3-POCLOUD"]).
  - now rewrite Hexample.
  - apply lookup_singleton_eq.
  - apply JsonTextFacts.loads_dumps.
  - repeat constructor; eexists; split; reflexivity.
Defined.

(** * Further properties *)

(** ** The pagination loop, run by run *)

Section Runs.

Context {W : Type} (send : W -> request -> outcome response * W).
Context (url token : string).
Implicit Types (st : fetch_state) (s : sys W).

(** The request body after one round. *)
Lemma loop_body_next st s st1 s2 prior :
  request_json st = request_json_with prior ->
  loop_body send url token st s = (Return st1, s2) ->
  exists answer next,
    wire s2 = wire s ++ [(graph_request url token (request_json st), answer)]
    /\ request_json st1 = request_json_with next
    /\ forall y,
        fst y = graph_request url token (request_json st1) ->
        chained (graph_request url token (request_json st), answer) y.
Proof.
  intros Hreq. unfold loop_body. unfold bind at 1. rewrite http_run.
  destruct (send (net s) _) as [[r|e] w'] eqn:Hsend; simpl;
    [|discriminate].
  destruct (ok r) eqn:Hok.
  - unfold bind at 1, lift at 1.
    destruct (json_body r) as [body|e] eqn:Hbody; [|discriminate].
    unfold bind at 1, lift at 1.
    destruct (collections_field body "count") as [count|e]; [|discriminate].
    unfold bind at 1, lift at 1.
    destruct (collections_field body "items") as [raw|e]; [|discriminate].
    unfold bind at 1, lift at 1.
    destruct (iterate raw) as [items|e]; [|discriminate].
    unfold bind at 1, lift at 1.
    destruct (collections_field body "cursor") as [cursor|e] eqn:Hcursor;
      [|discriminate].
    unfold bind at 1. rewrite Hreq, set_cursor_with. run.
    intros [= <- <-]. exists (Return r), (Some cursor). simpl.
    split; [reflexivity|]. split; [reflexivity|].
    intros y Hy. unfold chained. simpl. rewrite Hok.
    intros body' cursor' Hb Hc. rewrite Hbody in Hb. injection Hb as <-.
    rewrite Hc in Hcursor. injection Hcursor as ->.
    rewrite Hy. apply request_cursor_with.
  - run. intros [= <- <-]. exists (Return r), prior. simpl.
    split; [reflexivity|]. split; [exact Hreq|].
    intros y Hy. unfold chained. simpl. now rewrite Hok.
Qed.

(** Every run starts with the request of its first state and is chained
    from one exchange to the next. *)
Lemma paginate_chained fuel st s o s' prior :
  request_json st = request_json_with prior ->
  paginate send fuel url token st s = Some (o, s') ->
  exists new,
    wire s' = wire s ++ new
    /\ (forall x rest,
           new = x :: rest ->
           fst x = graph_request url token (request_json st))
    /\ forall before x y after,
        new = before ++ x :: y :: after -> chained x y.
Proof.
  revert st s prior. induction fuel as [|fuel IH]; intros st s prior Hreq;
    [discriminate|].
  simpl. destruct (loop_condition_pure st s) as [c Hc]. rewrite Hc.
  assert (Hnone : forall t : sys W,
             exists new : list (request * outcome response),
               wire t = wire t ++ new
               /\ (forall x rest,
                      new = x :: rest ->
                      fst x = graph_request url token (request_json st))
               /\ forall before x y after,
                   new = before ++ x :: y :: after -> chained x y).
  { intros t. exists []. rewrite app_nil_r. split; [reflexivity|].
    split; [discriminate|]. intros [|? ?] x y after H; discriminate H. }
  destruct c as [[]|e]; [| intros [= <- <-]; apply Hnone
                         | intros [= <- <-]; apply Hnone].
  destruct (loop_body send url token st s) as [[st1|e] s2] eqn:Hbody.
  - destruct (loop_body_next st s st1 s2 prior Hreq Hbody)
      as (answer & next & Hwire & Hnext & Hchain).
    intros H. destruct (IH st1 s2 next Hnext H) as (new & Hw & Hfirst & Hadj).
    exists ((graph_request url token (request_json st), answer) :: new).
    split; [rewrite Hw, Hwire, <- app_assoc; reflexivity|].
    split; [now intros x rest [= <- _]|].
    intros [|b before] x y after Heq.
    + injection Heq as <- ->. apply Hchain. now apply (Hfirst y after).
    + injection Heq as _ ->. now apply (Hadj before x y after).
  - apply loop_body_round in Hbody as [answer [Hwire _]].
    intros [= <- <-]. eexists [_]. split; [exact Hwire|].
    split; [now intros x rest [= <- _]|].
    intros [|? [|? ?]] x y after H; discriminate H.
Qed.

End Runs.

(** X1: whenever [query_cmr_graph_for_collections] returns a list, that list
    is the concatenation, in the order of the exchanges, of the items of the
    pages received in this run: no item is dropped, repeated or moved; and
    at most three of the responses of the run were non-success responses. *)
Theorem query_cmr_graph_returns_what_it_received
    {W} (send : W -> request -> outcome response * W)
    (environment token : string) (fuel : nat) (s s' : sys W)
    (collections : list json) :
  query_cmr_graph_for_collections send fuel environment token s
  = Some (Return collections, s') ->
  exists new,
    wire s' = wire s ++ new
    /\ collections = concat (map received new)
    /\ failures new <= 3.
Proof.
  unfold query_cmr_graph_for_collections.
  destruct (environment_parameter graphql environment) as [url|e];
    [|discriminate].
  destruct (paginate send fuel url token initial_fetch_state s)
    as [[[st'|e] s1]|] eqn:Hrun; try discriminate.
  intros [= <- <-].
  apply paginate_budget in Hrun; [|simpl; lia].
  destruct Hrun as (new & Hwire & Hle & [_ Hall] & _).
  exists new. split; [exact Hwire|]. split; [exact Hall | exact Hle].
Qed.

Lemma query_cmr_graph_returns_what_it_received_witness :
  exists new,
    [(graph_request "https://graphql.uat.earthdata.nasa.gov/api" "token"
        initial_request_json,
      Return (response_200 (graph_page 1 JNull [JObj []])))]
    = [] ++ new
    /\ [JObj []] = concat (map received new)
    /\ failures new <= 3.
Proof.
  apply (query_cmr_graph_returns_what_it_received mock_send "uat" "token" 2
           (mkSys [] [Return (response_200 (graph_page 1 JNull [JObj []]))]
              [] ∅)
           (mkSys [page_line initial_fetch_state (JNum 1) [JObj []]] []
              [(graph_request "https://graphql.uat.earthdata.nasa.gov/api"
                  "token" initial_request_json,
                Return (response_200 (graph_page 1 JNull [JObj []])))] ∅)
           [JObj []]).
  reflexivity.
Defined.

(** X2: in every run of [query_cmr_graph_for_collections], whatever the
    server answers and however the run ends, the first request carries no
    cursor, the request after a non-success response is the same request
    again, and the request after a successful response carries the cursor
    that response returned. *)
Theorem query_cmr_graph_requests_are_chained
    {W} (send : W -> request -> outcome response * W)
    (environment token : string) (fuel : nat) (s s' : sys W)
    (o : outcome (list json)) :
  query_cmr_graph_for_collections send fuel environment token s
  = Some (o, s') ->
  exists new,
    wire s' = wire s ++ new
    /\ (forall x rest, new = x :: rest -> request_cursor (fst x) = None)
    /\ forall before x y after,
        new = before ++ x :: y :: after -> chained x y.
Proof.
  unfold query_cmr_graph_for_collections.
  destruct (environment_parameter graphql environment) as [url|e].
  2:{ intros [= _ <-]. exists []. rewrite app_nil_r. split; [reflexivity|].
      split; [discriminate|]. intros [|? ?] x y after H; discriminate H. }
  destruct (paginate send fuel url token initial_fetch_state s)
    as [[o1 s1]|] eqn:Hrun; [|discriminate].
  apply (paginate_chained send url token fuel _ _ _ _ None) in Hrun;
    [|reflexivity].
  destruct Hrun as (new & Hwire & Hfirst & Hadj).
  intros H. assert (s1 = s') as -> by (destruct o1; congruence).
  exists new. split; [exact Hwire|]. split; [|exact Hadj].
  intros x rest Hx. rewrite (Hfirst x rest Hx). reflexivity.
Qed.

Lemma query_cmr_graph_requests_are_chained_witness :
  exists o s',
    query_cmr_graph_for_collections mock_send 3 "uat" "token"
      (mkSys [] [Return response_500;
                 Return (response_200 (graph_page 1 (JStr "c1") [JObj []]))]
         [] ∅)
    = Some (o, s')
    /\ exists new,
        wire s' = [] ++ new
        /\ (forall x rest, new = x :: rest -> request_cursor (fst x) = None)
        /\ forall before x y after,
            new = before ++ x :: y :: after -> chained x y.
Proof.
  eexists _, _. split; [reflexivity|].
  eapply (query_cmr_graph_requests_are_chained mock_send "uat" "token" 3
            (mkSys [] [Return response_500;
                       Return (response_200
                                 (graph_page 1 (JStr "c1") [JObj []]))]
               [] ∅)).
  reflexivity.
Defined.

(** ** Files and network, computation by computation *)

Section Footprint.

Context {W : Type}.
Implicit Types (s : sys W).

Lemma keeps_files_lift {A} (o : outcome A) : keeps_files (W := W) (lift o).
Proof. now intros s o' s' [= _ <-]. Qed.

Lemma keeps_files_ret {A} (a : A) : keeps_files (W := W) (ret a).
Proof. now intros s o' s' [= _ <-]. Qed.

Lemma keeps_files_raise {A} (e : exn) :
  keeps_files (W := W) (A := A) (raise e).
Proof. now intros s o' s' [= _ <-]. Qed.

Lemma keeps_files_print (l : line) : keeps_files (W := W) (print l).
Proof. now intros s o' s' [= _ <-]. Qed.

Lemma keeps_files_http (send : W -> request -> outcome response * W) q :
  keeps_files (http send q).
Proof. intros s o s'. rewrite http_run. now intros [= _ <-]. Qed.

Lemma keeps_files_bind {A B} (m : M W A) (k : A -> M W B) :
  keeps_files m -> (forall a, keeps_files (k a)) -> keeps_files (bind m k).
Proof.
  intros Hm Hk s o s'. unfold bind.
  destruct (m s) as [[a|e] s1] eqn:H1; apply Hm in H1.
  - intros H2. apply Hk in H2. congruence.
  - intros [= _ <-]. exact H1.
Qed.

Lemma keeps_files_try_except {A} (m : M W A) catches (handler : exn -> M W A) :
  keeps_files m -> (forall e, keeps_files (handler e)) ->
  keeps_files (try_except m catches handler).
Proof.
  intros Hm Hh s o s'. unfold try_except.
  destruct (m s) as [[a|e] s1] eqn:H1; apply Hm in H1.
  - intros [= _ <-]. exact H1.
  - destruct (catches e).
    + intros H2. apply Hh in H2. congruence.
    + intros [= _ <-]. exact H1.
Qed.

Lemma keeps_files_any (p : json -> M W bool) xs :
  (forall x, keeps_files (p x)) -> keeps_files (any p xs).
Proof.
  intros Hp. induction xs as [|x xs IH]; simpl.
  - apply keeps_files_ret.
  - apply keeps_files_bind; [apply Hp|].
    intros []; [apply keeps_files_ret | exact IH].
Qed.

Lemma keeps_files_comprehension_if (p : json -> M W bool) xs :
  (forall x, keeps_files (p x)) -> keeps_files (comprehension_if p xs).
Proof.
  intros Hp. induction xs as [|x xs IH]; simpl.
  - apply keeps_files_ret.
  - apply keeps_files_bind; [apply Hp|]. intros b.
    apply keeps_files_bind; [exact IH|]. intros tail. apply keeps_files_ret.
Qed.

Lemma offline_lift {A} (o : outcome A) : offline (W := W) (lift o).
Proof. now intros s o' s' [= _ <-]. Qed.

Lemma offline_ret {A} (a : A) : offline (W := W) (ret a).
Proof. now intros s o' s' [= _ <-]. Qed.

Lemma offline_raise {A} (e : exn) : offline (W := W) (A := A) (raise e).
Proof. now intros s o' s' [= _ <-]. Qed.

Lemma offline_print (l : line) : offline (W := W) (print l).
Proof. now intros s o' s' [= _ <-]. Qed.

Lemma offline_bind {A B} (m : M W A) (k : A -> M W B) :
  offline m -> (forall a, offline (k a)) -> offline (bind m k).
Proof.
  intros Hm Hk s o s'. unfold bind.
  destruct (m s) as [[a|e] s1] eqn:H1; apply Hm in H1 as [H1 H1'].
  - intros H2. apply Hk in H2 as [H2 H2']. split; congruence.
  - intros [= _ <-]. auto.
Qed.

Lemma offline_try_except {A} (m : M W A) catches (handler : exn -> M W A) :
  offline m -> (forall e, offline (handler e)) ->
  offline (try_except m catches handler).
Proof.
  intros Hm Hh s o s'. unfold try_except.
  destruct (m s) as [[a|e] s1] eqn:H1; apply Hm in H1 as [H1 H1'].
  - intros [= _ <-]. auto.
  - destruct (catches e).
    + intros H2. apply Hh in H2 as [H2 H2']. split; congruence.
    + intros [= _ <-]. auto.
Qed.

Lemma offline_any (p : json -> M W bool) xs :
  (forall x, offline (p x)) -> offline (any p xs).
Proof.
  intros Hp. induction xs as [|x xs IH]; simpl.
  - apply offline_ret.
  - apply offline_bind; [apply Hp|].
    intros []; [apply offline_ret | exact IH].
Qed.

Lemma offline_comprehension_if (p : json -> M W bool) xs :
  (forall x, offline (p x)) -> offline (comprehension_if p xs).
Proof.
  intros Hp. induction xs as [|x xs IH]; simpl.
  - apply offline_ret.
  - apply offline_bind; [apply Hp|]. intros b.
    apply offline_bind; [exact IH|]. intros tail. apply offline_ret.
Qed.

End Footprint.

Ltac footprint :=
  repeat first
    [ apply keeps_files_lift | apply keeps_files_ret | apply keeps_files_raise
    | apply keeps_files_print | apply keeps_files_http
    | apply keeps_files_any; intros ?
    | apply keeps_files_comprehension_if; intros ?
    | apply keeps_files_try_except; [|intros ?]
    | apply keeps_files_bind; [|intros ?]
    | apply offline_lift | apply offline_ret | apply offline_raise
    | apply offline_print
    | apply offline_any; intros ?
    | apply offline_comprehension_if; intros ?
    | apply offline_try_except; [|intros ?]
    | apply offline_bind; [|intros ?]
    | match goal with
      | |- keeps_files (if ?b then _ else _) => destruct b
      | |- offline (if ?b then _ else _) => destruct b
      end ].

Lemma filter_for_opendap_granules_footprint {W} collections environment :
  keeps_files (W := W) (filter_for_opendap_granules collections environment)
  /\ offline (W := W) (filter_for_opendap_granules collections environment).
Proof.
  split; unfold filter_for_opendap_granules, collection_has_opendap_url,
    get_collection_related_urls, inspect_granules, is_opendap_url; footprint.
Qed.

(** ** get_edl_token *)

Section Token.

Context {W : Type} (send : W -> request -> outcome response * W).
Implicit Types (s : sys W).

(** The exchanges of one run of [get_edl_token]. *)
Lemma get_edl_token_run environment s o s' :
  get_edl_token send environment s = (o, s') ->
  files s' = files s
  /\ stdout s' = stdout s
  /\ exists new,
      wire s' = wire s ++ new
      /\ Forall (fun x => token_request environment (fst x)) new
      /\ (new = []
          \/ (exists g, new = [g] /\ req_method (fst g) = GET)
          \/ (exists g p r body,
                 new = [g; p]
                 /\ req_method (fst g) = GET
                 /\ req_method (fst p) = POST
                 /\ snd g = Return r /\ ok r = true
                 /\ json_body r = Return body
                 /\ py_len body = Return 0)).
Proof.
  unfold get_edl_token. unfold bind at 1, lift at 1.
  destruct (environment_parameter edl_root environment) as [root|e] eqn:Hroot.
  2:{ intros [= _ <-]. repeat split. exists []. rewrite app_nil_r.
      split; [reflexivity|]. split; [constructor | now left]. }
  assert (Hget : token_request environment
                   (mkRequest GET (root +:+ "/api/users/tokens") [] None
                      token_headers)).
  { exists root. split; [exact Hroot|]. split; [reflexivity|]. now left. }
  assert (Hpost : token_request environment
                    (mkRequest POST (root +:+ "/api/users/token") [] None
                       token_headers)).
  { exists root. split; [exact Hroot|]. split; [reflexivity|]. now right. }
  unfold bind at 1. rewrite http_run.
  set (g := mkRequest GET (root +:+ "/api/users/tokens") [] None token_headers)
    in *.
  destruct (send (net s) g) as [[r|e] w1] eqn:Hsend; simpl.
  2:{ intros [= _ <-]. repeat split. eexists [_]. split; [reflexivity|].
      split; [repeat constructor; exact Hget|]. right. left. eauto. }
  assert (Hone : forall (o1 : outcome json) (s1 : sys W),
             s1 = after_exchange s w1 g (Return r) ->
             files s1 = files s /\ stdout s1 = stdout s
             /\ exists new,
                 wire s1 = wire s ++ new
                 /\ Forall (fun x => token_request environment (fst x)) new
                 /\ (new = []
                     \/ (exists g0, new = [g0] /\ req_method (fst g0) = GET)
                     \/ (exists g0 p r0 body,
                            new = [g0; p]
                            /\ req_method (fst g0) = GET
                            /\ req_method (fst p) = POST
                            /\ snd g0 = Return r0 /\ ok r0 = true
                            /\ json_body r0 = Return body
                            /\ py_len body = Return 0))).
  { intros o1 s1 ->. repeat split. eexists [_]. split; [reflexivity|].
    split; [repeat constructor; exact Hget|]. right. left. eauto. }
  unfold bind at 1. unfold raise_for_status.
  destruct (ok r) eqn:Hok; [|intros [= _ <-]; now apply (Hone o)].
  unfold ret at 1. unfold bind at 1, lift at 1.
  destruct (json_body r) as [body|e] eqn:Hbody;
    [|intros [= _ <-]; now apply (Hone o)].
  unfold bind at 1, lift at 1.
  destruct (py_len body) as [count|e] eqn:Hlen;
    [|intros [= _ <-]; now apply (Hone o)].
  destruct (Z.eqb_spec count 0) as [-> | Hcount].
  - unfold bind at 1. rewrite http_run.
    set (p := mkRequest POST (root +:+ "/api/users/token") [] None
                token_headers) in *.
    simpl net.
    destruct (send w1 p) as [answer w2] eqn:Hsend2. simpl.
    assert (Htwo : forall (o1 : outcome json) (s1 : sys W),
               s1 = after_exchange (after_exchange s w1 g (Return r)) w2 p
                      answer ->
               files s1 = files s /\ stdout s1 = stdout s
               /\ exists new,
                   wire s1 = wire s ++ new
                   /\ Forall (fun x => token_request environment (fst x)) new
                   /\ (new = []
                       \/ (exists g0, new = [g0] /\ req_method (fst g0) = GET)
                       \/ (exists g0 p0 r0 body0,
                              new = [g0; p0]
                              /\ req_method (fst g0) = GET
                              /\ req_method (fst p0) = POST
                              /\ snd g0 = Return r0 /\ ok r0 = true
                              /\ json_body r0 = Return body0
                              /\ py_len body0 = Return 0))).
    { intros o1 s1 ->. repeat split. eexists [_; _]. simpl.
      rewrite <- app_assoc. split; [reflexivity|].
      split; [repeat constructor; assumption|].
      right. right. exists (g, Return r), (p, answer), r, body. auto 10. }
    destruct answer as [r2|e]; [|intros [= _ <-]; now apply (Htwo o)].
    unfold bind at 1. destruct (ok r2); unfold ret, raise;
      [|intros [= _ <-]; now apply (Htwo o)].
    unfold bind at 1, lift at 1.
    destruct (json_body r2) as [body2|e];
      [|intros [= _ <-]; now apply (Htwo o)].
    unfold lift. intros [= _ <-]. now apply (Htwo o).
  - destruct (count =? 0) eqn:Hz; [apply Z.eqb_eq in Hz; contradiction|].
    unfold bind at 1, lift at 1.
    destruct (getitem0 body) as [first|e];
      [|intros [= _ <-]; now apply (Hone o)].
    unfold lift. intros [= _ <-]. now apply (Hone o).
Qed.

End Token.

(** X3: [get_edl_token] writes no file, prints nothing and sends at most two
    requests, both to the token endpoints of the environment: a GET for the
    existing tokens and, only when that GET succeeded and returned an empty
    collection, a POST for a new token.  When the GET returns a list whose
    first entry has an [access_token], that token is the result and no POST
    is sent. *)
Theorem get_edl_token_requests
    {W} (send : W -> request -> outcome response * W)
    (environment : string) (s : sys W) :
  (forall o s',
      get_edl_token send environment s = (o, s') ->
      files s' = files s
      /\ stdout s' = stdout s
      /\ exists new,
          wire s' = wire s ++ new
          /\ (length new <= 2)%nat
          /\ Forall (fun x => token_request environment (fst x)) new
          /\ forall x,
              In x new -> req_method (fst x) = POST ->
              exists g r body,
                new = [g; x]
                /\ snd g = Return r /\ ok r = true
                /\ json_body r = Return body
                /\ py_len body = Return 0)
  /\ (forall root r w' first others token,
         environment_parameter edl_root environment = Return root ->
         send (net s)
           (mkRequest GET (root +:+ "/api/users/tokens") [] None token_headers)
         = (Return r, w') ->
         ok r = true ->
         json_body r = Return (JArr (JObj first :: others)) ->
         assoc "access_token" first = Some token ->
         get_edl_token send environment s
         = (Return token,
            after_exchange s w'
              (mkRequest GET (root +:+ "/api/users/tokens") [] None
                 token_headers)
              (Return r))).
Proof.
  split.
  - intros o s' Hrun. apply get_edl_token_run in Hrun
      as (Hfiles & Hout & new & Hwire & Hreq & Hshape).
    split; [exact Hfiles|]. split; [exact Hout|]. exists new.
    split; [exact Hwire|].
    destruct Hshape as [-> | [(g & -> & Hg)
                             | (g & p & r & body & -> & Hg & Hp & Hr & Hok
                                & Hbody & Hlen)]].
    + split; [simpl; lia|]. split; [exact Hreq|]. intros x [].
    + split; [simpl; lia|]. split; [exact Hreq|].
      intros x [<- | []] Hx. congruence.
    + split; [simpl; lia|]. split; [exact Hreq|].
      intros x [<- | [<- | []]] Hx; [congruence|].
      exists g, r, body. auto.
  - intros root r w' first others token Hroot Hsend Hok Hbody Htoken.
    unfold get_edl_token. unfold bind at 1, lift at 1. rewrite Hroot.
    unfold bind at 1. rewrite http_run, Hsend. simpl.
    unfold bind at 1. unfold raise_for_status. rewrite Hok.
    unfold ret at 1. unfold bind at 1, lift at 1. rewrite Hbody.
    unfold bind at 1, lift at 1. simpl py_len.
    destruct (Z.eqb_spec (Z.of_nat (length (JObj first :: others))) 0)
      as [H0|_]; [simpl in H0; lia|].
    run. now rewrite Htoken.
Qed.

Lemma get_edl_token_requests_witness :
  get_edl_token one_token_send "prod" quiet
  = (Return (JStr "abc"),
     after_exchange quiet tt
       (mkRequest GET ("https://urs.earthdata.nasa.gov" +:+ "/api/users/tokens")
          [] None token_headers)
       (Return (response_200 (JArr [JObj [("access_token", JStr "abc")]])))).
Proof.
  apply (proj2 (get_edl_token_requests one_token_send "prod" quiet)
           "https://urs.earthdata.nasa.gov" _ tt
           [("access_token", JStr "abc")] [] (JStr "abc"));
    reflexivity.
Defined.

(** ** Saving the snapshots *)

Lemma comprehension_formatted_run {W} (collections : list json) (s : sys W)
    o s' :
  comprehension get_formatted_collection collections s = (o, s') ->
  s' = s
  /\ match o with
     | Return records => Forall2 formatted_record_of collections records
     | Raise _ => ~ Forall identified collections
     end.
Proof.
  revert o s'. induction collections as [|c cs IH]; intros o s'; simpl.
  - intros [= <- <-]. split; [reflexivity | constructor].
  - unfold bind at 1.
    assert (Hc : (exists record, formatted_record_of c record
                                 /\ get_formatted_collection c s
                                    = (Return record, s))
                 \/ (~ identified c
                     /\ exists e, get_formatted_collection c s = (Raise e, s))).
    { unfold get_formatted_collection. run. destruct c as [| | | | |fields];
        try (right; split; [intros (? & ? & ? & ? & ? & H & _); discriminate H
                           | eexists; reflexivity]).
      simpl.
      destruct (assoc "shortName" fields) as [sn|] eqn:Hsn.
      2:{ right. split; [|eexists; reflexivity].
          intros (? & ? & ? & ? & ? & [= <-] & H & _). congruence. }
      destruct (assoc "version" fields) as [v|] eqn:Hv.
      2:{ right. split; [|eexists; reflexivity].
          intros (? & ? & ? & ? & ? & [= <-] & _ & H & _). congruence. }
      destruct (assoc "conceptId" fields) as [cid|] eqn:Hcid.
      2:{ right. split; [|eexists; reflexivity].
          intros (? & ? & ? & ? & ? & [= <-] & _ & _ & H & _). congruence. }
      left. eexists. split; [|reflexivity].
      exists fields, sn, v, cid. auto. }
    destruct Hc as [(record & Hrecord & ->) | (Hnot & e & ->)].
    + unfold bind at 1.
      destruct (comprehension get_formatted_collection cs s) as [[records|e] s1]
        eqn:Hcs; destruct (IH _ _ eq_refl) as [-> Hrest].
      * intros [= <- <-]. split; [reflexivity | now constructor].
      * intros [= <- <-]. split; [reflexivity|].
        intros H. inversion H; subst. contradiction.
    + intros [= <- <-]. split; [reflexivity|].
      intros H. inversion H; subst. contradiction.
Qed.

Lemma save_opendap_collections_identified
    {W} (dumps : json -> string) (collections : list json)
    (environment : string) (s : sys W) :
  Forall identified collections ->
  exists records,
    Forall2 formatted_record_of collections records
    /\ save_opendap_collections dumps collections environment s
       = (Return tt,
          mkSys (stdout s) (net s) (wire s)
            (<[filtered_snapshot environment := dumps (JArr records)]>
               (files s))).
Proof.
  intros Hid. unfold save_opendap_collections. unfold bind.
  destruct (comprehension get_formatted_collection collections s)
    as [[records|e] s1] eqn:Hrun;
    apply comprehension_formatted_run in Hrun as [-> Hrun].
  - exists records. split; [exact Hrun | reflexivity].
  - contradiction.
Qed.

Lemma save_opendap_collections_cases
    {W} (dumps : json -> string) (collections : list json)
    (environment : string) (s : sys W) :
  (Forall identified collections
   /\ exists records,
       Forall2 formatted_record_of collections records
       /\ save_opendap_collections dumps collections environment s
          = (Return tt,
             mkSys (stdout s) (net s) (wire s)
               (<[filtered_snapshot environment := dumps (JArr records)]>
                  (files s))))
  \/ (~ Forall identified collections
      /\ exists e,
          save_opendap_collections dumps collections environment s
          = (Raise e, s)).
Proof.
  unfold save_opendap_collections. unfold bind.
  destruct (comprehension get_formatted_collection collections s)
    as [[records|e] s1] eqn:Hrun;
    apply comprehension_formatted_run in Hrun as [-> Hrun].
  - left. split.
    + clear -Hrun. induction Hrun; constructor; [eexists|]; eauto.
    + exists records. split; [exact Hrun | reflexivity].
  - right. split; [exact Hrun | eauto].
Qed.

(** X4: [save_opendap_collections] writes all or nothing: either every
    collection contains [shortName], [version] and [conceptId], and the
    snapshot of the environment is replaced by their Formatted Collection
    Records while every other file stays as it is; or some collection does
    not, an exception is raised and no file is touched, the old snapshot
    included. *)
Theorem save_opendap_collections_all_or_nothing
    {W} (dumps : json -> string) (collections : list json)
    (environment : string) (s : sys W) :
  (Forall identified collections
   /\ exists records,
       Forall2 formatted_record_of collections records
       /\ save_opendap_collections dumps collections environment s
          = (Return tt,
             mkSys (stdout s) (net s) (wire s)
               (<[filtered_snapshot environment := dumps (JArr records)]>
                  (files s))))
  \/ (~ Forall identified collections
      /\ exists e,
          save_opendap_collections dumps collections environment s
          = (Raise e, s)).
Proof.
  unfold save_opendap_collections. unfold bind.
  destruct (comprehension get_formatted_collection collections s)
    as [[records|e] s1] eqn:Hrun;
    apply comprehension_formatted_run in Hrun as [-> Hrun].
  - left. split.
    + clear -Hrun. induction Hrun; constructor; [eexists|]; eauto.
    + exists records. split; [exact Hrun | reflexivity].
  - right. split; [exact Hrun | eauto].
Qed.

Lemma snapshot_names_differ (environment environment' : string) :
  raw_snapshot environment <> filtered_snapshot environment'.
Proof. discriminate. Qed.

(** X5: the raw and the filtered snapshot are two files: with a
    [json.dump] / [json.load] pair that reads back what it wrote, after
    [save_all_collections] and then [save_opendap_collections], for the same
    or for different environments, reading the raw snapshot gives the
    collections saved first and reading the filtered one gives the records
    saved second. *)
Theorem snapshots_are_independent
    {W} (loads : string -> outcome json) (dumps : json -> string)
    (all_cloud_collections opendap_collections : list json)
    (environment environment' : string) (s : sys W) :
  (forall value, loads (dumps value) = Return value) ->
  Forall identified opendap_collections ->
  exists s1 s2 records,
    save_all_collections dumps all_cloud_collections environment s
    = (Return tt, s1)
    /\ save_opendap_collections dumps opendap_collections environment' s1
       = (Return tt, s2)
    /\ Forall2 formatted_record_of opendap_collections records
    /\ get_all_collections_from_file loads (raw_snapshot environment) s2
       = (Return (JArr all_cloud_collections), s2)
    /\ read_all_collections loads environment' s2
       = (Return (JArr records), s2).
Proof.
  intros Hcodec Hcs.
  destruct (save_opendap_collections_identified dumps opendap_collections
              environment'
              (mkSys (stdout s ++ [[Lit "Saved to ";
                                    Fmt (JStr (raw_snapshot environment))]])
                 (net s) (wire s)
                 (<[raw_snapshot environment
                    := dumps (JArr all_cloud_collections)]> (files s)))
              Hcs)
    as (records & Hrecords & Hsave).
  do 2 eexists. exists records. split; [reflexivity|]. split; [exact Hsave|].
  split; [exact Hrecords|]. split.
  - unfold get_all_collections_from_file, load_file. simpl.
    rewrite lookup_insert_ne by (apply not_eq_sym, snapshot_names_differ).
    now rewrite lookup_insert_eq, Hcodec.
  - unfold read_all_collections, load_file. simpl.
    fold (filtered_snapshot environment').
    now rewrite lookup_insert_eq, Hcodec.
Qed.

Lemma snapshots_are_independent_witness :
  exists s1 s2 records,
    save_all_collections JsonText.dumps
      [collection_of "A" "C1-POCLOUD" []; JNull] "prod" quiet
    = (Return tt, s1)
    /\ save_opendap_collections JsonText.dumps
         [collection_of "A" "C1-POCLOUD" []] "prod" s1
       = (Return tt, s2)
    /\ Forall2 formatted_record_of [collection_of "A" "C1-POCLOUD" []] records
    /\ get_all_collections_from_file JsonText.loads (raw_snapshot "prod") s2
       = (Return (JArr [collection_of "A" "C1-POCLOUD" []; JNull]), s2)
    /\ read_all_collections JsonText.loads "prod" s2
       = (Return (JArr records), s2).
Proof.
  apply (snapshots_are_independent JsonText.loads JsonText.dumps
           [collection_of "A" "C1-POCLOUD" []; JNull]
           [collection_of "A" "C1-POCLOUD" []] "prod" "prod" quiet
           JsonTextFacts.loads_dumps).
  repeat constructor. eexists. unfold formatted_record_of, collection_of.
  repeat eexists.
Defined.

(** X6: writing a snapshot replaces it: after two calls of
    [save_opendap_collections] for one environment the files are what the
    second call alone would have left; nothing of the first list remains. *)
Theorem save_opendap_collections_overwrites
    {W} (dumps : json -> string) (first second : list json)
    (environment : string) (s s1 s2 : sys W) :
  save_opendap_collections dumps first environment s = (Return tt, s1) ->
  save_opendap_collections dumps second environment s1 = (Return tt, s2) ->
  exists s2',
    save_opendap_collections dumps second environment s = (Return tt, s2')
    /\ files s2 = files s2'.
Proof.
  intros H1 H2.
  destruct (save_opendap_collections_cases dumps first environment s)
    as [[_ (r1 & _ & E1)] | [_ [e E1]]]; rewrite E1 in H1; [|discriminate].
  injection H1 as <-.
  destruct (save_opendap_collections_cases dumps second environment s)
    as [[Hid (r2 & Hr2 & E2)] | [Hnot _]].
  - eexists. split; [exact E2|].
    unfold save_opendap_collections in H2. unfold bind in H2.
    destruct (comprehension_formatted second
                (mkSys (stdout s) (net s) (wire s)
                   (<[filtered_snapshot environment := dumps (JArr r1)]>
                      (files s))) Hid) as (r2' & Hr2' & Hc').
    rewrite Hc' in H2. injection H2 as <-. simpl.
    fold (filtered_snapshot environment). rewrite insert_insert_eq.
    assert (r2' = r2) as ->; [|reflexivity].
    clear -Hr2 Hr2'. revert r2' Hr2'.
    induction Hr2 as [|c r cs rs Hc _ IH]; intros r2' H;
      inversion H as [|? r' ? rs' Hc' Hrest]; subst; [reflexivity|].
    f_equal; [|now apply IH].
    destruct Hc as (f & a & b & d & -> & Ha & Hb & Hd & ->).
    destruct Hc' as (f' & a' & b' & d' & [= <-] & Ha' & Hb' & Hd' & ->).
    congruence.
  - exfalso. apply Hnot.
    destruct (save_opendap_collections_cases dumps second environment
                (mkSys (stdout s) (net s) (wire s)
                   (<[filtered_snapshot environment := dumps (JArr r1)]>
                      (files s))))
      as [[Hid _] | [_ [e E]]]; [exact Hid|].
    rewrite E in H2. discriminate.
Qed.

Lemma save_opendap_collections_overwrites_witness :
  exists s1 s2 s2',
    save_opendap_collections JsonText.dumps
      [collection_of "A" "C1-POCLOUD" []; collection_of "B" "C2-OTHER" []]
      "uat" quiet = (Return tt, s1)
    /\ save_opendap_collections JsonText.dumps
         [collection_of "B" "C2-OTHER" []] "uat" s1 = (Return tt, s2)
    /\ save_opendap_collections JsonText.dumps
         [collection_of "B" "C2-OTHER" []] "uat" quiet = (Return tt, s2')
    /\ files s2 = files s2'.
Proof.
  eexists _, _.
  destruct (save_opendap_collections_overwrites JsonText.dumps
              [collection_of "A" "C1-POCLOUD" [];
               collection_of "B" "C2-OTHER" []]
              [collection_of "B" "C2-OTHER" []] "uat" quiet _ _
              eq_refl eq_refl) as (s2' & Hsave & Hfiles).
  exists s2'. split; [reflexivity|]. split; [reflexivity|].
  split; assumption.
Defined.

(** ** get_collections_with_opendap_urls *)

Section Main.

Context {W : Type} (send : W -> request -> outcome response * W).
Context (loads : string -> outcome json) (dumps : json -> string).
Context (py_str : json -> string).
Implicit Types (s : sys W).

Lemma loop_body_keeps_files url token st :
  keeps_files (loop_body send url token st).
Proof. unfold loop_body, set_cursor. footprint. Qed.

Lemma paginate_keeps_files fuel url token st s o s' :
  paginate send fuel url token st s = Some (o, s') -> files s' = files s.
Proof.
  revert st s. induction fuel as [|fuel IH]; intros st s; [discriminate|].
  simpl. destruct (loop_condition_pure st s) as [c ->].
  destruct c as [[]|e]; try (now intros [= _ <-]).
  destruct (loop_body send url token st s) as [[st1|e] s1] eqn:Hbody;
    apply loop_body_keeps_files in Hbody.
  - intros H. apply IH in H. congruence.
  - now intros [= _ <-].
Qed.

Lemma query_keeps_files fuel environment token s o s' :
  query_cmr_graph_for_collections send fuel environment token s
  = Some (o, s') ->
  files s' = files s.
Proof.
  unfold query_cmr_graph_for_collections.
  destruct (environment_parameter graphql environment);
    [|now intros [= _ <-]].
  destruct (paginate send fuel _ token initial_fetch_state s)
    as [[[st|e] s1]|] eqn:Hrun; try discriminate;
    apply paginate_keeps_files in Hrun; now intros [= _ <-].
Qed.

(** The token phase of the entry point. *)
Lemma token_phase_run environment s o s' :
  (let* edl_bearer_token := get_edl_token send environment in
   print [Lit "Retrieved EDL bearer token"];;
   ret edl_bearer_token) s = (o, s') ->
  files s' = files s
  /\ exists new,
      wire s' = wire s ++ new
      /\ Forall (fun x => token_request environment (fst x)) new.
Proof.
  unfold bind at 1.
  destruct (get_edl_token send environment s) as [[token|e] s1] eqn:Hrun;
    apply get_edl_token_run in Hrun as (Hfiles & _ & new & Hwire & Hreq & _).
  - run. intros [= _ <-]. simpl. eauto.
  - intros [= _ <-]. eauto.
Qed.

(** What [filter_and_save] leaves behind when it returns. *)
Lemma filter_and_save_run all environment s s' :
  filter_and_save dumps all environment s = (Return tt, s') ->
  wire s' = wire s
  /\ exists collections kept records,
      iterate all = Return collections
      /\ kept `sublist_of` collections
      /\ Forall2 formatted_record_of kept records
      /\ files s'
         = <[filtered_snapshot environment := dumps (JArr records)]> (files s).
Proof.
  unfold filter_and_save. unfold bind at 1, lift at 1.
  destruct (py_len all) as [count|e]; [|discriminate].
  unfold bind at 1. unfold print at 1.
  unfold bind at 1, lift at 1.
  destruct (iterate all) as [collections|e]; [|discriminate].
  unfold bind at 1.
  match goal with
  | |- context [filter_for_opendap_granules collections environment ?s0] =>
      destruct (filter_for_opendap_granules collections environment s0)
        as [[kept|e] s1] eqn:Hfilter; [|discriminate];
      pose proof (comprehension_if_sublist _ _ _ _ _ Hfilter) as Hsub;
      destruct (filter_for_opendap_granules_footprint (W := W) collections
                  environment) as [Hf Hoff];
      pose proof (Hf _ _ _ Hfilter) as Hfiles;
      destruct (Hoff _ _ _ Hfilter) as [_ Hwire]
  end.
  unfold bind at 1. unfold print at 1.
  match goal with
  | |- save_opendap_collections dumps kept environment ?s2 = _ -> _ =>
      destruct (save_opendap_collections_cases dumps kept environment
                  s2) as [[_ (records & Hrecords & ->)] | [_ [e ->]]];
      [|discriminate]
  end.
  intros [= <-]. simpl in *. split; [exact Hwire|].
  exists collections, kept, records. rewrite Hfiles. auto.
Qed.

End Main.

(** X7: when [get_collections_with_opendap_urls] is given a file and
    returns, the file held a document whose elements are the collections, the
    filtered snapshot of the (lower-cased) environment is the only file
    written, it holds the Formatted Collection Records of a sublist of those
    collections, and the only requests sent are the token requests: CMR
    graph is not queried and the raw snapshot is not rewritten. *)
Theorem get_collections_from_file_run
    {W} (send : W -> request -> outcome response * W)
    (loads : string -> outcome json) (dumps : json -> string)
    (py_str : json -> string) (fuel : nat) (environment path : string)
    (s s' : sys W) :
  get_collections_with_opendap_urls send loads dumps py_str fuel environment
    (Some path) s = Some (Return tt, s') ->
  exists text all collections kept records new,
    files s !! path = Some text
    /\ loads text = Return all
    /\ iterate all = Return collections
    /\ kept `sublist_of` collections
    /\ Forall2 formatted_record_of kept records
    /\ files s'
       = <[filtered_snapshot (lower environment) := dumps (JArr records)]>
           (files s)
    /\ wire s' = wire s ++ new
    /\ Forall (fun x => token_request (lower environment) (fst x)) new.
Proof.
  unfold get_collections_with_opendap_urls.
  destruct (existsb _ _); [|discriminate].
  unfold bindF at 1. unfold total at 1.
  match goal with
  | |- context [match ?m s with _ => _ end] =>
      destruct (m s) as [[token|e] s1] eqn:Htoken; [|discriminate]
  end.
  apply token_phase_run in Htoken as (Hfiles1 & new & Hwire1 & Hreq).
  unfold bindF at 1. unfold total at 1.
  unfold get_all_collections_from_file, load_file.
  destruct (files s1 !! path) as [text|] eqn:Hpath; [|discriminate].
  destruct (loads text) as [all|e] eqn:Hloads; [|discriminate].
  unfold total. intros [= Hrun].
  apply filter_and_save_run in Hrun
    as (Hwire2 & collections & kept & records & Hiter & Hsub & Hrec & Hfiles2).
  exists text, all, collections, kept, records, new.
  rewrite Hfiles1 in Hpath, Hfiles2. rewrite Hwire2.
  repeat (split; [assumption|]). assumption.
Qed.

Lemma filter_and_save_filtered
    {W} (dumps : json -> string) (all : json) (environment : string)
    (s s' : sys W) :
  filter_and_save dumps all environment s = (Return tt, s') ->
  exists count collections kept s1 records,
    py_len all = Return count
    /\ iterate all = Return collections
    /\ filter_for_opendap_granules collections environment
         (with_line s [Lit "Retrieved "; Fmt (JNum count);
                       Lit " cloud-hosted collections."])
       = (Return kept, s1)
    /\ kept `sublist_of` collections
    /\ Forall2 formatted_record_of kept records
    /\ files s'
       = <[filtered_snapshot environment := dumps (JArr records)]> (files s).
Proof.
  unfold filter_and_save. unfold bind at 1, lift at 1.
  destruct (py_len all) as [count|e]; [|discriminate].
  unfold bind at 1. unfold print at 1.
  unfold bind at 1, lift at 1.
  destruct (iterate all) as [collections|e]; [|discriminate].
  unfold bind at 1.
  fold (with_line s [Lit "Retrieved "; Fmt (JNum count);
                     Lit " cloud-hosted collections."]).
  destruct (filter_for_opendap_granules collections environment _)
    as [[kept|e] s1] eqn:Hfilter; [|discriminate].
  pose proof (comprehension_if_sublist _ _ _ _ _ Hfilter) as Hsub.
  destruct (filter_for_opendap_granules_footprint (W := W) collections
              environment) as [Hf _].
  pose proof (Hf _ _ _ Hfilter) as Hfiles.
  unfold bind at 1. unfold print at 1.
  match goal with
  | |- save_opendap_collections dumps kept environment ?s2 = _ -> _ =>
      destruct (save_opendap_collections_cases dumps kept environment s2)
        as [[_ (records & Hrecords & ->)] | [_ [e ->]]]; [|discriminate]
  end.
  intros [= <-]. simpl in *.
  exists count, collections, kept, s1, records. rewrite Hfiles. auto 10.
Qed.

(** X8: when a fresh run of [get_collections_with_opendap_urls] returns, the
    token is the one [get_edl_token] returned, the raw snapshot holds the
    list [query_cmr_graph_for_collections] returned for that token, the
    filtered snapshot holds the Formatted Collection Records of what
    [filter_for_opendap_granules] kept of that same list, and no other file
    was written: what the filtered snapshot lists is always part of the raw
    snapshot. *)
Theorem get_collections_fresh_run
    {W} (send : W -> request -> outcome response * W)
    (loads : string -> outcome json) (dumps : json -> string)
    (py_str : json -> string) (fuel : nat) (environment : string)
    (s s' : sys W) :
  get_collections_with_opendap_urls send loads dumps py_str fuel environment
    None s = Some (Return tt, s') ->
  exists token s1 all s2 kept s3 records,
    get_edl_token send (lower environment) s = (Return token, s1)
    /\ query_cmr_graph_for_collections send fuel (lower environment)
         (py_str token) (with_line s1 [Lit "Retrieved EDL bearer token"])
       = Some (Return all, s2)
    /\ filter_for_opendap_granules all (lower environment)
         (with_line
            (with_line
               (with_file s2 (raw_snapshot (lower environment))
                  (dumps (JArr all)))
               [Lit "Saved to "; Fmt (JStr (raw_snapshot (lower environment)))])
            [Lit "Retrieved "; Fmt (JNum (Z.of_nat (length all)));
             Lit " cloud-hosted collections."])
       = (Return kept, s3)
    /\ kept `sublist_of` all
    /\ Forall2 formatted_record_of kept records
    /\ files s'
       = <[filtered_snapshot (lower environment) := dumps (JArr records)]>
           (<[raw_snapshot (lower environment) := dumps (JArr all)]>
              (files s)).
Proof.
  unfold get_collections_with_opendap_urls.
  destruct (existsb _ _); [|discriminate].
  unfold bindF at 1. unfold total at 1. unfold bind at 1.
  destruct (get_edl_token send (lower environment) s) as [[token|e] s1]
    eqn:Htoken; [|discriminate].
  pose proof (get_edl_token_run _ _ _ _ _ Htoken) as (Hfiles1 & _).
  unfold bind at 1. unfold print at 1. unfold ret at 1.
  fold (with_line s1 [Lit "Retrieved EDL bearer token"]).
  unfold bindF at 1. unfold bindF at 1.
  destruct (query_cmr_graph_for_collections send fuel (lower environment)
              (py_str token) _) as [[[all|e] s2]|] eqn:Hquery;
    try discriminate.
  pose proof (query_keeps_files _ _ _ _ _ _ _ Hquery) as Hfiles2.
  unfold total at 1. unfold save_all_collections, dump_file.
  unfold bind at 1. unfold bind at 1. unfold print at 1. unfold ret at 1.
  unfold total. intros [= Hrun].
  apply filter_and_save_filtered in Hrun
    as (count & collections & kept & s3 & records & [= <-] & [= <-] & Hfilter
        & Hsub & Hrec & Hfiles3).
  exists token, s1, all, s2, kept, s3, records.
  split; [reflexivity|]. split; [exact Hquery|]. split; [exact Hfilter|].
  split; [exact Hsub|]. split; [exact Hrec|].
  rewrite Hfiles3. simpl. rewrite Hfiles2. simpl. now rewrite Hfiles1.
Qed.

(** X9: [get_collections_with_opendap_urls] compares the environment in
    lower case, and an environment that is none of sit, uat and prod raises
    [ValueError] at once, whatever the fuel and the file: nothing is sent,
    printed or written. *)
Theorem get_collections_invalid_environment
    {W} (send : W -> request -> outcome response * W)
    (loads : string -> outcome json) (dumps : json -> string)
    (py_str : json -> string) (fuel : nat) (environment : string)
    (file_path : option string) (s : sys W) :
  valid_environment (lower environment) = false ->
  get_collections_with_opendap_urls send loads dumps py_str fuel environment
    file_path s = Some (Raise ValueError, s).
Proof.
  intros H. unfold get_collections_with_opendap_urls.
  unfold valid_environment in H. now rewrite H.
Qed.

Lemma get_collections_from_file_run_witness :
  exists s',
    get_collections_with_opendap_urls one_token_send JsonText.loads
      JsonText.dumps plain_str 0 "UAT" (Some "saved.json") with_raw_file
    = Some (Return tt, s')
    /\ exists text all collections kept records new,
        files with_raw_file !! "saved.json" = Some text
        /\ JsonText.loads text = Return all
        /\ iterate all = Return collections
        /\ kept `sublist_of` collections
        /\ Forall2 formatted_record_of kept records
        /\ files s'
           = <[filtered_snapshot (lower "UAT")
               := JsonText.dumps (JArr records)]> (files with_raw_file)
        /\ wire s' = wire with_raw_file ++ new
        /\ Forall (fun x => token_request (lower "UAT") (fst x)) new.
Proof.
  eexists. split; [vm_compute; reflexivity|].
  eapply (get_collections_from_file_run one_token_send JsonText.loads
            JsonText.dumps plain_str 0 "UAT" "saved.json" with_raw_file).
  vm_compute. reflexivity.
Defined.

Lemma get_collections_fresh_run_witness :
  exists s',
    get_collections_with_opendap_urls earthdata_send JsonText.loads
      JsonText.dumps plain_str 2 "UAT" None quiet
    = Some (Return tt, s')
    /\ exists token s1 all s2 kept s3 records,
        get_edl_token earthdata_send (lower "UAT") quiet = (Return token, s1)
        /\ query_cmr_graph_for_collections earthdata_send 2 (lower "UAT")
             (plain_str token)
             (with_line s1 [Lit "Retrieved EDL bearer token"])
           = Some (Return all, s2)
        /\ filter_for_opendap_granules all (lower "UAT")
             (with_line
                (with_line
                   (with_file s2 (raw_snapshot (lower "UAT"))
                      (JsonText.dumps (JArr all)))
                   [Lit "Saved to "; Fmt (JStr (raw_snapshot (lower "UAT")))])
                [Lit "Retrieved "; Fmt (JNum (Z.of_nat (length all)));
                 Lit " cloud-hosted collections."])
           = (Return kept, s3)
        /\ kept `sublist_of` all
        /\ Forall2 formatted_record_of kept records
        /\ files s'
           = <[filtered_snapshot (lower "UAT")
               := JsonText.dumps (JArr records)]>
               (<[raw_snapshot (lower "UAT") := JsonText.dumps (JArr all)]>
                  (files quiet)).
Proof.
  eexists. split; [vm_compute; reflexivity|].
  eapply (get_collections_fresh_run earthdata_send JsonText.loads
            JsonText.dumps plain_str 2 "UAT" quiet).
  vm_compute. reflexivity.
Defined.

Lemma get_collections_invalid_environment_witness :
  get_collections_with_opendap_urls earthdata_send JsonText.loads
    JsonText.dumps plain_str 2 "ops" None quiet
  = Some (Raise ValueError, quiet).
Proof.
  apply (get_collections_invalid_environment earthdata_send JsonText.loads
           JsonText.dumps plain_str 2 "ops" None quiet).
  reflexivity.
Defined.

(** ** Associations, request by request *)

Section AssociationRuns.

Context {W : Type} (send : W -> request -> outcome response * W).
Context (loads : string -> outcome json).
Implicit Types (s : sys W).

Lemma preserving_load_file path : state_preserving (W := W) (load_file loads path).
Proof.
  intros s. unfold load_file. destruct (files s !! path); eexists; reflexivity.
Qed.

Lemma preserving_provider_comprehension provider_lower collections :
  state_preserving (W := W)
    (provider_comprehension provider_lower collections).
Proof.
  induction collections as [|c cs IH]; simpl; [apply preserving_ret|].
  apply preserving_bind; [unfold in_provider; preserving|].
  intros []; [|exact IH]. preserving. exact IH.
Qed.

Lemma preserving_get_provider_collections provider environment :
  state_preserving (W := W)
    (get_provider_collections loads provider environment).
Proof.
  unfold get_provider_collections, read_all_collections.
  apply preserving_bind; [apply preserving_load_file|]. intros all.
  apply preserving_bind; [apply preserving_lift|]. intros cs.
  apply preserving_provider_comprehension.
Qed.

End AssociationRuns.

(** X10: [make_opendap_associations] writes no file and sends at most one
    request.  For an environment other than uat and prod it raises before
    anything happens; when reading the provider's collections from the
    snapshot raises (a missing file, say), it raises the same exception and
    sends nothing; otherwise it sends one POST to the associations of the
    OPeNDAP service record of the environment, whose body lists the
    provider's collections, and returns exactly when that POST succeeds. *)
Theorem make_opendap_associations_run
    {W} (send : W -> request -> outcome response * W)
    (loads : string -> outcome json)
    (token provider environment : string) (s : sys W)
    (o : outcome unit) (s' : sys W) :
  make_opendap_associations send loads token provider environment s = (o, s') ->
  files s' = files s
  /\ ((s' = s /\ o = Raise (invalid_environment environment)
       /\ (table_get environment CMR_URLS = None
           \/ table_get environment OPENDAP_CONCEPT_IDS = None))
      \/ (s' = s
          /\ exists e,
              o = Raise e
              /\ get_provider_collections loads provider environment s
                 = (Raise e, s))
      \/ exists base target ids answer,
          table_get environment CMR_URLS = Some base
          /\ table_get environment OPENDAP_CONCEPT_IDS = Some target
          /\ get_provider_collections loads provider environment s
             = (Return ids, s)
          /\ wire s'
             = wire s ++ [(create_request (get_authenticated_session token)
                             base target ids, answer)]
          /\ (o = Return tt <-> successful answer)).
Proof.
  unfold make_opendap_associations.
  destruct (table_get environment CMR_URLS) as [base|] eqn:Hbase;
    [|intros [= <- <-]; split; [reflexivity|]; left; auto].
  destruct (table_get environment OPENDAP_CONCEPT_IDS) as [target|] eqn:Htarget;
    [|intros [= <- <-]; split; [reflexivity|]; left; auto].
  unfold bind at 1.
  destruct (preserving_get_provider_collections loads provider environment s)
    as [[ids|e] Hget]; rewrite Hget.
  2:{ intros [= <- <-]. split; [reflexivity|]. right. left. eauto. }
  unfold bind at 1. unfold print at 1.
  unfold bind at 1.
  match goal with
  | |- context [create_associations send ?a ?b ?c ?d ?s1] =>
      destruct (create_associations send a b c d s1) as [[[]|e] s2] eqn:Hcreate;
      apply create_associations_run in Hcreate as (-> & Hsucc & _)
  end.
  - run. intros [= <- <-]. simpl. split; [reflexivity|].
    right. right. exists base, target, ids. eexists.
    repeat (split; [reflexivity|]). split; [intros _|reflexivity].
    now apply (proj1 Hsucc).
  - intros [= <- <-]. simpl. split; [reflexivity|].
    right. right. exists base, target, ids. eexists.
    repeat (split; [reflexivity|]). split; [discriminate|].
    intros H. apply (proj2 Hsucc) in H. discriminate.
Qed.

Lemma make_opendap_associations_run_witness :
  exists ids answer,
    get_provider_collections JsonText.loads "POCLOUD" "prod" with_snapshot
    = (Return ids, with_snapshot)
    /\ wire (snd (make_opendap_associations refusing_send JsonText.loads
                    "token" "POCLOUD" "prod" with_snapshot))
       = wire with_snapshot
         ++ [(create_request (get_authenticated_session "token")
                "https://cmr.earthdata.nasa.gov" "S2874702816-XYZ_PROV"
                ids, answer)].
Proof.
  destruct (make_opendap_associations_run refusing_send JsonText.loads
              "token" "POCLOUD" "prod" with_snapshot _ _
              (surjective_pairing _))
    as [_ [(_ & H & _) | [(_ & e & _ & H)
                         | (base & target & ids & answer & [= <-]
                            & [= <-] & Hget & Hwire & _)]]].
  - vm_compute in H. discriminate H.
  - vm_compute in H. discriminate H.
  - exists ids, answer. split; [exact Hget | exact Hwire].
Defined.

Section MirrorRuns.

Context {W : Type} (send : W -> request -> outcome response * W).
Implicit Types (s : sys W).

Lemma get_associated_collections_returns sess base id provider s ids s' :
  get_associated_collections send sess base id provider s = (Return ids, s') ->
  successful (fst (send (net s) (search_request sess base id))).
Proof.
  unfold get_associated_collections. unfold bind at 1.
  fold (search_request sess base id). rewrite http_run.
  destruct (fst (send (net s) (search_request sess base id))) as [r|e];
    [|discriminate].
  unfold bind at 1. unfold raise_for_status.
  destruct (ok r) eqn:Hok; [|discriminate].
  intros _. now exists r.
Qed.

Lemma remove_associations_outcome sess base id ids s o s' :
  remove_associations send sess base id ids s = (o, s') ->
  (o = Return tt <->
   successful (fst (send (net s) (remove_request sess base id ids)))).
Proof.
  unfold remove_associations. unfold bind.
  fold (remove_request sess base id ids). rewrite http_run.
  destruct (fst (send (net s) (remove_request sess base id ids))) as [r|e].
  - unfold raise_for_status. destruct (ok r) eqn:Hok; intros [= <- _].
    + split; [intros _; now exists r | reflexivity].
    + split; [discriminate | intros [r' [[= <-] H]]; congruence].
  - intros [= <- _]. split; [discriminate | intros [r' [H _]]; discriminate].
Qed.

End MirrorRuns.

(** X11: in any run of [mirror_service_associations], the DELETE request, if
    there is one, has the body and the headers of the POST request: what is
    removed from the source service record is what was created on the target.
    If the search for the source record does not succeed, the search is the
    only request and the run ends with an exception.  And the run returns
    only when every request it sent succeeded: the search, the POST and, when
    [remove_old_associations] is true, the DELETE. *)
Theorem mirror_removes_what_it_created
    {W} (send : W -> request -> outcome response * W)
    (token service provider environment : string) (remove_old : bool)
    (s : sys W) (o : outcome unit) (s' : sys W) :
  mirror_service_associations send token service provider environment
    remove_old s = (o, s') ->
  exists new,
    wire s' = wire s ++ new
    /\ (forall c d,
           In c new -> In d new ->
           req_method (fst c) = POST -> req_method (fst d) = DELETE ->
           req_json (fst d) = req_json (fst c)
           /\ req_headers (fst d) = req_headers (fst c))
    /\ (forall g,
           In g new -> req_method (fst g) = GET -> ~ successful (snd g) ->
           new = [g] /\ exists e, o = Raise e)
    /\ (o = Return tt ->
        Forall (fun x => successful (snd x)) new
        /\ length new = if remove_old then 3%nat else 2%nat).
Proof.
  unfold mirror_service_associations.
  assert (Hnil : forall e : exn,
             exists new : list (request * outcome response),
               wire s = wire s ++ new
               /\ (forall c d,
                      In c new -> In d new ->
                      req_method (fst c) = POST -> req_method (fst d) = DELETE ->
                      req_json (fst d) = req_json (fst c)
                      /\ req_headers (fst d) = req_headers (fst c))
               /\ (forall g,
                      In g new -> req_method (fst g) = GET ->
                      ~ successful (snd g) ->
                      new = [g] /\ exists e', Raise (A := unit) e = Raise e')
               /\ (Raise (A := unit) e = Return tt ->
                   Forall (fun x => successful (snd x)) new
                   /\ length new = if remove_old then 3%nat else 2%nat)).
  { intros e. exists []. rewrite app_nil_r. split; [reflexivity|].
    split; [intros c d []|]. split; [intros g []|]. discriminate. }
  destruct (table_get environment CMR_URLS) as [base|];
    [|intros [= <- <-]; apply Hnil].
  destruct (table_get environment OPENDAP_CONCEPT_IDS) as [target|];
    [|intros [= <- <-]; apply Hnil].
  clear Hnil. set (sess := get_authenticated_session token).
  unfold bind at 1.
  destruct (get_associated_collections send sess base service provider s)
    as [[ids|e] s1] eqn:Hget.
  2:{ apply get_associated_collections_run in Hget. subst s1.
      intros [= <- <-]. eexists [_]. split; [reflexivity|].
      split; [|split].
      - intros c d [<- | []] [<- | []] Hc Hd. simpl in *. congruence.
      - intros g [<- | []] _ _. eauto.
      - discriminate. }
  pose proof (get_associated_collections_returns _ _ _ _ _ _ _ _ Hget) as Hok1.
  apply get_associated_collections_run in Hget. subst s1.
  unfold bind at 1.
  match goal with
  | |- context [create_associations send sess base target ids ?s1] =>
      destruct (create_associations send sess base target ids s1)
        as [[[]|e] s2] eqn:Hcreate;
      apply create_associations_run in Hcreate as (-> & Hsucc & _)
  end.
  2:{ intros [= <- <-]. eexists [_; _]. simpl. rewrite <- app_assoc.
      split; [reflexivity|]. split; [|split].
      - intros c d [<- | [<- | []]] [<- | [<- | []]] Hc Hd; simpl in *;
          congruence.
      - intros g [<- | [<- | []]] Hg Hn; simpl in *;
          [contradiction | discriminate].
      - discriminate. }
  pose proof (proj1 Hsucc eq_refl) as Hok2. simpl in Hok2.
  destruct remove_old.
  - match goal with
    | |- context [remove_associations send sess base service ids ?s2] =>
        destruct (remove_associations send sess base service ids s2)
          as [o3 s3] eqn:Hremove;
        pose proof (remove_associations_outcome _ _ _ _ _ _ _ _ Hremove)
          as Hsucc3;
        apply remove_associations_run in Hremove; subst s3
    end.
    intros [= <- <-]. eexists [_; _; _]. simpl. rewrite <- !app_assoc.
    split; [reflexivity|]. split; [|split].
    + intros c d [<- | [<- | [<- | []]]] [<- | [<- | [<- | []]]] Hc Hd;
        simpl in *; try congruence. split; reflexivity.
    + intros g [<- | [<- | [<- | []]]] Hg Hn; simpl in *;
        [contradiction | discriminate | discriminate].
    + intros Ho. split; [|reflexivity].
      repeat constructor; simpl; [exact Hok1 | exact Hok2 |].
      now apply (proj1 Hsucc3).
  - intros [= <- <-]. eexists [_; _]. simpl. rewrite <- app_assoc.
    split; [reflexivity|]. split; [|split].
    + intros c d [<- | [<- | []]] [<- | [<- | []]] Hc Hd; simpl in *;
        congruence.
    + intros g [<- | [<- | []]] Hg Hn; simpl in *;
        [contradiction | discriminate].
    + intros _. split; [|reflexivity].
      repeat constructor; simpl; assumption.
Qed.

Lemma mirror_removes_what_it_created_witness :
  exists new,
    wire (snd (mirror_service_associations accepting_send "token"
                 "S2009180097-POCLOUD" "POCLOUD" "prod" true quiet))
    = wire quiet ++ new
    /\ Forall (fun x => successful (snd x)) new
    /\ length new = 3%nat.
Proof.
  destruct (mirror_removes_what_it_created accepting_send "token"
              "S2009180097-POCLOUD" "POCLOUD" "prod" true quiet _ _
              (surjective_pairing _)) as (new & Hwire & _ & _ & Hreturn).
  exists new. split; [exact Hwire|]. apply Hreturn. reflexivity.
Defined.

(** X12: the edges of [get_associated_collections], each after one GET.  If
    the catalog answers with an empty list of items, the function raises
    [TypeError]: the message it builds is raised as it is, and a string is
    not an exception.  If the service record has no [associations] or its
    associations have no [collections], the function returns the empty
    list. *)
Theorem get_associated_collections_edges
    {W} (send : W -> request -> outcome response * W)
    (authenticated_session : session)
    (base_cmr_url umm_s_concept_id collection_provider : string)
    (s : sys W) (r : response) (w' : W) (fields : list (string * json)) :
  send (net s)
    (search_request authenticated_session base_cmr_url umm_s_concept_id)
  = (Return r, w') ->
  ok r = true ->
  json_body r = Return (JObj fields) ->
  (assoc "items" fields = Some (JArr []) ->
   get_associated_collections send authenticated_session base_cmr_url
     umm_s_concept_id collection_provider s
   = (Raise TypeError,
      after_exchange s w'
        (search_request authenticated_session base_cmr_url umm_s_concept_id)
        (Return r)))
  /\ (forall service others meta,
         assoc "items" fields = Some (JArr (JObj service :: others)) ->
         assoc "meta" service = Some (JObj meta) ->
         assoc "associations" meta = None
         \/ (exists associations,
                assoc "associations" meta = Some (JObj associations)
                /\ assoc "collections" associations = None) ->
         get_associated_collections send authenticated_session base_cmr_url
           umm_s_concept_id collection_provider s
         = (Return [],
            after_exchange s w'
              (search_request authenticated_session base_cmr_url
                 umm_s_concept_id)
              (Return r))).
Proof.
  intros Hsend Hok Hbody.
  assert (Hstart : forall k : response -> M W (list json),
             (let* search_response :=
                http send (search_request authenticated_session base_cmr_url
                             umm_s_concept_id) in k search_response) s
             = k r (after_exchange s w'
                      (search_request authenticated_session base_cmr_url
                         umm_s_concept_id) (Return r))).
  { intros k. unfold bind at 1. now rewrite http_run, Hsend. }
  split.
  - intros Hitems. unfold get_associated_collections.
    fold (search_request authenticated_session base_cmr_url umm_s_concept_id).
    rewrite Hstart. unfold bind at 1. unfold raise_for_status. rewrite Hok.
    unfold ret at 1. unfold bind at 1. unfold try_except. rewrite Hbody. run.
    now rewrite Hitems.
  - intros service others meta Hitems Hmeta Hassoc.
    unfold get_associated_collections.
    fold (search_request authenticated_session base_cmr_url umm_s_concept_id).
    rewrite Hstart. unfold bind at 1. unfold raise_for_status. rewrite Hok.
    unfold ret at 1. unfold bind at 1. unfold try_except. rewrite Hbody. run.
    rewrite Hitems. simpl. rewrite Hmeta. simpl.
    destruct Hassoc as [Ha | (associations & Ha & Hc)]; rewrite Ha; simpl;
      [reflexivity | now rewrite Hc].
Qed.

Lemma get_associated_collections_edges_witness :
  get_associated_collections empty_send (get_authenticated_session "token")
    "https://cmr.earthdata.nasa.gov" "S1-NOWHERE" "POCLOUD" quiet
  = (Raise TypeError,
     after_exchange quiet tt
       (search_request (get_authenticated_session "token")
          "https://cmr.earthdata.nasa.gov" "S1-NOWHERE")
       (Return (response_200 (JObj [("hits", JNum 0); ("items", JArr [])])))).
Proof.
  apply (proj1 (get_associated_collections_edges empty_send
                  (get_authenticated_session "token")
                  "https://cmr.earthdata.nasa.gov" "S1-NOWHERE" "POCLOUD" quiet
                  _ tt [("hits", JNum 0); ("items", JArr [])]
                  eq_refl eq_refl eq_refl)).
  reflexivity.
Defined.

(** ** Provider filters at the edges *)

Lemma endswith_empty_string (suffix : string) :
  suffix <> "" -> endswith "" suffix = false.
Proof. destruct suffix; [congruence | reflexivity]. Qed.

Lemma lower_nonempty (s : string) : s <> "" -> lower s <> "".
Proof. destruct s; [congruence | discriminate]. Qed.

Lemma endswith_empty_suffix (s : string) : endswith s "" = true.
Proof. apply endswith_spec. exists s. symmetry. apply JsonTextFacts.str_app_nil_r. Qed.

Lemma omap_record_concept_id fields records :
  omap record_concept_id (JObj fields :: records)
  = match assoc "concept_id" fields with
    | Some (JStr concept_id) => concept_id :: omap record_concept_id records
    | _ => omap record_concept_id records
    end.
Proof.
  change (omap record_concept_id (JObj fields :: records))
    with (match record_concept_id (JObj fields) with
          | Some x => x :: omap record_concept_id records
          | None => omap record_concept_id records
          end).
  unfold record_concept_id. now destruct (assoc "concept_id" fields) as [[]|].
Qed.

Lemma provider_comprehension_loose {W} provider records (s : sys W) :
  provider <> "" ->
  Forall loose_record records ->
  provider_comprehension (lower provider) records s
  = (Return (map JStr (filter (ends_with_provider provider)
                         (omap record_concept_id records))), s).
Proof.
  intros Hne. rewrite filter_ends_with_provider.
  induction 1 as [|record records (fields & -> & Hid) _ IH]; [reflexivity|].
  rewrite omap_record_concept_id.
  simpl provider_comprehension. unfold bind at 1. unfold in_provider. run.
  destruct Hid as [Hid | [concept_id Hid]]; rewrite Hid; simpl.
  - rewrite endswith_empty_string by now apply lower_nonempty.
    exact IH.
  - destruct (endswith (lower concept_id) (lower provider)); rewrite IH;
      reflexivity.
Qed.

Lemma provider_comprehension_empty_provider {W} records (s : sys W) :
  Forall loose_record records ->
  Exists (fun record => record_concept_id record = None) records ->
  provider_comprehension (lower "") records s = (Raise KeyError, s).
Proof.
  induction 1 as [|record records (fields & -> & Hid) _ IH];
    intros Hex; [inversion Hex|].
  simpl provider_comprehension. unfold bind at 1. unfold in_provider. run.
  destruct Hid as [Hid | [concept_id Hid]]; rewrite Hid; simpl.
  - reflexivity.
  - rewrite endswith_empty_suffix.
    inversion Hex as [? ? H|? ? H]; subst.
    + unfold record_concept_id in H. rewrite Hid in H. discriminate.
    + now rewrite (IH H).
Qed.

(** X13: [get_provider_collections] over records whose [concept_id], when
    present, is a string.  With a provider that is not empty, the records
    without a [concept_id] are passed over in silence and the result is the
    filter of the concept IDs that are there; with the empty provider, one
    record without a [concept_id] makes the whole call raise [KeyError]. *)
Theorem get_provider_collections_without_concept_id
    {W} (loads : string -> outcome json)
    (collection_provider environment text : string) (records : list json)
    (s : sys W) :
  files s !! filtered_snapshot environment = Some text ->
  loads text = Return (JArr records) ->
  Forall loose_record records ->
  (collection_provider <> "" ->
   get_provider_collections loads collection_provider environment s
   = (Return (map JStr (filter (ends_with_provider collection_provider)
                          (omap record_concept_id records))), s))
  /\ (collection_provider = "" ->
      Exists (fun record => record_concept_id record = None) records ->
      get_provider_collections loads collection_provider environment s
      = (Raise KeyError, s)).
Proof.
  intros Hfile Hloads Hrecords.
  assert (Hstart : get_provider_collections loads collection_provider
                     environment s
                   = provider_comprehension (lower collection_provider)
                       records s).
  { unfold get_provider_collections, read_all_collections.
    unfold bind at 1. unfold load_file.
    fold (filtered_snapshot environment). rewrite Hfile, Hloads.
    reflexivity. }
  rewrite Hstart. split.
  - intros Hne. now apply provider_comprehension_loose.
  - intros -> Hex. now apply provider_comprehension_empty_provider.
Qed.

Lemma get_provider_collections_without_concept_id_witness :
  get_provider_collections JsonText.loads "POCLOUD" "prod" with_loose_snapshot
  = (Return [JStr "C2-POCLOUD"], with_loose_snapshot)
  /\ get_provider_collections JsonText.loads "" "prod" with_loose_snapshot
     = (Raise KeyError, with_loose_snapshot).
Proof.
  split.
  - rewrite (proj1 (get_provider_collections_without_concept_id JsonText.loads
                      "POCLOUD" "prod" _
                      [JObj [("short_name", JStr "A")];
                       JObj [("short_name", JStr "B");
                             ("concept_id", JStr "C2-POCLOUD")]]
                      with_loose_snapshot
                      (lookup_singleton_eq _ _)
                      (JsonTextFacts.loads_dumps _)
                      ltac:(repeat constructor; eexists;
                            (split; [reflexivity|]);
                            [left; reflexivity | right; eexists; reflexivity]))
               ltac:(discriminate)).
    rewrite filter_ends_with_provider. reflexivity.
  - apply (proj2 (get_provider_collections_without_concept_id JsonText.loads
                    "" "prod" _
                    [JObj [("short_name", JStr "A")];
                     JObj [("short_name", JStr "B");
                           ("concept_id", JStr "C2-POCLOUD")]]
                    with_loose_snapshot
                    (lookup_singleton_eq _ _)
                    (JsonTextFacts.loads_dumps _)
                    ltac:(repeat constructor; eexists;
                          (split; [reflexivity|]);
                          [left; reflexivity | right; eexists; reflexivity]))
             eq_refl).
    left. reflexivity.
Defined.

(** ** get_short_names_for_pocloud *)

#[export] Instance has_suffix_dec suffix s : Decision (has_suffix suffix s).
Proof.
  refine (cast_if (decide (endswith s suffix = true)));
    abstract (unfold has_suffix; now rewrite <- endswith_spec).
Defined.

Lemma has_suffix_ignoring_case (provider concept_id : string) :
  has_suffix provider concept_id -> ends_with_provider provider concept_id.
Proof. intros [before ->]. now exists before, provider. Qed.

(** X14: over records with a string [concept_id] and a [short_name],
    [get_short_names_for_pocloud] returns, in order, the short names of the
    records whose concept ID ends with POCLOUD in capitals; unlike the
    provider filters it does not ignore case, so the records it selects are
    among those the provider filter selects for POCLOUD, not the other way
    round. *)
Theorem get_short_names_for_pocloud_exact
    {W} (data : list json) (named : list (string * json)) (s : sys W) :
  Forall2 named_record data named ->
  get_short_names_for_pocloud data s
  = (Return (map snd (filter (fun p => has_suffix "POCLOUD" (fst p)) named)),
     s)
  /\ filter (fun p => has_suffix "POCLOUD" (fst p)) named
     `sublist_of`
     filter (fun p => ends_with_provider "POCLOUD" (fst p)) named.
Proof.
  intros Hdata. split.
  - induction Hdata as [|record p data named (fields & -> & Hid & Hname) _ IH];
      [reflexivity|].
    simpl get_short_names_for_pocloud. unfold bind at 1. run. rewrite Hid.
    simpl. rewrite filter_cons.
    destruct (endswith (fst p) "POCLOUD") eqn:Hend.
    + rewrite decide_True by (unfold has_suffix; now rewrite <- endswith_spec).
      rewrite Hname. simpl.
      change (get_short_names_for_pocloud data s)
        with (get_short_names_for_pocloud (W := W) data s).
      now rewrite IH.
    + rewrite decide_False; [exact IH|].
      unfold has_suffix. rewrite <- endswith_spec. congruence.
  - clear. induction named as [|p named IH]; [constructor|].
    rewrite !filter_cons.
    destruct (decide (has_suffix "POCLOUD" (fst p))) as [H|H].
    + rewrite decide_True by now apply has_suffix_ignoring_case.
      now apply sublist_skip.
    + destruct (decide (ends_with_provider "POCLOUD" (fst p)));
        [now apply sublist_cons | exact IH].
Qed.

Lemma get_short_names_for_pocloud_exact_witness :
  get_short_names_for_pocloud
    [JObj [("short_name", JStr "A"); ("concept_id", JStr "C1-POCLOUD")];
     JObj [("short_name", JStr "B"); ("concept_id", JStr "C2-pocloud")]]
    quiet
  = (Return [JStr "A"], quiet).
Proof.
  apply (proj1 (get_short_names_for_pocloud_exact
                  [JObj [("short_name", JStr "A");
                         ("concept_id", JStr "C1-POCLOUD")];
                   JObj [("short_name", JStr "B");
                         ("concept_id", JStr "C2-pocloud")]]
                  [("C1-POCLOUD", JStr "A"); ("C2-pocloud", JStr "B")]
                  quiet
                  ltac:(repeat constructor; eexists;
                        repeat split; reflexivity))).
Defined.

(** ** write_list and read_text_file_to_list *)

Lemma write_elements_strings (written : string) (entries : list string) :
  write_elements written (map JStr entries)
  = (written +:+ lines_text entries, Return tt).
Proof.
  revert written. induction entries as [|e es IH]; intros written; simpl.
  - now rewrite JsonTextFacts.str_app_nil_r.
  - rewrite IH. now rewrite !JsonTextFacts.str_app_assoc.
Qed.

Lemma write_elements_stops (written : string) (entries : list string)
    (bad : json) (rest : list json) :
  is_string bad = false ->
  write_elements written (map JStr entries ++ bad :: rest)
  = (written +:+ lines_text entries, Raise TypeError).
Proof.
  intros Hbad. revert written.
  induction entries as [|e es IH]; intros written; simpl.
  - rewrite JsonTextFacts.str_app_nil_r. now destruct bad.
  - rewrite IH. now rewrite !JsonTextFacts.str_app_assoc.
Qed.

Lemma one_line_app (s t : string) :
  one_line (s +:+ t) = one_line s && one_line t.
Proof.
  induction s as [|c s IH]; [reflexivity|]. rewrite app_cons. simpl.
  rewrite IH. now rewrite andb_assoc.
Qed.

Lemma universal_newlines_line (entry rest : string) :
  one_line entry = true ->
  universal_newlines (entry +:+ String (ascii_of_nat 10) rest)
  = entry +:+ String (ascii_of_nat 10) (universal_newlines rest).
Proof.
  induction entry as [|c entry IH]; intros H; [reflexivity|].
  simpl in H. apply andb_true_iff in H as [Hc H].
  apply andb_true_iff in Hc as [_ Hc]. apply negb_true_iff in Hc.
  rewrite !app_cons. simpl. rewrite Hc. now rewrite IH.
Qed.

Lemma universal_newlines_lines (entries : list string) :
  Forall (fun entry => one_line entry = true) entries ->
  universal_newlines (lines_text entries) = lines_text entries.
Proof.
  induction 1 as [|e es He _ IH]; [reflexivity|]. simpl.
  rewrite app_cons, app_nil_l, universal_newlines_line by exact He.
  now rewrite IH.
Qed.

Lemma split_lines_line (entry rest : string) :
  one_line entry = true ->
  split_lines (entry +:+ String (ascii_of_nat 10) rest)
  = (entry +:+ String (ascii_of_nat 10) "") :: split_lines rest.
Proof.
  induction entry as [|c entry IH]; intros H; [reflexivity|].
  simpl in H. apply andb_true_iff in H as [Hc H].
  apply andb_true_iff in Hc as [Hc _]. apply negb_true_iff in Hc.
  rewrite !app_cons. simpl. rewrite Hc. now rewrite IH.
Qed.

Lemma split_lines_lines (entries : list string) :
  Forall (fun entry => one_line entry = true) entries ->
  split_lines (lines_text entries)
  = map (fun entry => entry +:+ String (ascii_of_nat 10) "") entries.
Proof.
  induction 1 as [|e es He _ IH]; [reflexivity|]. simpl.
  rewrite app_cons, app_nil_l, split_lines_line by exact He.
  now rewrite IH.
Qed.

Lemma rstrip_length (s : string) :
  (String.length (rstrip s) <= String.length s)%nat.
Proof.
  induction s as [|c s IH]; simpl; [lia|].
  destruct (rstrip s); [destruct (isspace c)|]; simpl in *; lia.
Qed.

Lemma lstrip_length (s : string) :
  (String.length (lstrip s) <= String.length s)%nat.
Proof.
  induction s as [|c s IH]; simpl; [lia|].
  destruct (isspace c); simpl; lia.
Qed.

Lemma rstrip_app_space (s : string) (c : ascii) :
  isspace c = true -> rstrip (s +:+ String c "") = rstrip s.
Proof.
  intros Hc. induction s as [|d s IH].
  - simpl. now rewrite Hc.
  - rewrite app_cons. simpl. now rewrite IH.
Qed.

Lemma strip_fixed (s : string) :
  strip s = s -> lstrip s = s /\ rstrip s = s.
Proof.
  intros H. assert (Hl : lstrip s = s).
  { destruct s as [|c s]; [reflexivity|]. simpl.
    destruct (isspace c) eqn:Hc; [|reflexivity]. exfalso.
    unfold strip in H. simpl in H. rewrite Hc in H.
    pose proof (rstrip_length (lstrip s)). pose proof (lstrip_length s).
    rewrite H in *. simpl in *. lia. }
  split; [exact Hl|]. unfold strip in H. now rewrite Hl in H.
Qed.

Lemma strip_line (entry : string) :
  strip entry = entry ->
  strip (entry +:+ String (ascii_of_nat 10) "") = entry.
Proof.
  intros H. destruct (strip_fixed entry H) as [Hl Hr]. unfold strip.
  destruct entry as [|c entry]; [reflexivity|].
  rewrite app_cons. simpl in Hl |- *.
  destruct (isspace c) eqn:Hc.
  - exfalso. pose proof (lstrip_length entry). rewrite Hl in *.
    simpl in *. lia.
  - rewrite <- app_cons. now rewrite rstrip_app_space.
Qed.

(** X15: [write_list] and [read_text_file_to_list] are inverse on clean
    entries: after writing a list of strings that are each one line without
    white space at either end, reading the file gives that list back.  On a
    file that does not exist, [read_text_file_to_list] prints that the file
    was not found and returns the empty list. *)
Theorem write_list_read_back
    {W} (filename : string) (entries : list string) (s : sys W) :
  (Forall clean_entry entries ->
   exists s1,
     write_list filename (map JStr entries) s = (Return tt, s1)
     /\ files s1 = <[filename := lines_text entries]> (files s)
     /\ read_text_file_to_list filename s1 = (Return entries, s1))
  /\ (files s !! filename = None ->
      read_text_file_to_list filename s
      = (Return [],
         mkSys (stdout s ++ [file_not_found filename]) (net s) (wire s)
           (files s))).
Proof.
  split.
  - intros Hclean. eexists. unfold write_list.
    rewrite write_elements_strings, app_nil_l.
    split; [reflexivity|]. split; [reflexivity|].
    unfold read_text_file_to_list. simpl. rewrite lookup_insert_eq.
    assert (Hone : Forall (fun entry => one_line entry = true) entries).
    { eapply Forall_impl; [exact Hclean|]. now intros e (_ & He & _). }
    rewrite universal_newlines_lines, split_lines_lines by exact Hone.
    do 2 f_equal. rewrite map_map.
    clear Hone. induction Hclean as [|e es (_ & _ & He) _ IH]; [reflexivity|].
    simpl. now rewrite strip_line, IH.
  - intros Hnone. unfold read_text_file_to_list. now rewrite Hnone.
Qed.

Lemma write_list_read_back_witness :
  exists s1,
    write_list "names.txt" (map JStr ["MUR-JPL"; "AIRS v7"; ""]) quiet
    = (Return tt, s1)
    /\ files s1
       = <["names.txt" := lines_text ["MUR-JPL"; "AIRS v7"; ""]]> (files quiet)
    /\ read_text_file_to_list "names.txt" s1
       = (Return ["MUR-JPL"; "AIRS v7"; ""], s1).
Proof.
  apply (proj1 (write_list_read_back "names.txt" ["MUR-JPL"; "AIRS v7"; ""]
                  quiet)).
  repeat constructor.
Defined.

(** X16: [write_list] stops at the first element that is not a string: it
    raises [TypeError], and the file, opened for writing before the first
    element, is left with the lines of the strings before that element and
    nothing of what the file held. *)
Theorem write_list_stops_at_non_string
    {W} (filename : string) (entries : list string) (bad : json)
    (rest : list json) (s : sys W) :
  is_string bad = false ->
  write_list filename (map JStr entries ++ bad :: rest) s
  = (Raise TypeError,
     mkSys (stdout s) (net s) (wire s)
       (<[filename := lines_text entries]> (files s))).
Proof.
  intros Hbad. unfold write_list.
  now rewrite (write_elements_stops _ _ _ _ Hbad), app_nil_l.
Qed.

Lemma write_list_stops_at_non_string_witness :
  write_list "names.txt" (map JStr ["A"] ++ JNull :: [JStr "B"]) quiet
  = (Raise TypeError,
     mkSys [] tt [] (<["names.txt" := lines_text ["A"]]> ∅)).
Proof.
  apply (write_list_stops_at_non_string "names.txt" ["A"] JNull [JStr "B"]
           quiet).
  reflexivity.
Defined.

(** X17: [read_json_list] reads the filtered snapshot back: with a
    [json.dump] / [json.load] pair that reads back what it wrote, after
    [save_opendap_collections] has returned, [read_json_list] on the snapshot
    of that environment gives the Formatted Collection Records of the
    collections saved and changes nothing.  On a file that does not exist it
    prints that the file was not found and then raises all the same, the
    [UnboundLocalError] of the variable it was going to return: a missing
    file never gives a value. *)
Theorem read_json_list_reads_snapshot_or_raises
    {W} (loads : string -> outcome json) (dumps : json -> string)
    (s : sys W) :
  (forall collections environment s1,
      (forall value, loads (dumps value) = Return value) ->
      save_opendap_collections dumps collections environment s
      = (Return tt, s1) ->
      exists records,
        Forall2 formatted_record_of collections records
        /\ read_json_list loads (filtered_snapshot environment) s1
           = (Return (JArr records), s1))
  /\ (forall filename,
         files s !! filename = None ->
         read_json_list loads filename s
         = (Raise (unbound_local "data"),
            mkSys (stdout s ++ [file_not_found filename]) (net s) (wire s)
              (files s))).
Proof.
  split.
  - intros collections environment s1 Hcodec.
    unfold save_opendap_collections. unfold bind.
    destruct (comprehension get_formatted_collection collections s)
      as [[records|e] s0] eqn:Hrun;
      apply comprehension_formatted_run in Hrun as [-> Hrun];
      [|discriminate].
    intros [= <-]. exists records. split; [exact Hrun|].
    unfold read_json_list. simpl. fold (filtered_snapshot environment).
    now rewrite lookup_insert_eq, Hcodec.
  - intros filename Hnone. unfold read_json_list. now rewrite Hnone.
Qed.

Lemma read_json_list_reads_snapshot_or_raises_witness :
  (exists records,
      Forall2 formatted_record_of [collection_of "A" "C1-POCLOUD" []] records
      /\ read_json_list JsonText.loads (filtered_snapshot "prod")
           (snd (save_opendap_collections JsonText.dumps
                   [collection_of "A" "C1-POCLOUD" []] "prod" quiet))
         = (Return (JArr records),
            snd (save_opendap_collections JsonText.dumps
                   [collection_of "A" "C1-POCLOUD" []] "prod" quiet)))
  /\ read_json_list JsonText.loads "all_collections_sit.json" quiet
     = (Raise (unbound_local "data"),
        mkSys [file_not_found "all_collections_sit.json"] tt [] ∅).
Proof.
  split.
  - apply (proj1 (read_json_list_reads_snapshot_or_raises JsonText.loads
                    JsonText.dumps quiet)
             [collection_of "A" "C1-POCLOUD" []] "prod" _
             JsonTextFacts.loads_dumps).
    reflexivity.
  - apply (proj2 (read_json_list_reads_snapshot_or_raises JsonText.loads
                    JsonText.dumps quiet) "all_collections_sit.json").
    reflexivity.
Defined.

(** ** find_elements_in_second_list *)

Lemma existsb_hashable_eq_str (e : string) (list1 : list string) :
  existsb (hashable_eq (JStr e)) (map JStr list1) = true <-> e ∈ list1.
Proof.
  induction list1 as [|a l IH]; simpl.
  - split; [discriminate | intros H; inversion H].
  - rewrite orb_true_iff, IH, String.eqb_eq, elem_of_cons. tauto.
Qed.

Lemma elements_not_in_strings {W} (list1 list2 : list string) (s : sys W) :
  elements_not_in (map JStr list1) (map JStr list2) s
  = (Return (map JStr (filter (.∉ list1) list2)), s).
Proof.
  induction list2 as [|e l IH]; [reflexivity|].
  cbn [map elements_not_in]. unfold bind at 1. unfold lift, not_in_set.
  cbn [hashable]. unfold bind at 1. rewrite IH. unfold ret.
  rewrite filter_cons. destruct (decide (e ∉ list1)) as [Hn | Hn].
  - destruct (existsb _ _) eqn:Hex; [|reflexivity].
    apply existsb_hashable_eq_str in Hex. contradiction.
  - destruct (existsb _ _) eqn:Hex; [reflexivity|]. exfalso. apply Hn.
    intros Hin. apply existsb_hashable_eq_str in Hin. congruence.
Qed.

Lemma elements_not_in_unhashable {W} (unique_elements list2 : list json)
    (s : sys W) :
  forallb hashable list2 = false ->
  elements_not_in unique_elements list2 s = (Raise TypeError, s).
Proof.
  induction list2 as [|e l IH]; [discriminate|]. simpl. intros H.
  unfold bind at 1. unfold lift, not_in_set.
  destruct (hashable e); [|reflexivity]. simpl in H.
  unfold bind at 1. now rewrite (IH H).
Qed.

Lemma print_each_run {W} (elements : list json) (s : sys W) :
  print_each elements s
  = (Return tt,
     mkSys (stdout s ++ map (fun element => [Fmt element]) elements) (net s)
       (wire s) (files s)).
Proof.
  revert s. induction elements as [|e l IH]; intros s.
  - simpl. unfold ret. rewrite app_nil_r. now destruct s.
  - cbn [print_each map]. unfold bind, print. rewrite IH. simpl.
    now rewrite <- app_assoc.
Qed.

(** X18: On two lists of strings [find_elements_in_second_list] prints, after
    a header, the elements of the second list that are not in the first, in
    the order and as many times as the second list has them, and only the
    line that all are present when there is none; it changes nothing else.
    When either list holds a list or a map among its elements, it raises
    [TypeError] and prints nothing. *)
Theorem find_elements_in_second_list_prints
    {W} (s : sys W) :
  (forall list1 list2 : list string,
      find_elements_in_second_list (map JStr list1) (map JStr list2) s
      = (Return tt,
         mkSys (stdout s
                ++ match filter (.∉ list1) list2 with
                   | [] => [all_present_line]
                   | missing =>
                       missing_header
                       :: map (fun element => [Fmt (JStr element)]) missing
                   end)
           (net s) (wire s) (files s)))
  /\ (forall list1 list2 : list json,
         forallb hashable (list1 ++ list2) = false ->
         find_elements_in_second_list list1 list2 s = (Raise TypeError, s)).
Proof.
  split.
  - intros list1 list2. unfold find_elements_in_second_list, make_set.
    assert (forallb hashable (map JStr list1) = true) as ->
        by (induction list1; [reflexivity | assumption]).
    unfold bind at 1. unfold lift at 1. unfold bind at 1.
    rewrite elements_not_in_strings.
    destruct (filter _ list2) as [|e missing]; [reflexivity|].
    cbn [map]. unfold bind, print. rewrite print_each_run. simpl.
    rewrite map_map. now rewrite <- app_assoc.
  - intros list1 list2 H. unfold find_elements_in_second_list, make_set.
    rewrite forallb_app in H.
    destruct (forallb hashable list1); [|reflexivity]. simpl in H.
    unfold bind at 1. unfold lift at 1. unfold bind at 1.
    now rewrite (elements_not_in_unhashable _ _ _ H).
Qed.

Lemma find_elements_in_second_list_prints_witness :
  find_elements_in_second_list [JStr "MUR-JPL"] [JStr "AIRS"; JArr []] quiet
  = (Raise TypeError, quiet).
Proof.
  apply (proj2 (find_elements_in_second_list_prints quiet)
           [JStr "MUR-JPL"] [JStr "AIRS"; JArr []]).
  reflexivity.
Defined.

(** ** The first related URL that decides *)

Section FirstDecides.

Context {W : Type}.
Implicit Types (s : sys W).

Lemma any_skips (p : json -> M W bool) before rest s :
  Forall (fun x => p x s = (Return false, s)) before ->
  any p (before ++ rest) s = any p rest s.
Proof.
  induction 1 as [|x xs Hx _ IH]; [reflexivity|].
  simpl. unfold bind at 1. now rewrite Hx.
Qed.

Lemma is_opendap_url_unreadable hyrax related_url e s :
  unreadable_related_url related_url e ->
  is_opendap_url hyrax related_url s = (Raise e, s).
Proof.
  intros [v Hv | fields url Ht Hs Hu Hm]; unfold is_opendap_url; run.
  - destruct v as [ | | | | | fields]; try reflexivity.
    now destruct (Hv fields).
  - rewrite Ht, Hs, Hu. simpl. now destruct url.
Qed.

Lemma comprehension_if_stops (p : json -> M W bool) before bad after e s s' :
  Forall (fun x => exists b, p x s = (Return b, s)) before ->
  p bad s = (Raise e, s') ->
  comprehension_if p (before ++ bad :: after) s = (Raise e, s').
Proof.
  intros Hbefore Hbad. induction Hbefore as [|x xs [b Hb] _ IH]; simpl.
  - unfold bind at 1. now rewrite Hbad.
  - unfold bind at 1. rewrite Hb. unfold bind at 1. now rewrite IH.
Qed.

End FirstDecides.

(** X19: The first related URL that is not a plain non-OPeNDAP record
    decides [collection_has_opendap_url], whatever follows it: after related
    URLs of the data model that do not meet the three conditions, one that
    meets them gives [True], and one the generator cannot read (not a map,
    or of the right type and subtype with a [url] that is null, a number or
    a boolean) raises [AttributeError] or [TypeError]. *)
Theorem collection_has_opendap_url_first_decides
    {W} (collection : json) (environment hyrax : string)
    (before : list json) (decisive : json) (after : list json) (s : sys W) :
  valid_environment environment = true ->
  environment_parameter hyrax_substring environment = Return hyrax ->
  first_granule_related_urls collection (before ++ decisive :: after) ->
  Forall related_url_record before ->
  Forall (fun related_url => ~ opendap_related_url hyrax related_url) before ->
  (opendap_related_url hyrax decisive ->
   collection_has_opendap_url collection environment s = (Return true, s))
  /\ (forall e,
         unreadable_related_url decisive e ->
         collection_has_opendap_url collection environment s = (Raise e, s)).
Proof.
  intros Henv Hh Hc Hrec Hnot.
  destruct (valid_environment_hyrax _ Henv) as [hyrax' [Hh' Hne]].
  rewrite Hh in Hh'. injection Hh' as <-.
  apply (related_urls_of_first_granule _ _ s) in Hc.
  rewrite (collection_has_opendap_url_run _ _ _ _ _ Hh Hc).
  rewrite any_skips.
  2:{ clear Hc. induction Hrec as [|u us Hu _ IH]; [constructor|].
      inversion Hnot as [|? ? Hn Hns]; subst. constructor; [|now apply IH].
      destruct (is_opendap_url_record hyrax u s Hne Hu) as [b [Hrun Hb]].
      rewrite Hrun. destruct b; [|reflexivity].
      exfalso. apply Hn. now apply Hb. }
  split.
  - intros Hd. simpl. unfold bind at 1.
    assert (Hr : related_url_record decisive).
    { destruct Hd as (fields & url & -> & _ & _ & Hu & _).
      exists fields. split; [reflexivity|]. right. now exists url. }
    destruct (is_opendap_url_record hyrax decisive s Hne Hr) as [b [Hrun Hb]].
    rewrite Hrun. now rewrite (proj2 Hb Hd).
  - intros e He. simpl. unfold bind at 1.
    now rewrite (is_opendap_url_unreadable hyrax decisive e s He).
Qed.

Lemma collection_has_opendap_url_first_decides_witness :
  collection_has_opendap_url
    (collection_of "MUR-JPL" "C1-POCLOUD"
       [opendap_url_record "GET DATA" "OPENDAP DATA"
          "https://opendap.earthdata.nasa.gov/a";
        opendap_url_record "USE SERVICE API" "OPENDAP DATA"
          "https://opendap.earthdata.nasa.gov/a";
        JNull])
    "prod" quiet
  = (Return true, quiet).
Proof.
  apply (proj1 (collection_has_opendap_url_first_decides
                  (collection_of "MUR-JPL" "C1-POCLOUD" _) "prod"
                  "opendap.earthdata.nasa.gov"
                  [opendap_url_record "GET DATA" "OPENDAP DATA"
                     "https://opendap.earthdata.nasa.gov/a"]
                  (opendap_url_record "USE SERVICE API" "OPENDAP DATA"
                     "https://opendap.earthdata.nasa.gov/a")
                  [JNull] quiet eq_refl eq_refl
                  ltac:(do 4 eexists; repeat split)
                  ltac:(repeat constructor; eexists; split;
                        [reflexivity | right; eexists; reflexivity])
                  ltac:(repeat constructor;
                        intros (f & u & [= <-] & Ht & _); discriminate Ht))).
  exists [("type", JStr "USE SERVICE API"); ("subtype", JStr "OPENDAP DATA");
          ("url", JStr "https://opendap.earthdata.nasa.gov/a")],
    "https://opendap.earthdata.nasa.gov/a".
  repeat (split; [reflexivity|]). now exists "https://", "/a".
Defined.

(** X20: [filter_for_opendap_granules] gives all or nothing: when the
    inspection of one collection raises after collections of the data
    model, the filter raises the same exception, leaves what that inspection
    printed, and returns none of the collections before it. *)
Theorem filter_for_opendap_granules_stops_at_first_raise
    {W} (before : list json) (bad : json) (after : list json)
    (environment : string) (e : exn) (s s' : sys W) :
  valid_environment environment = true ->
  Forall collection_record before ->
  collection_has_opendap_url bad environment s = (Raise e, s') ->
  filter_for_opendap_granules (before ++ bad :: after) environment s
  = (Raise e, s').
Proof.
  intros Henv Hbefore Hbad. unfold filter_for_opendap_granules.
  apply comprehension_if_stops; [|exact Hbad].
  eapply Forall_impl; [exact Hbefore|]. intros c Hc.
  now apply collection_has_opendap_url_total.
Qed.

Lemma filter_for_opendap_granules_stops_at_first_raise_witness :
  filter_for_opendap_granules
    ([collection_of "MUR-JPL" "C1-POCLOUD"
        [opendap_url_record "USE SERVICE API" "OPENDAP DATA"
           "https://opendap.earthdata.nasa.gov/a"]]
     ++ JObj [("shortName", JStr "AIRS"); ("granules", JArr [])]
     :: [collection_of "B" "C2-OTHER" []])
    "prod" quiet
  = (Raise AttributeError,
     mkSys [[Lit "Failed: "; Fmt (JStr "AIRS")]] tt [] ∅).
Proof.
  apply (filter_for_opendap_granules_stops_at_first_raise
           [collection_of "MUR-JPL" "C1-POCLOUD"
              [opendap_url_record "USE SERVICE API" "OPENDAP DATA"
                 "https://opendap.earthdata.nasa.gov/a"]]
           (JObj [("shortName", JStr "AIRS"); ("granules", JArr [])])
           [collection_of "B" "C2-OTHER" []] "prod" AttributeError quiet
           (mkSys [[Lit "Failed: "; Fmt (JStr "AIRS")]] tt [] ∅) eq_refl).
  - constructor; [|constructor]. right. eexists. split.
    + do 4 eexists. repeat split.
    + repeat constructor. eexists. split; [reflexivity|].
      right. eexists. reflexivity.
  - reflexivity.
Defined.
